(** * build.js: a static-asset build pipeline

    Shallow embedding of [build.js] and the properties of its file
    transformer, exclusion filter and data stager.

    Conventions of the model.
    - A JavaScript string is the list of its UTF-16 code units ([N]).
    - The file store is one tree of directories and files, shared by the
      source and the output. It holds the text of each file, as
      [readFileSync(p, 'utf8')] returns it and [writeFileSync] stores it.
    - A path is kept in normal form, as the list of its components below the
      working directory; [path.join] is concatenation.
    - The script runs in a monad of state and exceptions. The state is the
      disk, the mapping of file names, the console and the number of
      readings of the clock; an exception is an error of the file system.
    - The two recursive walks take a bound on their depth, and a global
      replacement a bound on its steps; [copyDir_staged] and
      [replace_from_bound] show that the bounds given are enough.
    - The regular expressions are run by a backtracking matcher for the
      patterns the script builds. A file name with a pattern character other
      than the dot makes a pattern outside its reach, and the run ends in
      [Unmodelled].
    - The libraries the script calls (terser, html-minifier-terser, md5 of
      the crypto module, the clock) are parameters of the model. *)

From Stdlib Require Import List NArith Bool Arith Lia String Ascii.
Import ListNotations.
Local Open Scope N_scope.

(* ===================================================================== *)
(** ** JavaScript strings *)
(* ===================================================================== *)

Definition jschar := N.
Definition jsstring := list jschar.

(** A string literal of the source, as code units. *)
Definition str (s : string) : jsstring :=
  map N_of_ascii (list_ascii_of_string s).

Fixpoint jseq (a b : jsstring) : bool :=
  match a, b with
  | [], [] => true
  | x :: a', y :: b' => (x =? y) && jseq a' b'
  | _, _ => false
  end.

(** [s.startsWith(p)] *)
Fixpoint startsWith (p s : jsstring) : bool :=
  match p, s with
  | [], _ => true
  | x :: p', y :: s' => (x =? y) && startsWith p' s'
  | _ :: _, [] => false
  end.

(** [WhiteSpace] and [LineTerminator] of ECMAScript: the class [\s] of a
    regular expression and the characters removed by [trim]. *)
Definition isWhiteSpace (c : jschar) : bool :=
  (c =? 9) || (c =? 10) || (c =? 11) || (c =? 12) || (c =? 13) || (c =? 32)
  || (c =? 160) || (c =? 5760) || ((8192 <=? c) && (c <=? 8202))
  || (c =? 8232) || (c =? 8233) || (c =? 8239) || (c =? 8287)
  || (c =? 12288) || (c =? 65279).

(** [LineTerminator]: what [.] does not match. *)
Definition isLineTerminator (c : jschar) : bool :=
  (c =? 10) || (c =? 13) || (c =? 8232) || (c =? 8233).

Fixpoint dropWhile (p : jschar -> bool) (s : jsstring) : jsstring :=
  match s with
  | a :: t => if p a then dropWhile p t else s
  | [] => []
  end.

Fixpoint takeWhile (p : jschar -> bool) (s : jsstring) : jsstring :=
  match s with
  | a :: t => if p a then a :: takeWhile p t else []
  | [] => []
  end.

(** [s.trim()] *)
Definition trim (s : jsstring) : jsstring :=
  rev (dropWhile isWhiteSpace (rev (dropWhile isWhiteSpace s))).

(* ===================================================================== *)
(** ** Regular expressions

    The patterns of [build.js] are sequences of single-character terms, each
    with a quantifier, and capture groups around some of them. [match_here]
    is the backtracking matcher of ECMAScript on such patterns: a greedy
    quantifier tries the longest repetition first, a lazy one the shortest,
    and the first alternative that lets the rest of the pattern match wins. *)
(* ===================================================================== *)

Inductive quant := One | Star | Plus | LazyStar.

Inductive term :=
| T (q : quant) (cls : jschar -> bool)
| Open
| Close.

Definition regex := list term.

Definition chr (c : jschar) : term := T One (N.eqb c).
Definition lits (s : jsstring) : regex := map chr s.
Definition oneOf (s : jsstring) (c : jschar) : bool := existsb (N.eqb c) s.
Definition noneOf (s : jsstring) (c : jschar) : bool := negb (oneOf s c).
Definition anyChar (_ : jschar) : bool := true.

(** The state of a match attempt: the characters of the group being read
    (in reverse), the groups closed so far, and the characters consumed (in
    reverse). *)
Record mstate := MState {
  m_open : option jsstring;
  m_caps : list jsstring;
  m_seen : jsstring
}.

Definition m_init : mstate := MState None [] [].

Definition m_step (a : jschar) (m : mstate) : mstate :=
  MState (option_map (cons a) (m_open m)) (m_caps m) (a :: m_seen m).

Definition m_begin (m : mstate) : mstate :=
  MState (Some []) (m_caps m) (m_seen m).

Definition m_end (m : mstate) : mstate :=
  MState None
         (m_caps m ++ [match m_open m with Some g => rev g | None => [] end])
         (m_seen m).

(** A successful match: the matched text, the captures, the rest of the
    input. *)
Record found := Found {
  f_text : jsstring;
  f_caps : list jsstring;
  f_rest : jsstring
}.

Fixpoint match_here (re : regex) : mstate -> jsstring -> option found :=
  match re with
  | [] => fun m s => Some (Found (rev (m_seen m)) (m_caps m) s)
  | Open :: re' => fun m s => match_here re' (m_begin m) s
  | Close :: re' => fun m s => match_here re' (m_end m) s
  | T One cls :: re' => fun m s =>
      match s with
      | a :: t => if cls a then match_here re' (m_step a m) t else None
      | [] => None
      end
  | T Star cls :: re' =>
      fix star (m : mstate) (s : jsstring) {struct s} : option found :=
        match s with
        | a :: t =>
            if cls a then
              match star (m_step a m) t with
              | Some r => Some r
              | None => match_here re' m s
              end
            else match_here re' m s
        | [] => match_here re' m s
        end
  | T Plus cls :: re' => fun m s =>
      match s with
      | a :: t =>
          if cls a then
            (fix star (m : mstate) (s : jsstring) {struct s} : option found :=
               match s with
               | a :: t =>
                   if cls a then
                     match star (m_step a m) t with
                     | Some r => Some r
                     | None => match_here re' m s
                     end
                   else match_here re' m s
               | [] => match_here re' m s
               end) (m_step a m) t
          else None
      | [] => None
      end
  | T LazyStar cls :: re' =>
      fix lazy (m : mstate) (s : jsstring) {struct s} : option found :=
        match match_here re' m s with
        | Some r => Some r
        | None =>
            match s with
            | a :: t => if cls a then lazy (m_step a m) t else None
            | [] => None
            end
        end
  end.

Definition exec_at (re : regex) (s : jsstring) : option found :=
  match_here re m_init s.

(** *** Replacement templates ([GetSubstitution])

    [$$], [$&], [$`], [$'], [$n] and [$nn] are expanded; there are no named
    groups, so [$<] stands for itself. *)

Definition dollar : jschar := 36.
Definition isDigit (c : jschar) : bool := (48 <=? c) && (c <=? 57).
Definition digitVal (c : jschar) : nat := N.to_nat (c - 48).

Definition capture (caps : list jsstring) (n : nat) : option jsstring :=
  match n with
  | O => None
  | S k => nth_error caps k
  end.

Fixpoint expand (tpl before matched after : jsstring) (caps : list jsstring)
  : jsstring :=
  match tpl with
  | [] => []
  | c :: rest =>
      if negb (c =? dollar) then c :: expand rest before matched after caps
      else
        match rest with
        | [] => [c]
        | d :: rest1 =>
            if d =? dollar then dollar :: expand rest1 before matched after caps
            else if d =? 38 then matched ++ expand rest1 before matched after caps
            else if d =? 96 then before ++ expand rest1 before matched after caps
            else if d =? 39 then after ++ expand rest1 before matched after caps
            else if isDigit d then
              let one :=
                match capture caps (digitVal d) with
                | Some g => g ++ expand rest1 before matched after caps
                | None => c :: d :: expand rest1 before matched after caps
                end in
              match rest1 with
              | e :: rest2 =>
                  if isDigit e then
                    match capture caps (10 * digitVal d + digitVal e) with
                    | Some g => g ++ expand rest2 before matched after caps
                    | None => one
                    end
                  else one
              | [] => one
              end
            else c :: expand rest before matched after caps
        end
  end.

(** *** [String.prototype.replace] with a global regular expression

    The search runs from left to right; at each position the pattern is
    tried, the first position where it matches gives the match, and the
    search resumes after it (one character further when the match is
    empty). [before] is the text to the left of the current position, in
    reverse. *)
Fixpoint replace_from (fuel : nat) (re : regex) (tpl : jsstring)
         (before s : jsstring) : jsstring :=
  match fuel with
  | O => s
  | S fuel' =>
      match exec_at re s with
      | Some (Found matched caps rest) =>
          let out := expand tpl (rev before) matched rest caps in
          match matched with
          | [] =>
              match s with
              | a :: t => out ++ a :: replace_from fuel' re tpl (a :: before) t
              | [] => out
              end
          | _ :: _ =>
              out ++ replace_from fuel' re tpl (rev matched ++ before) rest
          end
      | None =>
          match s with
          | a :: t => a :: replace_from fuel' re tpl (a :: before) t
          | [] => []
          end
      end
  end.

Definition replaceAll (re : regex) (tpl s : jsstring) : jsstring :=
  replace_from (S (List.length s)) re tpl [] s.

(* ===================================================================== *)
(** ** The CSS branch of [processFile] (lines 169-179) *)
(* ===================================================================== *)

(** [/\/\*[\s\S]*?\*\//g] *)
Definition re_comment : regex :=
  [chr 47; chr 42; T LazyStar anyChar; chr 42; chr 47].

(** [/\s+/g] *)
Definition re_spaces : regex := [T Plus isWhiteSpace].

(** [/\s*([{}:;,])\s*/g] *)
Definition re_punct : regex :=
  [T Star isWhiteSpace; Open; T One (oneOf (str "{}:;,")); Close;
   T Star isWhiteSpace].

(** [re.test(s)]: the pattern matches somewhere in the text. *)
Fixpoint test (re : regex) (s : jsstring) : bool :=
  match exec_at re s with
  | Some _ => true
  | None =>
      match s with
      | [] => false
      | _ :: t => test re t
      end
  end.

(** The text holds a block comment: [/*], and [*/] after it. *)
Definition hasComment (s : jsstring) : bool := test re_comment s.

Definition minifyCSS (css : jsstring) : jsstring :=
  trim
    (replaceAll re_punct (str "$1")
       (replaceAll re_spaces (str " ")
          (replaceAll re_comment (str "") css))).


(* ===================================================================== *)
(** ** Library functions of JavaScript and Node *)
(* ===================================================================== *)

(** [s.toLowerCase()], on the letters whose lower case is an ASCII letter:
    A-Z and the Kelvin sign. The script only compares the result with ASCII
    literals, which no other mapping of the Unicode tables can produce. *)
Definition lowerChar (c : jschar) : jschar :=
  if (65 <=? c) && (c <=? 90) then c + 32
  else if c =? 8490 then 107
  else c.

Definition toLowerCase (s : jsstring) : jsstring := map lowerChar s.

Fixpoint uint_chars (u : Decimal.uint) : jsstring :=
  match u with
  | Decimal.Nil => []
  | Decimal.D0 r => 48 :: uint_chars r
  | Decimal.D1 r => 49 :: uint_chars r
  | Decimal.D2 r => 50 :: uint_chars r
  | Decimal.D3 r => 51 :: uint_chars r
  | Decimal.D4 r => 52 :: uint_chars r
  | Decimal.D5 r => 53 :: uint_chars r
  | Decimal.D6 r => 54 :: uint_chars r
  | Decimal.D7 r => 55 :: uint_chars r
  | Decimal.D8 r => 56 :: uint_chars r
  | Decimal.D9 r => 57 :: uint_chars r
  end.

(** [String(n)] for a non-negative integer. *)
Definition numberToString (n : N) : jsstring := uint_chars (N.to_uint n).

Definition hexDigit (d : N) : jschar := if d <? 10 then 48 + d else 87 + d.

Definition hex4 (c : N) : jsstring :=
  [hexDigit ((c / 4096) mod 16); hexDigit ((c / 256) mod 16);
   hexDigit ((c / 16) mod 16); hexDigit (c mod 16)].

Definition isHighSurrogate (c : jschar) : bool := (55296 <=? c) && (c <=? 56319).
Definition isLowSurrogate (c : jschar) : bool := (56320 <=? c) && (c <=? 57343).

(** The body of [QuoteJSONString]. *)
Fixpoint quoteJSONChars (s : jsstring) : jsstring :=
  match s with
  | [] => []
  | c :: t =>
      if c =? 8 then str "\b" ++ quoteJSONChars t
      else if c =? 9 then str "\t" ++ quoteJSONChars t
      else if c =? 10 then str "\n" ++ quoteJSONChars t
      else if c =? 12 then str "\f" ++ quoteJSONChars t
      else if c =? 13 then str "\r" ++ quoteJSONChars t
      else if c =? 34 then [92; 34] ++ quoteJSONChars t
      else if c =? 92 then [92; 92] ++ quoteJSONChars t
      else if c <? 32 then str "\u" ++ hex4 c ++ quoteJSONChars t
      else if isHighSurrogate c then
        match t with
        | d :: t' =>
            if isLowSurrogate d then c :: d :: quoteJSONChars t'
            else str "\u" ++ hex4 c ++ quoteJSONChars t
        | [] => str "\u" ++ hex4 c
        end
      else if isLowSurrogate c then str "\u" ++ hex4 c ++ quoteJSONChars t
      else c :: quoteJSONChars t
  end.

Definition quoteJSONString (s : jsstring) : jsstring :=
  [34] ++ quoteJSONChars s ++ [34].

Fixpoint joinWith (sep : jsstring) (l : list jsstring) : jsstring :=
  match l with
  | [] => []
  | [x] => x
  | x :: rest => x ++ sep ++ joinWith sep rest
  end.

(** [JSON.stringify] of an array of strings. *)
Definition JSON_stringify (l : list jsstring) : jsstring :=
  str "[" ++ joinWith (str ",") (map quoteJSONString l) ++ str "]".

(** *** The [path] module (POSIX), on paths in normal form *)

Definition fpath := list jsstring.

Module path.

Definition sep : jsstring := str "/".

Definition join (a b : fpath) : fpath := a ++ b.

Definition dirname (p : fpath) : fpath := removelast p.

Definition basename (p : fpath) : jsstring := last p (str ".").

Fixpoint lastDotSuffix (s : jsstring) : option jsstring :=
  match s with
  | [] => None
  | a :: t =>
      match lastDotSuffix t with
      | Some r => Some r
      | None => if a =? 46 then Some s else None
      end
  end.

(** The extension of a file name: from its last dot to its end, and empty
    when the name has no dot, when its only dot comes first, or when the
    name is [".."]. *)
Definition extnameOfName (name : jsstring) : jsstring :=
  match name with
  | [] => []
  | _ :: t =>
      match lastDotSuffix t with
      | Some r => if jseq name (str "..") then [] else r
      | None => []
      end
  end.

Definition extname (p : fpath) : jsstring :=
  match p with
  | [] => []
  | _ :: _ => extnameOfName (basename p)
  end.

Fixpoint relative (from to : fpath) : fpath :=
  match from, to with
  | a :: from', b :: to' =>
      if jseq a b then relative from' to'
      else map (fun _ => str "..") from ++ to
  | _, _ => map (fun _ => str "..") from ++ to
  end.

(** The text of a path, as the script compares and prints it; the empty
    text for the path that [relative] finds equal to its base. *)
Definition text (p : fpath) : jsstring := joinWith sep p.

End path.

(* ===================================================================== *)
(** ** Configuration (lines 8-38) *)
(* ===================================================================== *)

Module config.

Record t := Build {
  inputDir : fpath;
  outputDir : fpath;
  exclude : list jsstring;
  obfuscateFilenames : bool;
  minify : bool;
  allowedDomains : option (list jsstring)
}.

(** The values written in the script. *)
Definition default : t := {|
  inputDir := [];
  outputDir := [str "dist"];
  exclude := [str "node_modules"; str "dist"; str ".git"; str ".gitignore";
              str "package.json"; str "package-lock.json"; str "build.js";
              str "README.md"; str ".DS_Store"; str "old-index.html"];
  obfuscateFilenames := false;
  minify := true;
  allowedDomains := None
|}.

End config.

(* ===================================================================== *)
(** ** The file system, the console and the state of a run *)
(* ===================================================================== *)

Inductive node :=
| File (data : jsstring)
| Dir (entries : list (jsstring * node)).

Definition isDirectory (n : node) : bool :=
  match n with Dir _ => true | File _ => false end.

Fixpoint assoc {A : Type} (k : jsstring) (l : list (jsstring * A)) : option A :=
  match l with
  | [] => None
  | (k', v) :: l' => if jseq k' k then Some v else assoc k l'
  end.

(** Replace the value of a key where it stands, or add the key at the end:
    the discipline of a directory listing and of a JavaScript [Map]. *)
Fixpoint assocSet {A : Type} (k : jsstring) (v : A) (l : list (jsstring * A))
  : list (jsstring * A) :=
  match l with
  | [] => [(k, v)]
  | (k', v') :: l' =>
      if jseq k' k then (k', v) :: l' else (k', v') :: assocSet k v l'
  end.

Inductive stream := Log | Warn | Error.

Inductive ioerror := ENOENT | ENOTDIR | EISDIR | EEXIST.

Record state := State {
  disk : node;
  fileMapping : list (jsstring * jsstring);
  console : list (stream * jsstring);
  clock : nat
}.

(** The outcome of a computation: a value, an exception, recursion deeper
    than the bound given, or a regular expression outside the patterns of
    [match_here]. *)
Inductive result (A : Type) :=
| Ok (a : A) (s : state)
| Throw (e : ioerror) (s : state)
| OutOfFuel
| Unmodelled.

Arguments Ok {A} a s.
Arguments Throw {A} e s.
Arguments OutOfFuel {A}.
Arguments Unmodelled {A}.

Definition M (A : Type) := state -> result A.

Definition ret {A : Type} (a : A) : M A := fun s => Ok a s.

Definition bind {A B : Type} (m : M A) (f : A -> M B) : M B :=
  fun s =>
    match m s with
    | Ok a s' => f a s'
    | Throw e s' => Throw e s'
    | OutOfFuel => OutOfFuel
    | Unmodelled => Unmodelled
    end.

Declare Scope js_scope.
Delimit Scope js_scope with js.
Notation "x <- m ;; k" := (bind m (fun x => k))
  (at level 61, m at next level, right associativity) : js_scope.
Notation "m ;; k" := (bind m (fun _ => k))
  (at level 61, right associativity) : js_scope.
Local Open Scope js_scope.

Definition throw {A : Type} (e : ioerror) : M A := fun s => Throw e s.

Definition when (b : bool) (m : M unit) : M unit := if b then m else ret tt.

Fixpoint forEach {A : Type} (l : list A) (body : A -> M unit) : M unit :=
  match l with
  | [] => ret tt
  | x :: l' => body x ;; forEach l' body
  end.

Definition console_log (msg : jsstring) : M unit :=
  fun s => Ok tt (State (disk s) (fileMapping s) (console s ++ [(Log, msg)])
                        (clock s)).

Definition console_warn (msg : jsstring) : M unit :=
  fun s => Ok tt (State (disk s) (fileMapping s) (console s ++ [(Warn, msg)])
                        (clock s)).

Definition fileMapping_set (k v : jsstring) : M unit :=
  fun s => Ok tt (State (disk s) (assocSet k v (fileMapping s)) (console s)
                        (clock s)).

Definition fileMapping_get : M (list (jsstring * jsstring)) :=
  fun s => Ok (fileMapping s) s.

(** *** The [fs] module, on a tree of directories and files *)

Module fs.

Fixpoint find (p : fpath) (n : node) : option node :=
  match p with
  | [] => Some n
  | c :: p' =>
      match n with
      | Dir es =>
          match assoc c es with
          | Some n' => find p' n'
          | None => None
          end
      | File _ => None
      end
  end.

(** [mkdir -p]: every missing directory of the path is created. *)
Fixpoint mkdirp (p : fpath) (n : node) : ioerror + node :=
  match p with
  | [] =>
      match n with
      | Dir _ => inr n
      | File _ => inl EEXIST
      end
  | c :: p' =>
      match n with
      | Dir es =>
          match mkdirp p' (match assoc c es with
                           | Some n' => n'
                           | None => Dir []
                           end) with
          | inr n'' => inr (Dir (assocSet c n'' es))
          | inl e => inl e
          end
      | File _ => inl ENOTDIR
      end
  end.

(** Create or overwrite the file at a path whose parent directory exists. *)
Fixpoint store (p : fpath) (data : jsstring) (n : node) : ioerror + node :=
  match p with
  | [] => inl EISDIR
  | [c] =>
      match n with
      | Dir es =>
          match assoc c es with
          | Some (Dir _) => inl EISDIR
          | _ => inr (Dir (assocSet c (File data) es))
          end
      | File _ => inl ENOTDIR
      end
  | c :: p' =>
      match n with
      | Dir es =>
          match assoc c es with
          | Some n' =>
              match store p' data n' with
              | inr n'' => inr (Dir (assocSet c n'' es))
              | inl e => inl e
              end
          | None => inl ENOENT
          end
      | File _ => inl ENOTDIR
      end
  end.

(** Remove what stands at a path, with all that is below it. *)
Fixpoint remove (p : fpath) (n : node) : node :=
  match p, n with
  | [c], Dir es => Dir (filter (fun e => negb (jseq (fst e) c)) es)
  | c :: p', Dir es =>
      match assoc c es with
      | Some n' => Dir (assocSet c (remove p' n') es)
      | None => n
      end
  | _, _ => n
  end.

Definition setDisk (d : node) (s : state) : state :=
  State d (fileMapping s) (console s) (clock s).

Definition existsSync (p : fpath) : M bool :=
  fun s => Ok (match find p (disk s) with Some _ => true | None => false end) s.

Definition mkdirSync (p : fpath) : M unit :=
  fun s =>
    match mkdirp p (disk s) with
    | inr d => Ok tt (setDisk d s)
    | inl e => Throw e s
    end.

(** The error of a system call on a path that leads to nothing: [ENOTDIR]
    when the path runs through a file, [ENOENT] when a name on it is
    missing from its directory. *)
Fixpoint missing (p : fpath) (n : node) : ioerror :=
  match p with
  | [] => ENOENT
  | c :: p' =>
      match n with
      | Dir es =>
          match assoc c es with
          | Some n' => missing p' n'
          | None => ENOENT
          end
      | File _ => ENOTDIR
      end
  end.

Definition readFileSync (p : fpath) : M jsstring :=
  fun s =>
    match find p (disk s) with
    | Some (File data) => Ok data s
    | Some (Dir _) => Throw EISDIR s
    | None => Throw (missing p (disk s)) s
    end.

Definition writeFileSync (p : fpath) (data : jsstring) : M unit :=
  fun s =>
    match store p data (disk s) with
    | inr d => Ok tt (setDisk d s)
    | inl e => Throw e s
    end.

(** [rmSync(p, { recursive: true })] of a path that exists. *)
Definition rmSync (p : fpath) : M unit :=
  fun s => Ok tt (setDisk (remove p (disk s)) s).

Definition copyFileSync (src dest : fpath) : M unit :=
  data <- readFileSync src ;; writeFileSync dest data.

Definition readdirSync (p : fpath) : M (list jsstring) :=
  fun s =>
    match find p (disk s) with
    | Some (Dir es) => Ok (map fst es) s
    | Some (File _) => Throw ENOTDIR s
    | None => Throw (missing p (disk s)) s
    end.

(** [statSync(p)], of which the script reads [isDirectory()]. *)
Definition statSync (p : fpath) : M node :=
  fun s =>
    match find p (disk s) with
    | Some n => Ok n s
    | None => Throw (missing p (disk s)) s
    end.

End fs.

(* ===================================================================== *)
(** ** The script *)
(* ===================================================================== *)

Definition quotes : jsstring := [34; 39].

(** The characters with a meaning of their own in a pattern. A file name
    that contains one of them, the dot apart, makes a pattern that
    [match_here] does not cover. *)
Definition syntaxChars : jsstring := str "^$\*+?()[]{}|".

(** A file name read as a pattern, as the template of line 147 inserts it:
    a dot stands for any character but a line terminator, every other
    character for itself. *)
Fixpoint patternOfName (name : jsstring) : option regex :=
  match name with
  | [] => Some []
  | c :: t =>
      if oneOf syntaxChars c then None
      else
        match patternOfName t with
        | Some re =>
            Some ((if c =? 46 then T One (fun x => negb (isLineTerminator x))
                   else chr c) :: re)
        | None => None
        end
  end.

(** The pattern of line 147: [src=], a quote of either kind, a group made of
    any run of characters that are not quotes followed by the file name, and
    a quote of either kind. *)
Definition scriptRegex (originalName : jsstring) : option regex :=
  match patternOfName originalName with
  | Some nameRe =>
      Some (lits (str "src=") ++ [T One (oneOf quotes); Open;
                                  T Star (noneOf quotes)]
            ++ nameRe ++ [Close; T One (oneOf quotes)])
  | None => None
  end.

(** The loop of lines 146-149 over the entries of [fileMapping], in the
    order of their insertion. *)
Fixpoint updateScriptSrc (mapping : list (jsstring * jsstring))
         (html : jsstring) : option jsstring :=
  match mapping with
  | [] => Some html
  | (originalName, obfuscatedName) :: rest =>
      match scriptRegex originalName with
      | Some re =>
          updateScriptSrc rest
            (replaceAll re (str "src=" ++ [34] ++ obfuscatedName ++ [34]) html)
      | None => None
      end
  end.

Definition liftOption {A : Type} (o : option A) : M A :=
  fun s => match o with Some a => Ok a s | None => Unmodelled end.

Section Build.

Variable cfg : config.t.

(** [minify] of terser and of html-minifier-terser, with the options of
    lines 105-117 and 154-159: the minified text, or [None] when the call
    fails. *)
Variable minify : jsstring -> option jsstring.
Variable minifyHTML : jsstring -> option jsstring.

(** [crypto.createHash('md5').update(x).digest('hex')] *)
Variable md5 : jsstring -> jsstring.

(** The value of the n-th reading of the clock. *)
Variable now : nat -> N.

(** The working directory, for [path.resolve]. *)
Variable cwd : fpath.

Definition Date_now : M N :=
  fun s => Ok (now (clock s))
              (State (disk s) (fileMapping s) (console s) (S (clock s))).

Definition generateObfuscatedName (originalName : jsstring) : M jsstring :=
  t <- Date_now ;;
  let hash := firstn 8 (md5 (originalName ++ numberToString t)) in
  let ext := path.extname [originalName] in
  ret (hash ++ ext).

Definition shouldExclude (filePath : fpath) : bool :=
  let relativePath := path.text (path.relative (config.inputDir cfg) filePath) in
  existsb (fun excluded =>
             jseq relativePath excluded
             || startsWith (excluded ++ path.sep) relativePath
             || jseq (path.basename filePath) excluded)
          (config.exclude cfg).

(** Lines 61-64. *)
Definition createOutputDirectory : M unit :=
  ex <- fs.existsSync (config.outputDir cfg) ;;
  when ex (fs.rmSync (config.outputDir cfg)) ;;
  fs.mkdirSync (config.outputDir cfg).

Definition guardText (domainsArray : jsstring) : jsstring :=
  str "(function(){" ++ [10]
  ++ str "    var a=" ++ domainsArray ++ str ";" ++ [10]
  ++ str "    var h=location.hostname;" ++ [10]
  ++ str "    if(location.protocol!=='file:'&&h!==''&&h!=='localhost'&&!h.endsWith('.pages.dev')&&!a.some(function(d){return h===d||h.endsWith('.'+d);})){" ++ [10]
  ++ str "      document.body.innerHTML='<div style=" ++ [34]
  ++ str "text-align:center;margin-top:200px;font-size:20px;" ++ [34]
  ++ str ">Unauthorized Access</div>';" ++ [10]
  ++ str "      throw new Error('Domain verification failed');" ++ [10]
  ++ str "    }" ++ [10]
  ++ str "  })();".

Definition getAntiTamperCode : jsstring :=
  match config.allowedDomains cfg with
  | None => []
  | Some [] => []
  | Some domains => guardText (JSON_stringify domains)
  end.

Definition truthy (s : jsstring) : bool :=
  match s with [] => false | _ :: _ => true end.

Definition processFile (filePath relativePath : fpath) : M unit :=
  let outputPath := path.join (config.outputDir cfg) relativePath in
  let outputDir := path.dirname outputPath in
  ex <- fs.existsSync outputDir ;;
  when (negb ex) (fs.mkdirSync outputDir) ;;
  let ext := toLowerCase (path.extname filePath) in
  let fileName := path.basename filePath in
  if jseq ext (str ".js") then
    code <- fs.readFileSync filePath ;;
    outputCode <-
      (if config.minify cfg then
         match minify code with
         | Some result => ret result
         | None =>
             console_warn ([9888] ++ str " Could not minify " ++ fileName
                           ++ str ", copying as-is") ;;
             ret code
         end
       else ret code) ;;
    let antiTamper := getAntiTamperCode in
    let outputCode :=
      if truthy antiTamper then antiTamper ++ outputCode else outputCode in
    outputFileName <-
      (if config.obfuscateFilenames cfg then
         name <- generateObfuscatedName fileName ;;
         fileMapping_set fileName name ;;
         ret name
       else ret fileName) ;;
    let finalOutputPath := path.join outputDir [outputFileName] in
    fs.writeFileSync finalOutputPath outputCode ;;
    console_log ([10003] ++ str " Processed " ++ path.text relativePath
                 ++ (if config.obfuscateFilenames cfg
                     then str " " ++ [8594] ++ str " " ++ outputFileName
                     else []))
  else if jseq ext (str ".html") || jseq ext (str ".htm") then
    html <- fs.readFileSync filePath ;;
    html <-
      (if config.obfuscateFilenames cfg then
         mapping <- fileMapping_get ;;
         liftOption (updateScriptSrc mapping html)
       else ret html) ;;
    html <-
      (if config.minify cfg then
         match minifyHTML html with
         | Some result => ret result
         | None =>
             console_warn ([9888] ++ str " Could not minify " ++ fileName
                           ++ str ", copying as-is") ;;
             ret html
         end
       else ret html) ;;
    fs.writeFileSync outputPath html ;;
    console_log ([10003] ++ str " Processed " ++ path.text relativePath)
  else if jseq ext (str ".css") && config.minify cfg then
    css <- fs.readFileSync filePath ;;
    let css := minifyCSS css in
    fs.writeFileSync outputPath css ;;
    console_log ([10003] ++ str " Processed " ++ path.text relativePath)
  else
    fs.copyFileSync filePath outputPath ;;
    console_log ([10003] ++ str " Copied " ++ path.text relativePath).

(** What the JavaScript branch writes, under which name, and what it warns
    of: the values that lines 100-134 compute. *)
Definition jsBody (code : jsstring) : jsstring :=
  if config.minify cfg then
    match minify code with Some result => result | None => code end
  else code.

Definition jsWarning (fileName code : jsstring) : list (stream * jsstring) :=
  if config.minify cfg then
    match minify code with
    | Some _ => []
    | None => [(Warn, [9888] ++ str " Could not minify " ++ fileName
                      ++ str ", copying as-is")]
    end
  else [].

Definition jsOutputName (fileName : jsstring) (s : state) : jsstring :=
  if config.obfuscateFilenames cfg then
    firstn 8 (md5 (fileName ++ numberToString (now (clock s))))
    ++ path.extname [fileName]
  else fileName.

(** The same for the HTML branch: the text after lines 145-150, and after
    lines 152-163. *)
Definition htmlSource (text : jsstring) (s : state) : option jsstring :=
  if config.obfuscateFilenames cfg then updateScriptSrc (fileMapping s) text
  else Some text.

Definition htmlBody (html : jsstring) : jsstring :=
  if config.minify cfg then
    match minifyHTML html with Some result => result | None => html end
  else html.

Definition htmlWarning (fileName html : jsstring) : list (stream * jsstring) :=
  if config.minify cfg then
    match minifyHTML html with
    | Some _ => []
    | None => [(Warn, [9888] ++ str " Could not minify " ++ fileName
                      ++ str ", copying as-is")]
    end
  else [].


Definition outputText (filePath : fpath) (data : jsstring) (s : state)
  : option jsstring :=
  let ext := toLowerCase (path.extname filePath) in
  if jseq ext (str ".js") then Some (getAntiTamperCode ++ jsBody data)
  else if jseq ext (str ".html") || jseq ext (str ".htm") then
    option_map htmlBody (htmlSource data s)
  else if jseq ext (str ".css") && config.minify cfg then Some (minifyCSS data)
  else Some data.

Fixpoint processDirectory (fuel : nat) (dir baseDir : fpath) : M unit :=
  match fuel with
  | O => fun _ => OutOfFuel
  | S fuel' =>
      items <- fs.readdirSync dir ;;
      forEach items (fun item =>
        let fullPath := path.join dir [item] in
        if shouldExclude fullPath then ret tt
        else
          stat <- fs.statSync fullPath ;;
          let relativePath := path.relative baseDir fullPath in
          if isDirectory stat then processDirectory fuel' fullPath baseDir
          else processFile fullPath relativePath)
  end.

Fixpoint copyDir (fuel : nat) (src dest : fpath) : M unit :=
  match fuel with
  | O => fun _ => OutOfFuel
  | S fuel' =>
      ex <- fs.existsSync dest ;;
      when (negb ex) (fs.mkdirSync dest) ;;
      items <- fs.readdirSync src ;;
      forEach items (fun item =>
        let srcPath := path.join src [item] in
        let destPath := path.join dest [item] in
        stat <- fs.statSync srcPath ;;
        if isDirectory stat then copyDir fuel' srcPath destPath
        else if jseq (toLowerCase (path.extname [item])) (str ".json") then
          fs.copyFileSync srcPath destPath ;;
          console_log ([10003] ++ str " Copied "
                       ++ path.text (path.relative [] srcPath))
        else ret tt)
  end.

Definition dataLlmSrc : fpath := [str "data"; str "llm"].

Definition dataLlmDest : fpath :=
  path.join (config.outputDir cfg) [str "data"; str "llm"].

Definition copyDataDirectory (fuel : nat) : M unit :=
  ex <- fs.existsSync dataLlmSrc ;;
  if negb ex then
    console_log ([9888] ++ str " No data/llm directory found, skipping...")
  else
    console_log ([10; 55357; 56513] ++ str " Copying data/llm directory...") ;;
    copyDir fuel dataLlmSrc dataLlmDest.

Definition resolve (p : fpath) : jsstring :=
  str "/" ++ path.text (cwd ++ p).

Definition boolText (b : bool) : jsstring :=
  if b then str "true" else str "false".

Definition build (fuel : nat) : M unit :=
  console_log ([55357; 56616] ++ str " Building project..." ++ [10]) ;;
  console_log (str "   Source: " ++ resolve (config.inputDir cfg)) ;;
  console_log (str "   Output: " ++ resolve (config.outputDir cfg)) ;;
  console_log (str "   Minify: " ++ boolText (config.minify cfg)) ;;
  console_log (str "   Obfuscate: " ++ boolText (config.obfuscateFilenames cfg)) ;;
  console_log (str "   Domain protection: "
               ++ (match config.allowedDomains cfg with
                   | Some _ => str "enabled"
                   | None => str "disabled"
                   end) ++ [10]) ;;
  processDirectory fuel (config.inputDir cfg) (config.inputDir cfg) ;;
  copyDataDirectory fuel ;;
  console_log ([10; 9989] ++ str " Build complete!") ;;
  console_log (str "   Output directory: " ++ resolve (config.outputDir cfg)).

(** The script from its first line: the output directory is made anew, then
    [build] runs. *)
Definition main (fuel : nat) : M unit :=
  createOutputDirectory ;; build fuel.

End Build.

(* ===================================================================== *)
(** ** Vocabulary of the statements *)
(* ===================================================================== *)

(** The characters around which line 175 removes white space. *)
Definition punct : jschar -> bool := oneOf (str "{}:;,").

(** A white space character of a minified style sheet is a plain space. *)
Definition plainSpace (a : jschar) : bool := negb (isWhiteSpace a) || (a =? 32).

Definition notBothSpaces (a b : jschar) : bool :=
  negb (isWhiteSpace a && isWhiteSpace b).

(** Two neighbours of a minified style sheet: not two white spaces, and no
    white space next to a punctuation character. *)
Definition tight (a b : jschar) : bool :=
  negb (isWhiteSpace a && isWhiteSpace b)
  && negb (isWhiteSpace a && punct b)
  && negb (punct a && isWhiteSpace b).

(** Every character is related to the next one, the first one to [prev]. *)
Fixpoint chainFrom (R : jschar -> jschar -> bool) (prev : option jschar)
         (s : jsstring) : bool :=
  match s with
  | [] => true
  | a :: t =>
      match prev with Some p => R p a | None => true end
      && chainFrom R (Some a) t
  end.

Definition startsClear (s : jsstring) : bool :=
  match s with a :: _ => negb (isWhiteSpace a) | [] => true end.

(** The shape of a text that lines 174-176 leave as it is. *)
Definition clean (s : jsstring) : bool :=
  forallb plainSpace s && chainFrom tight None s
  && startsClear s && startsClear (rev s).

(** The test of line 236 on a file name. *)
Definition isJson (name : jsstring) : bool :=
  jseq (toLowerCase (path.extname [name])) (str ".json").

(** An extension that is [.json] whatever the case of its letters, spelled
    character by character: a dot, then j or J, s or S, o or O, n or N. *)
Definition isDotJson (ext : jsstring) : bool :=
  match ext with
  | [d; j; s; o; n] =>
      (d =? 46) && ((j =? 106) || (j =? 74)) && ((s =? 115) || (s =? 83))
      && ((o =? 111) || (o =? 79)) && ((n =? 110) || (n =? 78))
  | _ => false
  end.

Definition prefixOf (p q : fpath) : Prop := exists r, q = p ++ r.

Definition isDirAt (p : fpath) (n : node) : Prop :=
  exists es, fs.find p n = Some (Dir es).

(** Two paths that part at some component: neither leads to the other. *)
Fixpoint diverge (p q : fpath) : bool :=
  match p, q with
  | a :: p', b :: q' => if jseq a b then diverge p' q' else true
  | _, _ => false
  end.

Fixpoint depth (n : node) : nat :=
  match n with
  | File _ => O
  | Dir es =>
      S ((fix below (l : list (jsstring * node)) : nat :=
            match l with
            | [] => O
            | (_, x) :: r => Nat.max (depth x) (below r)
            end) es)
  end.

Fixpoint distinct (l : list jsstring) : bool :=
  match l with
  | [] => true
  | a :: r => negb (existsb (jseq a) r) && distinct r
  end.

(** No directory of the tree lists a name twice. *)
Fixpoint wellFormed (n : node) : bool :=
  match n with
  | File _ => true
  | Dir es =>
      distinct (map fst es)
      && forallb (fun e : jsstring * node => let (_, x) := e in wellFormed x) es
  end.

(** Nothing at the destination stands in the way of a copy of the tree: no
    file where a directory goes, no directory where a JSON file goes. *)
Fixpoint roomFor (x : node) (D : option node) : bool :=
  match x with
  | File _ => true
  | Dir es =>
      match D with
      | None => true
      | Some (File _) => false
      | Some (Dir ds) =>
          forallb (fun e : jsstring * node =>
                     let (name, y) := e in
                     match y with
                     | Dir _ => roomFor y (assoc name ds)
                     | File _ =>
                         negb (isJson name)
                         || match assoc name ds with
                            | Some (Dir _) => false
                            | _ => true
                            end
                     end) es
      end
  end.

(** What a run of the stager on the tree [x], of name [name], towards
    [target] has done between two states of the disk: nothing away from
    [target]; no directory lost; a directory for each directory of [x]; a
    copy of each JSON file of [x]; and no other new file. *)
Definition staged (x : node) (name : jsstring) (target : fpath)
           (d d' : node) : Prop :=
  (forall p, ~ prefixOf p target -> ~ prefixOf target p ->
             fs.find p d' = fs.find p d)
  /\ (forall p, isDirAt p d -> isDirAt p d')
  /\ (forall q es, fs.find q x = Some (Dir es) -> isDirAt (target ++ q) d')
  /\ (forall q data, fs.find q x = Some (File data) ->
                     isJson (last q name) = true ->
                     fs.find (target ++ q) d' = Some (File data))
  /\ (forall q data, fs.find (target ++ q) d' = Some (File data) ->
                     fs.find (target ++ q) d = Some (File data)
                     \/ (isJson (last q name) = true
                         /\ fs.find q x = Some (File data))).

(** The part of the state that the file system and the console leave alone. *)
Definition meta (s : state) : list (jsstring * jsstring) * nat :=
  (fileMapping s, clock s).

(** The body of the loop of lines 227-241. *)
Definition copyItem (f : nat) (src dest : fpath) (item : jsstring) : M unit :=
  let srcPath := path.join src [item] in
  let destPath := path.join dest [item] in
  stat <- fs.statSync srcPath ;;
  if isDirectory stat then copyDir f srcPath destPath
  else if jseq (toLowerCase (path.extname [item])) (str ".json") then
    fs.copyFileSync srcPath destPath ;;
    console_log ([10003] ++ str " Copied "
                 ++ path.text (path.relative [] srcPath))
  else ret tt.

(** The statement proved of [copyDir] by induction on the bound [f]. *)
Definition copyDirOk (f : nat) : Prop :=
  forall (T : list (jsstring * node)) (name : jsstring) (src dest : fpath)
         (s : state),
    (depth (Dir T) <= f)%nat ->
    fs.find src (disk s) = Some (Dir T) ->
    wellFormed (Dir T) = true ->
    diverge src dest = true ->
    (exists d1, fs.mkdirp dest (disk s) = inr d1) ->
    roomFor (Dir T) (fs.find dest (disk s)) = true ->
    exists s', copyDir f src dest s = Ok tt s'
               /\ staged (Dir T) name dest (disk s) (disk s').

(** Room at the destination for one entry of a directory. *)
Definition roomForItem (name : jsstring) (x : node) (D : option node) : Prop :=
  match x with
  | Dir _ => roomFor x D = true
  | File _ => isJson name = true -> forall es, D <> Some (Dir es)
  end.

(** What is asked of the text that follows the last character written:
    after a white space neither a white space nor a punctuation character,
    after a punctuation character no white space. *)
Definition follows (prev : option jschar) (s : jsstring) : Prop :=
  forall p, prev = Some p ->
    (isWhiteSpace p = true ->
     match s with
     | [] => True
     | b :: _ => isWhiteSpace b = false /\ punct b = false
     end)
    /\ (punct p = true -> startsClear s = true).

(* ===================================================================== *)
(** ** Sample inputs *)
(* ===================================================================== *)

Module Sample.

(** A stand-in for md5: 32 hexadecimal digits computed from the text. *)
Definition md5 (s : jsstring) : jsstring :=
  let n := fold_left (fun acc c => (acc * 31 + c) mod 4294967296) s 7 in
  hex4 (n / 65536) ++ hex4 (n mod 65536) ++ str "e5f60718293a4b5c6d7e8f90".

Definition now (n : nat) : N := 1700000000000 + N.of_nat n.

(** A minifier that fails on every text, and one that trims its text. *)
Definition failing (_ : jsstring) : option jsstring := None.
Definition trimming (s : jsstring) : option jsstring := Some (trim s).

Definition cfg (obfuscate minify : bool) (domains : option (list jsstring))
  : config.t :=
  config.Build [] [str "dist"] (config.exclude config.default)
               obfuscate minify domains.

Definition page (src : jsstring) : jsstring :=
  str "<script src=" ++ src ++ str "></script>".

(** A site with a script in a subdirectory and a page that loads it. *)
Definition nested : node :=
  Dir [(str "assets", Dir [(str "app.js", File (str "console.log(1)"))]);
       (str "index.html", File (page ([34] ++ str "assets/app.js" ++ [34])))].

(** The site of section 8 of the specification: a script and a page next
    to each other. *)
Definition flat : node :=
  Dir [(str "a.js", File (str "console.log(1)"));
       (str "index.html", File (page (str "'a.js'")));
       (str "style.css", File (str "a { color : red }"))].

(** Two scripts of the same name in two directories, and a page. *)
Definition twins : node :=
  Dir [(str "alpha", Dir [(str "app.js", File (str "first()"))]);
       (str "beta", Dir [(str "app.js", File (str "second()"))]);
       (str "index.html", File (page (str "'app.js'")))].

(** A data directory with a JSON file, a PDF file and a subdirectory
    without any JSON file. *)
Definition data : node :=
  Dir [(str "data",
        Dir [(str "llm",
              Dir [(str "x.json", File (str "{}"));
                   (str "x.pdf", File (str "%PDF"));
                   (str "raw", Dir [(str "notes.txt", File (str "n"))])])]);
       (str "dist", Dir [])].


(** A data directory with a JSON file whose extension is in upper case. *)
Definition cased : node :=
  Dir [(str "data",
        Dir [(str "llm",
              Dir [(str "Facts.JSON", File (str "[1]"));
                   (str "raw", Dir [(str "notes.txt", File (str "n"))]);
                   (str "x.json", File (str "{}"));
                   (str "x.pdf", File (str "%PDF"))])])].

Definition start (d : node) : state := State d [] [] 0.

End Sample.

(* ===================================================================== *)
(** ** Vocabulary of the statements about whole runs *)
(* ===================================================================== *)




(** Every run of [m] that ends, with a value or with an exception, ends in
    a state related to the one it started from. *)
Definition respects {A : Type} (R : state -> state -> Prop) (m : M A) : Prop :=
  forall s,
    match m s with
    | Ok _ s' => R s s'
    | Throw _ s' => R s s'
    | OutOfFuel => True
    | Unmodelled => True
    end.

(** The paths that part from [out] lead to the same things in both states. *)
Definition sameOutside (out : fpath) (s s' : state) : Prop :=
  forall q, diverge q out = true -> fs.find q (disk s') = fs.find q (disk s).

Definition sameMeta (s s' : state) : Prop := meta s' = meta s.

(** A line about one file or about the data directory: it starts with a
    check mark or a warning sign, or with a line feed and the first half of
    the folder sign. The lines of [build] itself start otherwise. *)
Definition progressText (msg : jsstring) : bool :=
  match msg with
  | c :: rest =>
      (c =? 10003) || (c =? 9888)
      || ((c =? 10) && match rest with d :: _ => d =? 55357 | [] => false end)
  | [] => false
  end.

(** The lines that [build] prints before the walk (lines 249-254) and
    after the stager (lines 261-262). *)
Definition buildHeader (cfg : config.t) (cwd : fpath)
  : list (stream * jsstring) :=
  [(Log, [55357; 56616] ++ str " Building project..." ++ [10]);
   (Log, str "   Source: " ++ resolve cwd (config.inputDir cfg));
   (Log, str "   Output: " ++ resolve cwd (config.outputDir cfg));
   (Log, str "   Minify: " ++ boolText (config.minify cfg));
   (Log, str "   Obfuscate: " ++ boolText (config.obfuscateFilenames cfg));
   (Log, str "   Domain protection: "
         ++ (match config.allowedDomains cfg with
             | Some _ => str "enabled"
             | None => str "disabled"
             end) ++ [10])].

Definition buildFooter (cfg : config.t) (cwd : fpath)
  : list (stream * jsstring) :=
  [(Log, [10; 9989] ++ str " Build complete!");
   (Log, str "   Output directory: " ++ resolve cwd (config.outputDir cfg))].

Definition progressLines (l : list (stream * jsstring)) : bool :=
  forallb (fun e : stream * jsstring => progressText (snd e)) l.

(** The console has grown by lines of progress only. *)
Definition progress (s s' : state) : Prop :=
  exists l, console s' = console s ++ l /\ progressLines l = true.

(** The state in which a run that ended has left the machine, whether it
    returned or threw. *)
Definition endsIn {A : Type} (r : result A) (s' : state) : Prop :=
  match r with
  | Ok _ x => x = s'
  | Throw _ x => x = s'
  | OutOfFuel => False
  | Unmodelled => False
  end.

(** An entry that lines 132-133 can have put in the mapping: the name of a
    script, sent to eight characters of a digest and its own extension. *)
Definition recorded (md5 : jsstring -> jsstring) (k v : jsstring) : Prop :=
  toLowerCase (path.extname [k]) = str ".js"
  /\ exists t : N,
       v = firstn 8 (md5 (k ++ numberToString t)) ++ path.extname [k].

Definition mappingGrows (md5 : jsstring -> jsstring) (s s' : state) : Prop :=
  forall k v, assoc k (fileMapping s') = Some v ->
              assoc k (fileMapping s) = Some v \/ recorded md5 k v.

(** A digit of a hexadecimal digest, as [digest('hex')] writes it. *)
Definition isHexDigit (c : jschar) : bool :=
  ((48 <=? c) && (c <=? 57)) || ((97 <=? c) && (c <=? 102)).

(** The body of the loop of lines 191-206. *)
Definition walkItem (cfg : config.t)
           (minify minifyHTML : jsstring -> option jsstring)
           (md5 : jsstring -> jsstring) (now : nat -> N)
           (f : nat) (dir baseDir : fpath) (item : jsstring) : M unit :=
  let fullPath := path.join dir [item] in
  if shouldExclude cfg fullPath then ret tt
  else
    stat <- fs.statSync fullPath ;;
    let relativePath := path.relative baseDir fullPath in
    if isDirectory stat
    then processDirectory cfg minify minifyHTML md5 now f fullPath baseDir
    else processFile cfg minify minifyHTML md5 now fullPath relativePath.

(** The walker comes to [dir ++ r] from [dir]: the filter excludes no
    entry on the way, [dir ++ r] included. *)
Fixpoint walked (cfg : config.t) (dir r : fpath) : bool :=
  match r with
  | [] => true
  | c :: r' =>
      negb (shouldExclude cfg (dir ++ [c])) && walked cfg (dir ++ [c]) r'
  end.

(** The entries of the source root that the walker visits part from the
    output directory: the output is not written into the source that is
    being read. *)
Definition outputApart (cfg : config.t) (T : list (jsstring * node)) : bool :=
  forallb (fun e : jsstring * node =>
             shouldExclude cfg (config.inputDir cfg ++ [fst e])
             || diverge (config.inputDir cfg ++ [fst e]) (config.outputDir cfg))
          T.

(** What stands below the output directory on the disk [d] mirrors the
    source as it was in the state [s0]: a directory stands for a directory
    that the walker comes to, a file holds the output text of a file that
    the walker comes to. *)
Definition mirrors (cfg : config.t)
           (minify minifyHTML : jsstring -> option jsstring)
           (s0 : state) (d : node) : Prop :=
  forall r n,
    r <> [] ->
    fs.find (config.outputDir cfg ++ r) d = Some n ->
    walked cfg (config.inputDir cfg) r = true
    /\ match n with
       | Dir _ => isDirAt (config.inputDir cfg ++ r) (disk s0)
       | File text =>
           exists data,
             fs.find (config.inputDir cfg ++ r) (disk s0) = Some (File data)
             /\ outputText cfg minify minifyHTML (config.inputDir cfg ++ r)
                           data s0 = Some text
       end.

(** What holds of the state [s] between two steps of a walk that started
    in [s0]. *)
Definition walkInv (cfg : config.t)
           (minify minifyHTML : jsstring -> option jsstring)
           (s0 s : state) : Prop :=
  sameOutside (config.outputDir cfg) s0 s
  /\ isDirAt (config.outputDir cfg) (disk s)
  /\ mirrors cfg minify minifyHTML s0 (disk s).

(** The files of the output in [s] are there in [s']. *)
Definition outputKept (cfg : config.t) (s s' : state) : Prop :=
  forall r text,
    fs.find (config.outputDir cfg ++ r) (disk s) = Some (File text) ->
    fs.find (config.outputDir cfg ++ r) (disk s') = Some (File text).

(** Every file that the walker comes to below [inputDir ++ rd ++ r0] has
    its output text at the mirrored path. *)
Definition covered (cfg : config.t)
           (minify minifyHTML : jsstring -> option jsstring)
           (s0 : state) (rd : fpath) (s' : state) : Prop :=
  forall r data,
    r <> [] ->
    walked cfg (config.inputDir cfg) (rd ++ r) = true ->
    fs.find (config.inputDir cfg ++ rd ++ r) (disk s0) = Some (File data) ->
    exists text,
      outputText cfg minify minifyHTML (config.inputDir cfg ++ rd ++ r)
                 data s0 = Some text
      /\ fs.find (config.outputDir cfg ++ rd ++ r) (disk s') = Some (File text).

(** The entries of the directory [inputDir ++ rd] that are not excluded
    part from the output directory. *)
Definition childrenApart (cfg : config.t) (rd : fpath)
           (T : list (jsstring * node)) : Prop :=
  forall item,
    In item (map fst T) ->
    shouldExclude cfg (config.inputDir cfg ++ rd ++ [item]) = false ->
    diverge (config.inputDir cfg ++ rd ++ [item]) (config.outputDir cfg) = true.

(** The statement proved of the walker by induction on the bound [f]. *)
Definition walkOk (cfg : config.t)
           (minify minifyHTML : jsstring -> option jsstring)
           (md5 : jsstring -> jsstring) (now : nat -> N)
           (s0 : state) (f : nat) : Prop :=
  forall (rd : fpath) (T : list (jsstring * node)) (s : state),
    (depth (Dir T) <= f)%nat ->
    walked cfg (config.inputDir cfg) rd = true ->
    childrenApart cfg rd T ->
    fs.find (config.inputDir cfg ++ rd) (disk s) = Some (Dir T) ->
    fs.find (config.inputDir cfg ++ rd) (disk s0) = Some (Dir T) ->
    walkInv cfg minify minifyHTML s0 s ->
    exists s',
      processDirectory cfg minify minifyHTML md5 now f
                       (config.inputDir cfg ++ rd) (config.inputDir cfg) s
      = Ok tt s'
      /\ walkInv cfg minify minifyHTML s0 s'
      /\ outputKept cfg s s'
      /\ covered cfg minify minifyHTML s0 rd s'.

(** The files of [s] are files in [s'], whatever their text. *)
Definition filesStay (s s' : state) : Prop :=
  forall p x, fs.find p (disk s) = Some (File x) ->
              exists x', fs.find p (disk s') = Some (File x').

(** [data/llm] is missing, or it is a directory in which no directory
    lists a name twice. *)
Definition dataReady (d : node) : bool :=
  match fs.find dataLlmSrc d with
  | Some x => isDirectory x && wellFormed x
  | None => true
  end.

(** [s.includes(pat)]: the text [pat] stands somewhere in [s]. *)
Fixpoint includes (pat s : jsstring) : bool :=
  startsWith pat s
  || match s with
     | [] => false
     | _ :: t => includes pat t
     end.

(* ===================================================================== *)
(** ** A sample site *)
(* ===================================================================== *)

Module Site.

(** A site with a directory of assets, a page, an image, a directory that
    the filter excludes, and a fresh output directory. *)
Definition tree : node :=
  Dir [(str "assets",
        Dir [(str "app.js", File (str " run() "));
             (str "style.css", File (str "a { color : red }"))]);
       (str "dist", Dir []);
       (str "index.html", File (Sample.page (str "'assets/app.js'")));
       (str "logo.png", File (str "PNG"));
       (str "node_modules", Dir [(str "lib.js", File (str "lib()"))])].

(** The same site after an earlier build of another version of it. *)
Definition stale : node :=
  Dir [(str "assets",
        Dir [(str "app.js", File (str " run() "));
             (str "style.css", File (str "a { color : red }"))]);
       (str "dist", Dir [(str "old.js", File (str "old()"))]);
       (str "index.html", File (Sample.page (str "'assets/app.js'")));
       (str "logo.png", File (str "PNG"));
       (str "node_modules", Dir [(str "lib.js", File (str "lib()"))])].

(** A site with a data directory, after an earlier build. *)
Definition full : node :=
  Dir [(str "assets",
        Dir [(str "app.js", File (str " run() "));
             (str "style.css", File (str "a { color : red }"))]);
       (str "data",
        Dir [(str "llm",
              Dir [(str "facts.json", File (str "{}"));
                   (str "notes.pdf", File (str "%PDF"))])]);
       (str "dist", Dir [(str "old.js", File (str "old()"))]);
       (str "index.html", File (Sample.page (str "'assets/app.js'")));
       (str "node_modules", Dir [(str "lib.js", File (str "lib()"))])].

Definition cfg : config.t := Sample.cfg false true None.

End Site.

(* ===================================================================== *)
(** * Properties *)
(* ===================================================================== *)

(** ** Strings and association lists *)

Lemma jseq_eq (a b : jsstring) : jseq a b = true <-> a = b.
Proof.
  revert b; induction a as [|x a IH]; intros [|y b]; simpl;
    try (split; [discriminate | discriminate]); try tauto.
  rewrite andb_true_iff, N.eqb_eq, IH.
  split; [intros [-> ->]; reflexivity | intros H; inversion H; auto].
Qed.

Lemma jseq_refl (a : jsstring) : jseq a a = true.
Proof. apply jseq_eq; reflexivity. Qed.

Lemma jseq_neq (a b : jsstring) : jseq a b = false <-> a <> b.
Proof.
  split.
  - intros H E. apply jseq_eq in E. congruence.
  - intros H. destruct (jseq a b) eqn:E; [apply jseq_eq in E; contradiction | reflexivity].
Qed.

Lemma jseq_sym (a b : jsstring) : jseq a b = jseq b a.
Proof.
  destruct (jseq a b) eqn:E.
  - apply jseq_eq in E; subst; symmetry; apply jseq_refl.
  - symmetry; apply jseq_neq; apply jseq_neq in E; congruence.
Qed.

Lemma startsWith_prefix (p s : jsstring) :
  startsWith p s = true <-> exists t, s = p ++ t.
Proof.
  revert s; induction p as [|x p IH]; intros s; simpl.
  - split; [exists s; reflexivity | reflexivity].
  - destruct s as [|y s].
    + split; [discriminate | intros [t H]; discriminate].
    + rewrite andb_true_iff, N.eqb_eq, IH. split.
      * intros [-> [t ->]]. exists t; reflexivity.
      * intros [t H]. inversion H; subst. split; [reflexivity | exists t; reflexivity].
Qed.

Section Assoc.
Context {A : Type}.
Implicit Types (l : list (jsstring * A)) (k : jsstring) (v : A).

Lemma assoc_set_same l k v : assoc k (assocSet k v l) = Some v.
Proof.
  induction l as [|[k' v'] l IH]; simpl.
  - rewrite jseq_refl; reflexivity.
  - destruct (jseq k' k) eqn:E; simpl; rewrite E; auto.
Qed.

Lemma assoc_set_other l k k' v :
  k <> k' -> assoc k' (assocSet k v l) = assoc k' l.
Proof.
  intros N. induction l as [|[k0 v0] l IH]; simpl.
  - assert (jseq k k' = false) as -> by (apply jseq_neq; exact N). reflexivity.
  - destruct (jseq k0 k) eqn:E; simpl.
    + apply jseq_eq in E; subst k0.
      assert (jseq k k' = false) as -> by (apply jseq_neq; exact N). reflexivity.
    + destruct (jseq k0 k'); auto.
Qed.

Lemma assocSet_id l k v : assoc k l = Some v -> assocSet k v l = l.
Proof.
  induction l as [|[k0 v0] l IH]; simpl; [discriminate|].
  destruct (jseq k0 k) eqn:E.
  - intros H; inversion H; reflexivity.
  - intros H; rewrite IH; auto.
Qed.

(** Setting a key twice leaves what the second setting alone leaves. *)
Lemma assocSet_twice l k v1 v2 :
  assocSet k v2 (assocSet k v1 l) = assocSet k v2 l.
Proof.
  induction l as [|[k0 v0] l IH]; simpl.
  - rewrite jseq_refl; reflexivity.
  - destruct (jseq k0 k) eqn:E; simpl; rewrite E; [reflexivity | rewrite IH; reflexivity].
Qed.



End Assoc.

(** ** The matcher consumes what it matches, and the bound of [replaceAll]
    is never reached *)

Lemma star_sound (cls : jschar -> bool) (re' : regex) :
  (forall m s f, match_here re' m s = Some f ->
                 exists x, s = x ++ f_rest f /\ f_text f = rev (m_seen m) ++ x) ->
  forall s m f, match_here (T Star cls :: re') m s = Some f ->
                exists x, s = x ++ f_rest f /\ f_text f = rev (m_seen m) ++ x.
Proof.
  intros IH. induction s as [|a t IHs]; intros m f H.
  - cbn [match_here] in H. apply IH in H. exact H.
  - cbn [match_here] in H, IHs. destruct (cls a).
    + match type of H with
      | match ?e with _ => _ end = _ => destruct e as [r|] eqn:E
      end.
      * inversion H; subst r. apply IHs in E. destruct E as [x [E1 E2]].
        exists (a :: x). split; [simpl; rewrite <- E1; reflexivity|].
        rewrite E2. cbn [m_step m_seen rev]. rewrite <- app_assoc. reflexivity.
      * apply IH in H. exact H.
    + apply IH in H. exact H.
Qed.

Lemma match_here_sound (re : regex) :
  forall m s f, match_here re m s = Some f ->
                exists x, s = x ++ f_rest f /\ f_text f = rev (m_seen m) ++ x.
Proof.
  induction re as [|t re IH]; intros m s f H.
  - simpl in H. inversion H; subst. exists []. simpl. rewrite app_nil_r. auto.
  - destruct t as [q cls| |].
    + destruct q.
      * cbn [match_here] in H. destruct s as [|a t]; [discriminate|].
        destruct (cls a); [|discriminate]. apply IH in H.
        destruct H as [x [E1 E2]]. exists (a :: x).
        split; [simpl; rewrite <- E1; reflexivity|].
        rewrite E2. cbn [m_step m_seen rev]. rewrite <- app_assoc. reflexivity.
      * eapply star_sound; eauto.
      * cbn [match_here] in H. destruct s as [|a t]; [discriminate|].
        destruct (cls a); [|discriminate].
        pose proof (star_sound cls re IH t (m_step a m) f) as S.
        cbn [match_here] in S. apply S in H.
        destruct H as [x [E1 E2]]. exists (a :: x).
        split; [simpl; rewrite <- E1; reflexivity|].
        rewrite E2. cbn [m_step m_seen rev]. rewrite <- app_assoc. reflexivity.
      * revert m H. induction s as [|a t IHs]; intros m H.
        -- cbn [match_here] in H.
           destruct (match_here re m []) as [r|] eqn:E; [|discriminate].
           inversion H; subst r. apply IH in E. exact E.
        -- cbn [match_here] in H, IHs.
           destruct (match_here re m (a :: t)) as [r|] eqn:E.
           ++ inversion H; subst r. apply IH in E. exact E.
           ++ destruct (cls a); [|discriminate]. apply IHs in H.
              destruct H as [x [E1 E2]]. exists (a :: x).
              split; [simpl; rewrite <- E1; reflexivity|].
              rewrite E2. cbn [m_step m_seen rev]. rewrite <- app_assoc.
              reflexivity.
    + cbn [match_here] in H. apply IH in H. exact H.
    + cbn [match_here] in H. apply IH in H. exact H.
Qed.

Lemma exec_at_sound (re : regex) (s matched : jsstring)
      (caps : list jsstring) (rest : jsstring) :
  exec_at re s = Some (Found matched caps rest) -> s = matched ++ rest.
Proof.
  intros H. apply match_here_sound in H. destruct H as [x [E1 E2]].
  simpl in E1, E2. subst. reflexivity.
Qed.

(** Any bound above the length of the text gives the same replacement. *)
Lemma replace_from_bound (re : regex) (tpl : jsstring) (n k : nat) :
  forall before s,
    (List.length s < n)%nat -> (List.length s < k)%nat ->
    replace_from n re tpl before s = replace_from k re tpl before s.
Proof.
  revert k; induction n as [|n IH]; intros k before s Ln Lk; [lia|].
  destruct k as [|k]; [lia|]. cbn [replace_from].
  destruct (exec_at re s) as [[matched caps rest]|] eqn:E.
  - pose proof (exec_at_sound _ _ _ _ _ E) as Hs.
    destruct matched as [|x matched].
    + destruct s as [|a t]; [reflexivity|]. simpl in Ln, Lk.
      f_equal. f_equal. apply IH; lia.
    + f_equal. apply IH; subst s; rewrite length_app in Ln, Lk; simpl in Ln, Lk; lia.
  - destruct s as [|a t]; [reflexivity|]. simpl in Ln, Lk. f_equal. apply IH; lia.
Qed.

(** ** The matcher on the patterns of the style sheet branch *)

Lemma take_drop (p : jschar -> bool) (s : jsstring) :
  takeWhile p s ++ dropWhile p s = s.
Proof.
  induction s as [|a t IH]; simpl; [reflexivity|].
  destruct (p a); simpl; [rewrite IH|]; reflexivity.
Qed.

Lemma dropWhile_length (p : jschar -> bool) (s : jsstring) :
  (List.length (dropWhile p s) <= List.length s)%nat.
Proof.
  induction s as [|a t IH]; simpl; [lia|]. destruct (p a); simpl; lia.
Qed.

(** A greedy star that ends the pattern takes the longest run. *)
Lemma star_tail (cls : jschar -> bool) (m : mstate) (s : jsstring) :
  match_here [T Star cls] m s
  = Some (Found (rev (m_seen m) ++ takeWhile cls s) (m_caps m) (dropWhile cls s)).
Proof.
  revert m; induction s as [|a t IH]; intros m.
  - simpl. rewrite app_nil_r. reflexivity.
  - cbn [match_here]. cbn [match_here] in IH.
    destruct (cls a) eqn:C.
    + rewrite IH. cbn [takeWhile dropWhile]. rewrite C.
      cbn [m_step m_seen m_caps rev]. rewrite <- app_assoc. reflexivity.
    + cbn [takeWhile dropWhile]. rewrite C. rewrite app_nil_r. reflexivity.
Qed.

Lemma punct_not_space (c : jschar) : punct c = true -> isWhiteSpace c = false.
Proof.
  unfold punct, oneOf. cbn [str map list_ascii_of_string existsb N_of_ascii N_of_digits].
  rewrite !orb_true_iff, !N.eqb_eq.
  intros [H|[H|[H|[H|[H|H]]]]]; try discriminate; subst c; reflexivity.
Qed.

Lemma exec_spaces_nil : exec_at re_spaces [] = None.
Proof. reflexivity. Qed.

Lemma exec_spaces_other (a : jschar) (t : jsstring) :
  isWhiteSpace a = false -> exec_at re_spaces (a :: t) = None.
Proof. intros H. unfold exec_at, re_spaces. cbn [match_here]. rewrite H. reflexivity. Qed.

Lemma exec_spaces_run (a : jschar) (t : jsstring) :
  isWhiteSpace a = true ->
  exec_at re_spaces (a :: t)
  = Some (Found (a :: takeWhile isWhiteSpace t) [] (dropWhile isWhiteSpace t)).
Proof.
  intros H. unfold exec_at, re_spaces. cbn [match_here]. rewrite H.
  apply (star_tail isWhiteSpace (m_step a m_init) t).
Qed.

Lemma exec_punct_nil : exec_at re_punct [] = None.
Proof. reflexivity. Qed.

Lemma exec_punct_other (a : jschar) (t : jsstring) :
  isWhiteSpace a = false -> punct a = false -> exec_at re_punct (a :: t) = None.
Proof.
  intros W P. unfold exec_at, re_punct. cbn [match_here]. rewrite W.
  fold punct. rewrite P. reflexivity.
Qed.

Lemma exec_punct_here (a : jschar) (t : jsstring) :
  punct a = true ->
  exec_at re_punct (a :: t)
  = Some (Found (a :: takeWhile isWhiteSpace t) [[a]] (dropWhile isWhiteSpace t)).
Proof.
  intros P. pose proof (punct_not_space a P) as W.
  unfold exec_at, re_punct. cbn [match_here]. rewrite W. fold punct. rewrite P.
  apply (star_tail isWhiteSpace (m_end (m_step a (m_begin m_init))) t).
Qed.

Lemma exec_punct_after_space (a b : jschar) (t : jsstring) :
  isWhiteSpace a = true -> punct b = true ->
  exec_at re_punct (a :: b :: t)
  = Some (Found (a :: b :: takeWhile isWhiteSpace t) [[b]]
                (dropWhile isWhiteSpace t)).
Proof.
  intros W P. pose proof (punct_not_space b P) as Wb.
  unfold exec_at, re_punct. cbn [match_here]. rewrite W, Wb. fold punct. rewrite P.
  pose proof (star_tail isWhiteSpace
                (m_end (m_step b (m_begin (m_step a m_init)))) t) as S.
  cbn [match_here] in S. rewrite S. reflexivity.
Qed.

Lemma exec_punct_lone_space (a : jschar) (t : jsstring) :
  isWhiteSpace a = true ->
  match t with
  | [] => True
  | b :: _ => isWhiteSpace b = false /\ punct b = false
  end ->
  exec_at re_punct (a :: t) = None.
Proof.
  intros W H.
  assert (punct a = false) as Pa.
  { destruct (punct a) eqn:P; [|reflexivity].
    apply punct_not_space in P. congruence. }
  unfold exec_at, re_punct. cbn [match_here]. rewrite W. fold punct.
  destruct t as [|b t].
  - rewrite Pa. reflexivity.
  - destruct H as [Wb Pb]. rewrite Wb, Pb, Pa. reflexivity.
Qed.

(** ** Steps of a global replacement *)

Section Replace.
Variables (re : regex) (tpl : jsstring).

Lemma replace_end (n : nat) (before : jsstring) :
  exec_at re [] = None -> replace_from n re tpl before [] = [].
Proof. intros H. destruct n; simpl; [|rewrite H]; reflexivity. Qed.

Lemma replace_copy (n : nat) (before : jsstring) (a : jschar) (t : jsstring) :
  exec_at re (a :: t) = None ->
  replace_from (S n) re tpl before (a :: t)
  = a :: replace_from n re tpl (a :: before) t.
Proof. intros H. simpl. rewrite H. reflexivity. Qed.

Lemma replace_match (n : nat) (before s : jsstring) (x : jschar)
      (m : jsstring) (caps : list jsstring) (rest : jsstring) :
  exec_at re s = Some (Found (x :: m) caps rest) ->
  replace_from (S n) re tpl before s
  = expand tpl (rev before) (x :: m) rest caps
    ++ replace_from n re tpl (rev (x :: m) ++ before) rest.
Proof. intros H. cbn [replace_from]. rewrite H. reflexivity. Qed.

(** Where the pattern matches nowhere, the text is left as it is. *)
Lemma replace_no_match (n : nat) (before s : jsstring) :
  test re s = false -> replace_from n re tpl before s = s.
Proof.
  revert before s; induction n as [|n IH]; intros before s H; [reflexivity|].
  destruct s as [|a t]; simpl in H |- *;
    destruct (exec_at re _) eqn:E; try discriminate; [reflexivity|].
  rewrite IH; auto.
Qed.

End Replace.

Lemma expand_space (before m after : jsstring) (caps : list jsstring) :
  expand (str " ") before m after caps = [32].
Proof. reflexivity. Qed.

Lemma expand_group (before m after g : jsstring) :
  expand (str "$1") before m after [g] = g.
Proof. cbv. apply app_nil_r. Qed.

(** ** Texts that the white space steps leave as they are *)

Lemma chainFrom_drop_prev (R : jschar -> jschar -> bool) (p : option jschar)
      (s : jsstring) :
  chainFrom R p s = true -> chainFrom R None s = true.
Proof.
  destruct s as [|a t]; [reflexivity|]. simpl.
  rewrite andb_true_iff. intros [_ H]. exact H.
Qed.

Lemma chainFrom_prefix (R : jschar -> jschar -> bool) (p : option jschar)
      (x y : jsstring) :
  chainFrom R p (x ++ y) = true -> chainFrom R p x = true.
Proof.
  revert p; induction x as [|a x IH]; intros p; [reflexivity|].
  simpl. rewrite !andb_true_iff. intros [H1 H2]. split; [exact H1 | eauto].
Qed.

Lemma chainFrom_dropWhile (R : jschar -> jschar -> bool) (f : jschar -> bool)
      (s : jsstring) :
  chainFrom R None s = true -> chainFrom R None (dropWhile f s) = true.
Proof.
  induction s as [|a t IH]; [reflexivity|]. intros H.
  cbn [dropWhile]. destruct (f a); [|exact H].
  apply IH. simpl in H. eapply chainFrom_drop_prev; eauto.
Qed.

Lemma forallb_dropWhile (g f : jschar -> bool) (s : jsstring) :
  forallb g s = true -> forallb g (dropWhile f s) = true.
Proof.
  induction s as [|a t IH]; [reflexivity|]. intros H.
  cbn [dropWhile]. destruct (f a); [|exact H].
  simpl in H. apply andb_true_iff in H. apply IH, H.
Qed.

Lemma dropWhile_clear (s : jsstring) :
  startsClear (dropWhile isWhiteSpace s) = true.
Proof.
  induction s as [|a t IH]; [reflexivity|]. cbn [dropWhile].
  destruct (isWhiteSpace a) eqn:W; [exact IH|]. simpl. rewrite W. reflexivity.
Qed.

Lemma clear_dropWhile (s : jsstring) :
  startsClear s = true -> dropWhile isWhiteSpace s = s.
Proof.
  destruct s as [|a t]; [reflexivity|]. simpl.
  destruct (isWhiteSpace a); [discriminate | reflexivity].
Qed.

Lemma clear_takeWhile (s : jsstring) :
  startsClear s = true -> takeWhile isWhiteSpace s = [].
Proof.
  destruct s as [|a t]; [reflexivity|]. simpl.
  destruct (isWhiteSpace a); [discriminate | reflexivity].
Qed.

(** A text of plain, single spaces is left as it is by line 174. *)
Lemma spaces_fixed (n : nat) (before s : jsstring) :
  (List.length s < n)%nat ->
  forallb plainSpace s = true ->
  chainFrom notBothSpaces None s = true ->
  replace_from n re_spaces (str " ") before s = s.
Proof.
  revert before s; induction n as [|n IH]; intros before s L P C; [lia|].
  destruct s as [|a t]; [apply replace_end, exec_spaces_nil|].
  simpl in L, P, C. apply andb_true_iff in P. destruct P as [Pa Pt].
  pose proof (chainFrom_drop_prev _ _ _ C) as Ct.
  destruct (isWhiteSpace a) eqn:W.
  - assert (startsClear t = true) as St.
    { destruct t as [|b t']; [reflexivity|]. simpl in C |- *.
      apply andb_true_iff in C. destruct C as [C _].
      unfold notBothSpaces in C. rewrite W in C. simpl in C.
      destruct (isWhiteSpace b); [discriminate | reflexivity]. }
    rewrite (replace_match _ _ _ _ _ _ _ _ _ (exec_spaces_run a t W)).
    rewrite expand_space, clear_dropWhile by exact St.
    unfold plainSpace in Pa. rewrite W in Pa. simpl in Pa.
    apply N.eqb_eq in Pa. subst a. simpl. f_equal. apply IH; auto. lia.
  - rewrite (replace_copy _ _ _ _ _ _ (exec_spaces_other a t W)).
    f_equal. apply IH; auto. lia.
Qed.

(** A tight text is left as it is by line 175. *)
Lemma punct_fixed (n : nat) (before s : jsstring) :
  (List.length s < n)%nat ->
  chainFrom tight None s = true ->
  replace_from n re_punct (str "$1") before s = s.
Proof.
  revert before s; induction n as [|n IH]; intros before s L C; [lia|].
  destruct s as [|a t]; [apply replace_end, exec_punct_nil|].
  simpl in L, C. pose proof (chainFrom_drop_prev _ _ _ C) as Ct.
  destruct (punct a) eqn:P.
  - assert (startsClear t = true) as St.
    { destruct t as [|b t']; [reflexivity|]. simpl in C |- *.
      apply andb_true_iff in C. destruct C as [C _].
      unfold tight in C. rewrite P in C.
      destruct (isWhiteSpace b); [|reflexivity].
      rewrite !andb_true_r in C. simpl in C. rewrite andb_false_r in C. discriminate. }
    rewrite (replace_match _ _ _ _ _ _ _ _ _ (exec_punct_here a t P)).
    rewrite expand_group, clear_dropWhile by exact St.
    simpl. f_equal. apply IH; auto. lia.
  - destruct (isWhiteSpace a) eqn:W.
    + rewrite replace_copy.
      * f_equal. apply IH; auto. lia.
      * apply exec_punct_lone_space; [exact W|].
        destruct t as [|b t']; [exact I|]. simpl in C.
        apply andb_true_iff in C. destruct C as [C _].
        unfold tight in C. rewrite W in C. simpl in C.
        destruct (isWhiteSpace b), (punct b); simpl in C; try discriminate; auto.
    + rewrite (replace_copy _ _ _ _ _ _ (exec_punct_other a t W P)).
      f_equal. apply IH; auto. lia.
Qed.

Lemma trim_fixed (s : jsstring) :
  startsClear s = true -> startsClear (rev s) = true -> trim s = s.
Proof.
  intros H1 H2. unfold trim.
  rewrite (clear_dropWhile s H1), (clear_dropWhile (rev s) H2).
  apply rev_involutive.
Qed.

(** ** What the white space steps leave *)

(** Line 174 leaves plain spaces, never two in a row. *)
Lemma spaces_output (n : nat) (before s : jsstring) (prev : option jschar) :
  (List.length s < n)%nat ->
  (forall p, prev = Some p -> isWhiteSpace p = true -> startsClear s = true) ->
  forallb plainSpace (replace_from n re_spaces (str " ") before s) = true
  /\ chainFrom notBothSpaces prev
               (replace_from n re_spaces (str " ") before s) = true.
Proof.
  revert before s prev; induction n as [|n IH]; intros before s prev L Hp; [lia|].
  destruct s as [|a t].
  - rewrite replace_end by apply exec_spaces_nil. split; reflexivity.
  - simpl in L. destruct (isWhiteSpace a) eqn:W.
    + rewrite (replace_match _ _ _ _ _ _ _ _ _ (exec_spaces_run a t W)).
      rewrite expand_space.
      destruct (IH (rev (a :: takeWhile isWhiteSpace t) ++ before)
                   (dropWhile isWhiteSpace t) (Some 32)) as [F C].
      * pose proof (dropWhile_length isWhiteSpace t). lia.
      * intros p _ _. apply dropWhile_clear.
      * split.
        -- cbn [app forallb]. exact F.
        -- cbn [app chainFrom]. apply andb_true_iff; split; [|exact C].
           destruct prev as [p|]; [|reflexivity].
           unfold notBothSpaces. destruct (isWhiteSpace p) eqn:Wp; [|reflexivity].
           specialize (Hp p eq_refl Wp). simpl in Hp. rewrite W in Hp. discriminate.
    + rewrite (replace_copy _ _ _ _ _ _ (exec_spaces_other a t W)).
      destruct (IH (a :: before) t (Some a)) as [F C].
      * lia.
      * intros p E Wp. inversion E; subst. congruence.
      * split.
        -- cbn [forallb]. apply andb_true_iff; split; [|exact F]. unfold plainSpace. rewrite W. reflexivity.
        -- cbn [chainFrom]. apply andb_true_iff; split; [|exact C].
           destruct prev as [p|]; [|reflexivity].
           unfold notBothSpaces. rewrite W, andb_false_r. reflexivity.
Qed.


Lemma space_not_punct (a : jschar) : isWhiteSpace a = true -> punct a = false.
Proof.
  intros W. destruct (punct a) eqn:P; [|reflexivity].
  apply punct_not_space in P. congruence.
Qed.

(** Line 175 leaves a tight text when it is given plain, single spaces. *)
Lemma punct_output (n : nat) (before s : jsstring) (prev : option jschar) :
  (List.length s < n)%nat ->
  forallb plainSpace s = true ->
  chainFrom notBothSpaces None s = true ->
  follows prev s ->
  forallb plainSpace (replace_from n re_punct (str "$1") before s) = true
  /\ chainFrom tight prev (replace_from n re_punct (str "$1") before s) = true.
Proof.
  revert before s prev; induction n as [|n IH]; intros before s prev L P C Hp; [lia|].
  destruct s as [|a t].
  - rewrite replace_end by apply exec_punct_nil. split; reflexivity.
  - simpl in L, P, C. apply andb_true_iff in P. destruct P as [Pa Pt].
    pose proof (chainFrom_drop_prev _ _ _ C) as Ct.
    destruct (punct a) eqn:Pu.
    + pose proof (punct_not_space a Pu) as W.
      rewrite (replace_match _ _ _ _ _ _ _ _ _ (exec_punct_here a t Pu)).
      rewrite expand_group.
      destruct (IH (rev (a :: takeWhile isWhiteSpace t) ++ before)
                   (dropWhile isWhiteSpace t) (Some a)) as [F Ch].
      * pose proof (dropWhile_length isWhiteSpace t). lia.
      * apply forallb_dropWhile; exact Pt.
      * apply chainFrom_dropWhile; exact Ct.
      * intros p E. inversion E; subst p. split; [congruence|].
        intros _. apply dropWhile_clear.
      * split.
        -- cbn [app forallb]. apply andb_true_iff; split; [exact Pa | exact F].
        -- cbn [app chainFrom]. apply andb_true_iff; split; [|exact Ch].
           destruct prev as [p|]; [|reflexivity].
           destruct (Hp p eq_refl) as [Hw _].
           unfold tight. rewrite W, Pu, !andb_false_r, !andb_true_r. simpl.
           destruct (isWhiteSpace p); [|reflexivity].
           destruct (Hw eq_refl) as [_ H]. congruence.
    + destruct (isWhiteSpace a) eqn:W.
      * assert (forall p, prev = Some p ->
                          isWhiteSpace p = false /\ punct p = false) as Hprev.
        { intros p E. destruct (Hp p E) as [Hw Hq]. split.
          - destruct (isWhiteSpace p); [|reflexivity].
            destruct (Hw eq_refl) as [H _]. congruence.
          - destruct (punct p); [|reflexivity].
            specialize (Hq eq_refl). simpl in Hq. rewrite W in Hq. discriminate. }
        assert (tightPrev : match prev with
                            | Some p => forall b, isWhiteSpace b = false \/ True ->
                                                  tight p b = true
                            | None => True
                            end).
        { destruct prev as [p|]; [|exact I]. intros b _.
          destruct (Hprev p eq_refl) as [H1 H2].
          unfold tight. rewrite H1, H2. reflexivity. }
        destruct t as [|b t'].
        -- rewrite replace_copy by (apply exec_punct_lone_space; [exact W | exact I]).
           rewrite replace_end by apply exec_punct_nil.
           split; [cbn [forallb]; rewrite Pa; reflexivity|].
           cbn [chainFrom]. rewrite andb_true_r.
           destruct prev as [p|]; [apply tightPrev; auto | reflexivity].
        -- assert (isWhiteSpace b = false) as Wb.
           { simpl in C. apply andb_true_iff in C. destruct C as [C _].
             unfold notBothSpaces in C. rewrite W in C. simpl in C.
             destruct (isWhiteSpace b); [discriminate | reflexivity]. }
           simpl in Pt. apply andb_true_iff in Pt. destruct Pt as [Pb Pt'].
           assert (chainFrom notBothSpaces None t' = true) as Ct'
               by (apply (chainFrom_drop_prev _ (Some b)); exact Ct).
           destruct (punct b) eqn:Pb'.
           ++ rewrite (replace_match _ _ _ _ _ _ _ _ _
                         (exec_punct_after_space a b t' W Pb')).
              rewrite expand_group.
              destruct (IH (rev (a :: b :: takeWhile isWhiteSpace t') ++ before)
                           (dropWhile isWhiteSpace t') (Some b)) as [F Ch].
              ** pose proof (dropWhile_length isWhiteSpace t'). simpl in L. lia.
              ** apply forallb_dropWhile; exact Pt'.
              ** apply chainFrom_dropWhile; exact Ct'.
              ** intros p E. inversion E; subst p. split; [congruence|].
                 intros _. apply dropWhile_clear.
              ** split.
                 --- cbn [app forallb]. apply andb_true_iff; split; [exact Pb | exact F].
                 --- cbn [app chainFrom]. apply andb_true_iff; split; [|exact Ch].
                     destruct prev as [p|]; [apply tightPrev; auto | reflexivity].
           ++ rewrite replace_copy
                by (apply exec_punct_lone_space; [exact W | split; assumption]).
              destruct (IH (a :: before) (b :: t') (Some a)) as [F Ch].
              ** simpl in L |- *. lia.
              ** cbn [forallb]. rewrite Pb, Pt'. reflexivity.
              ** exact Ct.
              ** intros p E. inversion E; subst p. split.
                 --- intros _. split; assumption.
                 --- intros H. congruence.
              ** split.
                 --- cbn [forallb]. apply andb_true_iff; split; [exact Pa | exact F].
                 --- cbn [chainFrom]. apply andb_true_iff; split; [|exact Ch].
                     destruct prev as [p|]; [apply tightPrev; auto | reflexivity].
      * rewrite (replace_copy _ _ _ _ _ _ (exec_punct_other a t W Pu)).
        destruct (IH (a :: before) t (Some a)) as [F Ch].
        -- lia.
        -- exact Pt.
        -- exact Ct.
        -- intros p E. inversion E; subst p. split; intros H; congruence.
        -- split.
           ++ cbn [forallb]. apply andb_true_iff; split; [exact Pa | exact F].
           ++ cbn [chainFrom]. apply andb_true_iff; split; [|exact Ch].
              destruct prev as [p|]; [|reflexivity].
              unfold tight. rewrite W, Pu, !andb_false_r. reflexivity.
Qed.

Lemma chainFrom_weaken (R R' : jschar -> jschar -> bool) (p : option jschar)
      (s : jsstring) :
  (forall a b, R a b = true -> R' a b = true) ->
  chainFrom R p s = true -> chainFrom R' p s = true.
Proof.
  intros Sub. revert p; induction s as [|a t IH]; intros p; [reflexivity|].
  simpl. rewrite !andb_true_iff. intros [H1 H2]. split; [|apply IH; exact H2].
  destruct p; [apply Sub; exact H1 | reflexivity].
Qed.

Lemma tight_notBothSpaces (a b : jschar) :
  tight a b = true -> notBothSpaces a b = true.
Proof.
  unfold tight, notBothSpaces. rewrite !andb_true_iff. intros [[H _] _]. exact H.
Qed.

Lemma trim_prefix (t : jsstring) :
  dropWhile isWhiteSpace t
  = trim t ++ rev (takeWhile isWhiteSpace (rev (dropWhile isWhiteSpace t))).
Proof.
  unfold trim. rewrite <- rev_app_distr, take_drop, rev_involutive. reflexivity.
Qed.

(** Line 176 leaves a clean text when it is given a tight one. *)
Lemma trim_clean (t : jsstring) :
  forallb plainSpace t = true ->
  chainFrom tight None t = true ->
  clean (trim t) = true.
Proof.
  intros P C.
  pose proof (forallb_dropWhile plainSpace isWhiteSpace t P) as Pu.
  pose proof (chainFrom_dropWhile tight isWhiteSpace t C) as Cu.
  pose proof (dropWhile_clear t) as Su.
  rewrite (trim_prefix t) in Pu, Cu, Su.
  rewrite forallb_app in Pu. apply andb_true_iff in Pu. destruct Pu as [Pu _].
  apply chainFrom_prefix in Cu.
  unfold clean. rewrite Pu, Cu. cbn [andb].
  apply andb_true_iff. split.
  - destruct (trim t) as [|a x]; [reflexivity | exact Su].
  - unfold trim. rewrite rev_involutive. apply dropWhile_clear.
Qed.

Lemma minifyCSS_clean (css : jsstring) : clean (minifyCSS css) = true.
Proof.
  unfold minifyCSS, replaceAll.
  set (y := replace_from _ re_comment _ _ _).
  destruct (spaces_output (S (List.length y)) [] y None) as [P1 C1];
    [lia | intros p E; discriminate |].
  set (c := replace_from _ re_spaces _ _ _) in *.
  destruct (punct_output (S (List.length c)) [] c None) as [P2 C2];
    [lia | exact P1 | exact C1 | intros p E; discriminate |].
  apply trim_clean; assumption.
Qed.

(** A clean text without a block comment is left as it is. *)
Lemma minifyCSS_fixed (s : jsstring) :
  clean s = true -> hasComment s = false -> minifyCSS s = s.
Proof.
  unfold clean. rewrite !andb_true_iff. intros [[[P C] S1] S2] H.
  unfold minifyCSS, replaceAll.
  rewrite (replace_no_match re_comment _ _ _ _ H).
  rewrite spaces_fixed;
    [| lia | exact P
     | eapply chainFrom_weaken; [apply tight_notBothSpaces | exact C]].
  rewrite punct_fixed; [| lia | exact C].
  apply trim_fixed; assumption.
Qed.

(** C4, amended. The style sheet transform gives its own output back
    whenever that output holds no block comment. *)
Theorem minifyCSS_idempotent (css : jsstring) :
  hasComment (minifyCSS css) = false ->
  minifyCSS (minifyCSS css) = minifyCSS css.
Proof.
  intros H. apply minifyCSS_fixed; [apply minifyCSS_clean | exact H].
Qed.

(** ** A comment left in the output is removed by a second pass *)

Lemma expand_empty (before m after : jsstring) (caps : list jsstring) :
  expand [] before m after caps = [].
Proof. reflexivity. Qed.

Lemma delete_length (re : regex) (n : nat) :
  forall before s,
    (List.length (replace_from n re [] before s) <= List.length s)%nat.
Proof.
  induction n as [|n IH]; intros before s; [simpl; lia|].
  cbn [replace_from].
  destruct (exec_at re s) as [[matched caps rest]|] eqn:E.
  - pose proof (exec_at_sound _ _ _ _ _ E) as Hs. rewrite expand_empty.
    destruct matched as [|x matched].
    + destruct s as [|a t]; [simpl; lia|]. simpl.
      specialize (IH (a :: before) t). lia.
    + specialize (IH (rev (x :: matched) ++ before) rest).
      subst s. cbn [app List.length]. rewrite length_app. lia.
  - destruct s as [|a t]; [simpl; lia|]. simpl.
    specialize (IH (a :: before) t). lia.
Qed.

Lemma one_first (cls : jschar -> bool) (re' : regex) (m : mstate)
      (s : jsstring) :
  match_here (T One cls :: re') m s
  = match s with
    | a :: t => if cls a then match_here re' (m_step a m) t else None
    | [] => None
    end.
Proof. reflexivity. Qed.

Lemma comment_not_empty (s : jsstring) (caps : list jsstring) (rest : jsstring) :
  exec_at re_comment s <> Some (Found [] caps rest).
Proof.
  unfold exec_at, re_comment, chr. rewrite one_first. intros H.
  destruct s as [|a t]; [discriminate|].
  destruct (47 =? a); [|discriminate].
  pose proof (match_here_sound _ _ _ _ H) as [x [_ E]].
  simpl in E. discriminate.
Qed.

Lemma delete_comment_shorter (n : nat) :
  forall before s,
    (List.length s < n)%nat ->
    hasComment s = true ->
    (List.length (replace_from n re_comment [] before s) < List.length s)%nat.
Proof.
  unfold hasComment.
  induction n as [|n IH]; intros before s L H; [lia|].
  cbn [replace_from].
  destruct (exec_at re_comment s) as [[matched caps rest]|] eqn:E.
  - pose proof (exec_at_sound _ _ _ _ _ E) as Hs. rewrite expand_empty.
    destruct matched as [|x matched];
      [exfalso; eapply comment_not_empty; eauto|].
    pose proof (delete_length re_comment n (rev (x :: matched) ++ before) rest).
    subst s. cbn [app List.length]. rewrite length_app. lia.
  - destruct s as [|a t].
    + cbn [test] in H. rewrite E in H. discriminate.
    + cbn [test] in H. rewrite E in H. simpl in L.
      specialize (IH (a :: before) t). simpl. apply -> Nat.succ_lt_mono.
      apply IH; [lia | exact H].
Qed.

Lemma spaces_length (n : nat) :
  forall before s,
    (List.length (replace_from n re_spaces (str " ") before s)
     <= List.length s)%nat.
Proof.
  induction n as [|n IH]; intros before s; [simpl; lia|].
  destruct s as [|a t]; [rewrite replace_end by apply exec_spaces_nil; simpl; lia|].
  destruct (isWhiteSpace a) eqn:W.
  - rewrite (replace_match _ _ _ _ _ _ _ _ _ (exec_spaces_run a t W)).
    rewrite expand_space. cbn [app List.length].
    specialize (IH (rev (a :: takeWhile isWhiteSpace t) ++ before)
                   (dropWhile isWhiteSpace t)).
    pose proof (dropWhile_length isWhiteSpace t). lia.
  - rewrite (replace_copy _ _ _ _ _ _ (exec_spaces_other a t W)).
    cbn [List.length]. specialize (IH (a :: before) t). lia.
Qed.

Lemma punct_length (n : nat) :
  forall before s,
    forallb plainSpace s = true ->
    chainFrom notBothSpaces None s = true ->
    (List.length (replace_from n re_punct (str "$1") before s)
     <= List.length s)%nat.
Proof.
  induction n as [|n IH]; intros before s P C; [simpl; lia|].
  destruct s as [|a t]; [rewrite replace_end by apply exec_punct_nil; simpl; lia|].
  cbn [forallb] in P. apply andb_true_iff in P. destruct P as [Pa Pt].
  assert (chainFrom notBothSpaces None t = true) as Ct
      by (apply (chainFrom_drop_prev _ (Some a)); exact C).
  destruct (punct a) eqn:Pu.
  - rewrite (replace_match _ _ _ _ _ _ _ _ _ (exec_punct_here a t Pu)).
    rewrite expand_group. cbn [app List.length].
    pose proof (IH (rev (a :: takeWhile isWhiteSpace t) ++ before)
                   (dropWhile isWhiteSpace t)
                   (forallb_dropWhile _ _ _ Pt)
                   (chainFrom_dropWhile _ _ _ Ct)).
    pose proof (dropWhile_length isWhiteSpace t). lia.
  - destruct (isWhiteSpace a) eqn:W.
    + destruct t as [|b t'].
      * rewrite replace_copy by (apply exec_punct_lone_space; [exact W | exact I]).
        rewrite replace_end by apply exec_punct_nil. simpl; lia.
      * assert (isWhiteSpace b = false) as Wb.
        { cbn [chainFrom] in C. apply andb_true_iff in C. destruct C as [_ C].
          apply andb_true_iff in C. destruct C as [C _].
          unfold notBothSpaces in C. rewrite W in C. simpl in C.
          destruct (isWhiteSpace b); [discriminate | reflexivity]. }
        cbn [forallb] in Pt. apply andb_true_iff in Pt. destruct Pt as [Pb Pt'].
        assert (chainFrom notBothSpaces None t' = true) as Ct'
            by (apply (chainFrom_drop_prev _ (Some b)); exact Ct).
        destruct (punct b) eqn:Pb'.
        -- rewrite (replace_match _ _ _ _ _ _ _ _ _
                      (exec_punct_after_space a b t' W Pb')).
           rewrite expand_group. cbn [app List.length].
           pose proof (IH (rev (a :: b :: takeWhile isWhiteSpace t') ++ before)
                          (dropWhile isWhiteSpace t')
                          (forallb_dropWhile _ _ _ Pt')
                          (chainFrom_dropWhile _ _ _ Ct')).
           pose proof (dropWhile_length isWhiteSpace t'). lia.
        -- rewrite replace_copy
             by (apply exec_punct_lone_space; [exact W | split; assumption]).
           assert (forallb plainSpace (b :: t') = true) as Pbt
               by (cbn [forallb]; rewrite Pb, Pt'; reflexivity).
           pose proof (IH (a :: before) (b :: t') Pbt Ct).
           cbn [List.length] in *. lia.
    + rewrite (replace_copy _ _ _ _ _ _ (exec_punct_other a t W Pu)).
      pose proof (IH (a :: before) t Pt Ct). cbn [List.length]. lia.
Qed.

Lemma trim_length (s : jsstring) : (List.length (trim s) <= List.length s)%nat.
Proof.
  unfold trim. rewrite length_rev.
  pose proof (dropWhile_length isWhiteSpace (rev (dropWhile isWhiteSpace s))).
  pose proof (dropWhile_length isWhiteSpace s).
  rewrite length_rev in *. lia.
Qed.

(** A text that holds a block comment is made shorter by the transform, so
    an output that holds one is not given back by a second pass. *)
Lemma minifyCSS_comment_shrinks (s : jsstring) :
  hasComment s = true ->
  (List.length (minifyCSS s) < List.length s)%nat.
Proof.
  intros H. unfold minifyCSS, replaceAll.
  set (y := replace_from _ re_comment _ _ _).
  assert (List.length y < List.length s)%nat as Ly
      by (apply delete_comment_shorter; [lia | exact H]).
  destruct (spaces_output (S (List.length y)) [] y None) as [P1 C1];
    [lia | intros p E; discriminate |].
  pose proof (spaces_length (S (List.length y)) [] y) as Lc.
  set (c := replace_from _ re_spaces _ _ _) in *.
  pose proof (punct_length (S (List.length c)) [] c P1 C1) as Lt.
  pose proof (trim_length (replace_from (S (List.length c)) re_punct (str "$1") [] c)).
  lia.
Qed.

Lemma minifyCSS_idempotent_only (css : jsstring) :
  minifyCSS (minifyCSS css) = minifyCSS css ->
  hasComment (minifyCSS css) = false.
Proof.
  intros E. destruct (hasComment (minifyCSS css)) eqn:H; [|reflexivity].
  apply minifyCSS_comment_shrinks in H. rewrite E in H. lia.
Qed.

(** ** The file system *)

Lemma find_app (p q : fpath) (n : node) :
  fs.find (p ++ q) n =
  match fs.find p n with Some m => fs.find q m | None => None end.
Proof.
  revert n; induction p as [|c p IH]; intros n; simpl; [reflexivity|].
  destruct n as [d|es]; [reflexivity|].
  destruct (assoc c es); [apply IH | reflexivity].
Qed.

Lemma mkdirp_dir (p : fpath) (n n' : node) :
  fs.mkdirp p n = inr n' -> exists es, fs.find p n' = Some (Dir es).
Proof.
  revert n n'; induction p as [|c p IH]; intros n n'; simpl.
  - destruct n; [discriminate|]. intros H; inversion H; subst; eauto.
  - destruct n as [d|es]; [discriminate|].
    destruct (fs.mkdirp p _) as [e|n''] eqn:E; [discriminate|].
    intros H; inversion H; subst. rewrite assoc_set_same. eapply IH; eauto.
Qed.

Lemma mkdirp_exists (p : fpath) (n n' x : node) :
  fs.find p n = Some x -> fs.mkdirp p n = inr n' -> n' = n.
Proof.
  revert n n' x; induction p as [|c p IH]; intros n n' x; simpl.
  - destruct n; [discriminate|]. intros _ H; inversion H; reflexivity.
  - destruct n as [d|es]; [discriminate|].
    destruct (assoc c es) as [m|] eqn:A; [|discriminate].
    intros F. destruct (fs.mkdirp p m) as [e|n''] eqn:E; [discriminate|].
    intros H; inversion H; subst. f_equal.
    apply assocSet_id. rewrite A. f_equal. symmetry. eapply IH; eauto.
Qed.

(** No file is lost or changed by [mkdir -p]. *)
Lemma mkdirp_keeps_files (p q : fpath) (n n' : node) (data : jsstring) :
  fs.mkdirp p n = inr n' ->
  fs.find q n = Some (File data) -> fs.find q n' = Some (File data).
Proof.
  revert q n n'; induction p as [|c p IH]; intros q n n'; simpl.
  - destruct n; [discriminate|]. intros H; inversion H; auto.
  - destruct n as [d|es]; [discriminate|].
    destruct (fs.mkdirp p _) as [e|n''] eqn:E; [discriminate|].
    intros H; inversion H; subst; clear H.
    destruct q as [|c2 q]; simpl; [discriminate|].
    destruct (jseq c c2) eqn:J.
    + apply jseq_eq in J; subst c2. rewrite assoc_set_same.
      destruct (assoc c es) as [m|]; [|discriminate].
      intros F. eapply IH; eauto.
    + apply jseq_neq in J. rewrite assoc_set_other by exact J. auto.
Qed.

Lemma store_cons (c c2 : jsstring) (p : fpath) (data : jsstring)
      (es : list (jsstring * node)) :
  fs.store (c :: c2 :: p) data (Dir es) =
  match assoc c es with
  | Some n' =>
      match fs.store (c2 :: p) data n' with
      | inr n'' => inr (Dir (assocSet c n'' es))
      | inl e => inl e
      end
  | None => inl ENOENT
  end.
Proof. reflexivity. Qed.

Lemma store_find (p : fpath) (data : jsstring) (n n' : node) :
  fs.store p data n = inr n' -> fs.find p n' = Some (File data).
Proof.
  revert n n'; induction p as [|c p IH]; intros n n'; [discriminate|].
  destruct p as [|c2 p].
  - simpl. destruct n as [d|es]; [discriminate|].
    destruct (assoc c es) as [[d|es2]|]; try discriminate;
      intros H; inversion H; subst; rewrite assoc_set_same; reflexivity.
  - destruct n as [d|es]; [discriminate|]. rewrite store_cons.
    destruct (assoc c es) as [m|]; [|discriminate].
    destruct (fs.store (c2 :: p) data m) as [e|n''] eqn:E; [discriminate|].
    intros H; inversion H; subst. cbn [fs.find]. rewrite assoc_set_same.
    apply IH with (n := m); exact E.
Qed.

(** A file can be written where the parent is a directory and the target is
    not one. *)
Lemma store_ok (dir : fpath) (name data : jsstring) (n : node)
      (es : list (jsstring * node)) :
  fs.find dir n = Some (Dir es) ->
  (forall es', fs.find (dir ++ [name]) n <> Some (Dir es')) ->
  exists n', fs.store (dir ++ [name]) data n = inr n'.
Proof.
  revert n; induction dir as [|c dir IH]; intros n F NotDir.
  - simpl in F; inversion F; subst. simpl. simpl in NotDir.
    destruct (assoc name es) as [[d|es2]|] eqn:A; eauto.
    exfalso; eapply NotDir; reflexivity.
  - simpl in F. destruct n as [d|es0]; [discriminate|].
    destruct (assoc c es0) as [m|] eqn:A; [|discriminate].
    destruct (IH m F) as [n' Hn'].
    + intros es' H. apply (NotDir es'). simpl. rewrite A. exact H.
    + change ((c :: dir) ++ [name]) with (c :: (dir ++ [name])).
      destruct (dir ++ [name]) as [|c2 r] eqn:D.
      * destruct dir; discriminate.
      * rewrite store_cons, A, Hn'. eauto.
Qed.

(** ** Frames of the file system operations *)

Lemma prefixOf_nil (q : fpath) : prefixOf [] q.
Proof. exists q; reflexivity. Qed.

Lemma prefixOf_cons (c : jsstring) (p q : fpath) :
  prefixOf (c :: p) (c :: q) <-> prefixOf p q.
Proof.
  split; intros [r H]; exists r.
  - simpl in H. inversion H; reflexivity.
  - simpl. rewrite H; reflexivity.
Qed.

Lemma prefixOf_cons_ne (c c' : jsstring) (p q : fpath) :
  c <> c' -> ~ prefixOf (c :: p) (c' :: q).
Proof. intros N [r H]. simpl in H. inversion H. congruence. Qed.

Lemma find_nil_children (q : fpath) : q <> [] -> fs.find q (Dir []) = None.
Proof. destruct q; [congruence | reflexivity]. Qed.

(** [mkdir -p] changes what is found at the prefixes of its path only. *)
Lemma mkdirp_frame (p q : fpath) (n n' : node) :
  fs.mkdirp p n = inr n' -> ~ prefixOf q p -> fs.find q n' = fs.find q n.
Proof.
  revert q n n'; induction p as [|c p IH]; intros q n n'; simpl.
  - destruct n; [discriminate|]. intros H; inversion H; reflexivity.
  - destruct n as [d|es]; [discriminate|].
    destruct (fs.mkdirp p _) as [e|n''] eqn:E; [discriminate|].
    intros H NP; inversion H; subst; clear H.
    destruct q as [|c2 q]; [exfalso; apply NP, prefixOf_nil|].
    simpl. destruct (jseq c c2) eqn:J.
    + apply jseq_eq in J; subst c2. rewrite assoc_set_same.
      assert (~ prefixOf q p) as NP' by (rewrite <- (prefixOf_cons c); exact NP).
      rewrite (IH _ _ _ E NP').
      destruct (assoc c es) as [m|]; [reflexivity|].
      apply find_nil_children. intros ->. apply NP', prefixOf_nil.
    + apply jseq_neq in J. rewrite assoc_set_other by exact J. reflexivity.
Qed.

Lemma mkdirp_keeps_dirs (p q : fpath) (n n' : node) :
  fs.mkdirp p n = inr n' -> isDirAt q n -> isDirAt q n'.
Proof.
  revert q n n'; induction p as [|c p IH]; intros q n n'; simpl.
  - destruct n; [discriminate|]. intros H; inversion H; auto.
  - destruct n as [d|es]; [discriminate|].
    destruct (fs.mkdirp p _) as [e|n''] eqn:E; [discriminate|].
    intros H; inversion H; subst; clear H.
    destruct q as [|c2 q]; [intros _; eexists; reflexivity|].
    unfold isDirAt. simpl. destruct (jseq c c2) eqn:J.
    + apply jseq_eq in J; subst c2. rewrite assoc_set_same.
      destruct (assoc c es) as [m|]; [|intros [? ?]; discriminate].
      intros D. eapply IH; eauto.
    + apply jseq_neq in J. rewrite assoc_set_other by exact J. auto.
Qed.

(** A directory can be made in a directory where no file has its name. *)
Lemma mkdirp_child (p : fpath) (c : jsstring) (n : node) :
  isDirAt p n ->
  (forall data, fs.find (p ++ [c]) n <> Some (File data)) ->
  exists n', fs.mkdirp (p ++ [c]) n = inr n'.
Proof.
  revert n; induction p as [|a p IH]; intros n [es F] NF.
  - simpl in F; inversion F; subst. simpl. simpl in NF.
    destruct (assoc c es) as [[d|es2]|] eqn:A; eauto.
    exfalso; eapply NF; reflexivity.
  - simpl in F. destruct n as [d|es0]; [discriminate|].
    destruct (assoc a es0) as [m|] eqn:A; [|discriminate].
    destruct (IH m) as [n' Hn'].
    + exists es; exact F.
    + intros data H. apply (NF data). simpl. rewrite A. exact H.
    + simpl. rewrite A, Hn'. eauto.
Qed.

(** Writing a file changes what is found at the prefixes of its path only. *)
Lemma store_frame (p q : fpath) (data : jsstring) (n n' : node) :
  fs.store p data n = inr n' -> ~ prefixOf q p -> fs.find q n' = fs.find q n.
Proof.
  revert q n n'; induction p as [|c p IH]; intros q n n'; [discriminate|].
  destruct p as [|c2 p].
  - simpl. destruct n as [d|es]; [discriminate|].
    intros H NP.
    assert (n' = Dir (assocSet c (File data) es)
            /\ forall es2, assoc c es <> Some (Dir es2)) as [-> ND].
    { destruct (assoc c es) as [[d|es2]|]; try discriminate;
        inversion H; split; auto; congruence. }
    destruct q as [|c3 q]; [exfalso; apply NP, prefixOf_nil|].
    simpl. destruct (jseq c c3) eqn:J.
    + apply jseq_eq in J; subst c3. rewrite assoc_set_same.
      destruct q as [|c4 q]; [exfalso; apply NP; exists []; reflexivity|].
      simpl. destruct (assoc c es) as [[d|es2]|] eqn:A; auto.
      exfalso; eapply ND; reflexivity.
    + apply jseq_neq in J. rewrite assoc_set_other by exact J. reflexivity.
  - destruct n as [d|es]; [discriminate|]. rewrite store_cons.
    destruct (assoc c es) as [m|] eqn:A; [|discriminate].
    destruct (fs.store (c2 :: p) data m) as [e|n''] eqn:E; [discriminate|].
    intros H NP; inversion H; subst; clear H.
    destruct q as [|c3 q]; [exfalso; apply NP, prefixOf_nil|].
    cbn [fs.find]. destruct (jseq c c3) eqn:J.
    + apply jseq_eq in J; subst c3. rewrite assoc_set_same, A.
      apply IH with (n := m); [exact E|].
      rewrite <- (prefixOf_cons c); exact NP.
    + apply jseq_neq in J. rewrite assoc_set_other by exact J. reflexivity.
Qed.

Lemma store_keeps_dirs (p q : fpath) (data : jsstring) (n n' : node) :
  fs.store p data n = inr n' -> isDirAt q n -> isDirAt q n'.
Proof.
  revert q n n'; induction p as [|c p IH]; intros q n n'; [discriminate|].
  destruct p as [|c2 p].
  - simpl. destruct n as [d|es]; [discriminate|].
    intros H.
    assert (n' = Dir (assocSet c (File data) es)
            /\ forall es2, assoc c es <> Some (Dir es2)) as [-> ND].
    { destruct (assoc c es) as [[d|es2]|]; try discriminate;
        inversion H; split; auto; congruence. }
    destruct q as [|c3 q]; [intros _; eexists; reflexivity|].
    unfold isDirAt. simpl. destruct (jseq c c3) eqn:J.
    + apply jseq_eq in J; subst c3.
      destruct (assoc c es) as [[d|es2]|] eqn:A.
      * destruct q; intros [? ?]; discriminate.
      * exfalso; eapply ND; reflexivity.
      * intros [? ?]; discriminate.
    + apply jseq_neq in J. rewrite assoc_set_other by exact J. auto.
  - destruct n as [d|es]; [discriminate|]. rewrite store_cons.
    destruct (assoc c es) as [m|] eqn:A; [|discriminate].
    destruct (fs.store (c2 :: p) data m) as [e|n''] eqn:E; [discriminate|].
    intros H; inversion H; subst; clear H.
    destruct q as [|c3 q]; [intros _; eexists; reflexivity|].
    unfold isDirAt. cbn [fs.find]. destruct (jseq c c3) eqn:J.
    + apply jseq_eq in J; subst c3. rewrite assoc_set_same, A.
      intros D. eapply IH; eauto.
    + apply jseq_neq in J. rewrite assoc_set_other by exact J. auto.
Qed.

(** ** Paths that part *)

Lemma diverge_sym (p q : fpath) : diverge p q = diverge q p.
Proof.
  revert q; induction p as [|a p IH]; intros [|b q]; simpl; auto.
  rewrite (jseq_sym a b). destruct (jseq b a); auto.
Qed.

Lemma diverge_app (p q a b : fpath) :
  diverge p q = true -> diverge (p ++ a) (q ++ b) = true.
Proof.
  revert q; induction p as [|x p IH]; intros [|y q]; simpl; try discriminate.
  destruct (jseq x y); auto.
Qed.

Lemma diverge_not_prefix (p q : fpath) : diverge p q = true -> ~ prefixOf p q.
Proof.
  revert q; induction p as [|x p IH]; intros [|y q]; simpl; try discriminate.
  destruct (jseq x y) eqn:J.
  - apply jseq_eq in J; subst y. intros D. rewrite prefixOf_cons. auto.
  - intros _. apply prefixOf_cons_ne. apply jseq_neq; exact J.
Qed.

Lemma diverge_siblings (dir : fpath) (a b : jsstring) :
  a <> b -> diverge (dir ++ [a]) (dir ++ [b]) = true.
Proof.
  intros N. induction dir as [|c dir IH]; simpl.
  - assert (jseq a b = false) as -> by (apply jseq_neq; exact N). reflexivity.
  - rewrite jseq_refl. exact IH.
Qed.

Lemma apart_left (p q : fpath) (a b : fpath) :
  diverge p q = true -> ~ prefixOf (p ++ a) (q ++ b).
Proof. intros D. apply diverge_not_prefix, diverge_app, D. Qed.

Lemma apart_right (p q : fpath) (a b : fpath) :
  diverge p q = true -> ~ prefixOf (q ++ b) (p ++ a).
Proof.
  intros D. apply diverge_not_prefix. rewrite diverge_sym. apply diverge_app, D.
Qed.

Lemma prefixOf_snoc (p target : fpath) (c : jsstring) :
  prefixOf p (target ++ [c]) -> prefixOf p target \/ p = target ++ [c].
Proof.
  intros [r H]. destruct (rev r) as [|x r'] eqn:R.
  - right. apply (f_equal (@rev _)) in R. rewrite rev_involutive in R. simpl in R.
    subst r. rewrite app_nil_r in H. auto.
  - left. apply (f_equal (@rev _)) in R. rewrite rev_involutive in R. simpl in R.
    subst r. rewrite app_assoc in H. apply app_inj_tail in H. destruct H as [H _].
    exists (rev r'). exact H.
Qed.

Lemma prefixOf_app (p q r : fpath) : prefixOf (p ++ q) r -> prefixOf p r.
Proof. intros [t H]. exists (q ++ t). rewrite H, app_assoc. reflexivity. Qed.

(** ** Directory listings *)

Lemma assoc_In {A : Type} (k : jsstring) (v : A) (l : list (jsstring * A)) :
  assoc k l = Some v -> In (k, v) l.
Proof.
  induction l as [|[k0 v0] l IH]; simpl; [discriminate|].
  destruct (jseq k0 k) eqn:J.
  - apply jseq_eq in J; subst. intros H; inversion H; auto.
  - auto.
Qed.

Lemma assoc_None {A : Type} (k : jsstring) (l : list (jsstring * A)) :
  assoc k l = None -> ~ In k (map fst l).
Proof.
  induction l as [|[k0 v0] l IH]; simpl; [tauto|].
  destruct (jseq k0 k) eqn:J; [discriminate|].
  apply jseq_neq in J. intros H [E|I]; [contradiction | apply IH; auto].
Qed.

Lemma distinct_cons (a : jsstring) (r : list jsstring) :
  distinct (a :: r) = true -> ~ In a r /\ distinct r = true.
Proof.
  simpl. rewrite andb_true_iff, negb_true_iff. intros [H D]. split; [|exact D].
  intros I. assert (existsb (jseq a) r = true) as E.
  { apply existsb_exists. exists a. split; [exact I | apply jseq_refl]. }
  congruence.
Qed.

Lemma In_assoc {A : Type} (k : jsstring) (v : A) (l : list (jsstring * A)) :
  distinct (map fst l) = true -> In (k, v) l -> assoc k l = Some v.
Proof.
  induction l as [|[k0 v0] l IH]; simpl map; [intros _ []|].
  intros D. apply distinct_cons in D. destruct D as [NI D].
  intros [E|I].
  - inversion E; subst. simpl. rewrite jseq_refl. reflexivity.
  - simpl. destruct (jseq k0 k) eqn:J.
    + apply jseq_eq in J; subst k0. exfalso. apply NI.
      apply in_map_iff. exists (k, v). auto.
    + auto.
Qed.

Lemma depth_child (k : jsstring) (x : node) (es : list (jsstring * node)) :
  In (k, x) es -> (depth x < depth (Dir es))%nat.
Proof.
  simpl. induction es as [|[k0 x0] es IH]; [intros []|].
  intros [E|I].
  - inversion E; subst. lia.
  - specialize (IH I). lia.
Qed.

Lemma wellFormed_Dir (es : list (jsstring * node)) :
  wellFormed (Dir es) = true ->
  distinct (map fst es) = true
  /\ forall k x, In (k, x) es -> wellFormed x = true.
Proof.
  simpl. rewrite andb_true_iff, forallb_forall. intros [D F]. split; [exact D|].
  intros k x I. apply (F (k, x) I).
Qed.

Lemma last_cons (a d : jsstring) (q : fpath) : last (a :: q) d = last q a.
Proof.
  revert a d; induction q as [|b q IH]; intros a d; [reflexivity|].
  change (last (a :: b :: q) d) with (last (b :: q) d).
  rewrite (IH b d), (IH b a). reflexivity.
Qed.

(** ** Steps of the state monad *)

Lemma setDisk_same (s : state) : fs.setDisk (disk s) s = s.
Proof. destruct s; reflexivity. Qed.

Lemma ensure_dir {A : Type} (p : fpath) (k : M A) (s : state) (d1 : node) :
  fs.mkdirp p (disk s) = inr d1 ->
  (ex <- fs.existsSync p ;; when (negb ex) (fs.mkdirSync p) ;; k) s
  = k (fs.setDisk d1 s).
Proof.
  intros H. unfold bind, fs.existsSync.
  destruct (fs.find p (disk s)) as [x|] eqn:F; simpl.
  - rewrite (mkdirp_exists _ _ _ _ F H), setDisk_same. reflexivity.
  - unfold fs.mkdirSync. rewrite H. reflexivity.
Qed.

Lemma read_step {A : Type} (p : fpath) (k : jsstring -> M A) (s : state)
      (data : jsstring) :
  fs.find p (disk s) = Some (File data) ->
  (x <- fs.readFileSync p ;; k x) s = k data s.
Proof. intros H. unfold bind, fs.readFileSync. rewrite H. reflexivity. Qed.

Lemma write_step {A : Type} (p : fpath) (data : jsstring) (k : M A)
      (s : state) (d : node) :
  fs.store p data (disk s) = inr d ->
  (fs.writeFileSync p data ;; k) s = k (fs.setDisk d s).
Proof. intros H. unfold bind, fs.writeFileSync. rewrite H. reflexivity. Qed.

Section BuildFacts.

Variable cfg : config.t.
Variable minify : jsstring -> option jsstring.
Variable minifyHTML : jsstring -> option jsstring.
Variable md5 : jsstring -> jsstring.
Variable now : nat -> N.


Lemma guard_prefix (code : jsstring) :
  (if truthy (getAntiTamperCode cfg) then getAntiTamperCode cfg ++ code else code)
  = getAntiTamperCode cfg ++ code.
Proof. destruct (getAntiTamperCode cfg); reflexivity. Qed.

Lemma processFile_js (filePath relativePath : fpath) (st : state)
      (code : jsstring) (d1 : node) :
  let outputDir := path.dirname (path.join (config.outputDir cfg) relativePath) in
  let fileName := path.basename filePath in
  let outName := jsOutputName cfg md5 now fileName st in
  jseq (toLowerCase (path.extname filePath)) (str ".js") = true ->
  fs.find filePath (disk st) = Some (File code) ->
  fs.mkdirp outputDir (disk st) = inr d1 ->
  (forall es, fs.find (outputDir ++ [outName]) d1 <> Some (Dir es)) ->
  exists d2,
    fs.store (outputDir ++ [outName])
             (getAntiTamperCode cfg ++ jsBody cfg minify code) d1 = inr d2 /\
    processFile cfg minify minifyHTML md5 now filePath relativePath st
    = Ok tt (State d2
               (if config.obfuscateFilenames cfg
                then assocSet fileName outName (fileMapping st)
                else fileMapping st)
               (console st
                ++ jsWarning cfg minify fileName code
                ++ [(Log, [10003] ++ str " Processed " ++ path.text relativePath
                          ++ (if config.obfuscateFilenames cfg
                              then str " " ++ [8594] ++ str " " ++ outName
                              else []))])
               (if config.obfuscateFilenames cfg then S (clock st) else clock st)).
Proof.
  intros outputDir fileName outName Hext Hread Hdir Hfree.
  destruct (mkdirp_dir _ _ _ Hdir) as [es Hes].
  destruct (store_ok outputDir outName (getAntiTamperCode cfg ++ jsBody cfg minify code)
                     d1 es Hes Hfree) as [d2 Hd2].
  exists d2; split; [exact Hd2|].
  unfold processFile.
  rewrite (ensure_dir _ _ _ _ Hdir), Hext.
  rewrite (read_step _ _ _ code) by (eapply mkdirp_keeps_files; eauto).
  fold outputDir fileName. unfold path.join.
  revert Hd2. unfold outName, jsOutputName, jsBody, jsWarning.
  destruct (config.obfuscateFilenames cfg), (config.minify cfg);
    try destruct (minify code) as [r|]; intros Hd2;
    unfold bind, ret, console_warn, generateObfuscatedName, Date_now,
      fileMapping_set, fs.writeFileSync, console_log, fs.setDisk;
    cbn [disk fileMapping console clock bind ret];
    rewrite ?guard_prefix in *; rewrite Hd2;
    cbn [disk fileMapping console clock]; rewrite <- ?app_assoc, ?app_nil_r;
    reflexivity.
Qed.

Lemma store_at (target : fpath) (data : jsstring) (d0 d1 : node) :
  fs.mkdirp (path.dirname target) d0 = inr d1 ->
  (forall es, fs.find target d1 <> Some (Dir es)) ->
  exists d2, fs.store target data d1 = inr d2.
Proof.
  intros Hdir Hfree.
  destruct (mkdirp_dir _ _ _ Hdir) as [es Hes].
  destruct target as [|c t] eqn:E.
  - exfalso. simpl in Hes. apply (Hfree es). simpl. simpl in Hes. exact Hes.
  - rewrite <- E in *.
    assert (target <> []) as NE by (rewrite E; discriminate).
    rewrite (app_removelast_last (str ".") NE) in Hfree |- *.
    eapply store_ok; eauto.
Qed.

Lemma processFile_html (filePath relativePath : fpath) (st : state)
      (text html : jsstring) (d1 : node) :
  let outputPath := path.join (config.outputDir cfg) relativePath in
  let fileName := path.basename filePath in
  toLowerCase (path.extname filePath) = str ".html"
  \/ toLowerCase (path.extname filePath) = str ".htm" ->
  fs.find filePath (disk st) = Some (File text) ->
  htmlSource cfg text st = Some html ->
  fs.mkdirp (path.dirname outputPath) (disk st) = inr d1 ->
  (forall es, fs.find outputPath d1 <> Some (Dir es)) ->
  exists d2,
    fs.store outputPath (htmlBody cfg minifyHTML html) d1 = inr d2 /\
    processFile cfg minify minifyHTML md5 now filePath relativePath st
    = Ok tt (State d2 (fileMapping st)
               (console st
                ++ htmlWarning cfg minifyHTML fileName html
                ++ [(Log, [10003] ++ str " Processed " ++ path.text relativePath)])
               (clock st)).
Proof.
  intros outputPath fileName Hext Hread Hsrc Hdir Hfree.
  destruct (store_at outputPath (htmlBody cfg minifyHTML html) _ _ Hdir Hfree)
    as [d2 Hd2].
  exists d2; split; [exact Hd2|].
  unfold processFile.
  rewrite (ensure_dir _ _ _ _ Hdir).
  assert (jseq (toLowerCase (path.extname filePath)) (str ".js") = false) as ->
      by (destruct Hext as [-> | ->]; reflexivity).
  assert (jseq (toLowerCase (path.extname filePath)) (str ".html")
          || jseq (toLowerCase (path.extname filePath)) (str ".htm") = true) as ->
      by (destruct Hext as [-> | ->]; reflexivity).
  rewrite (read_step _ _ _ text) by (eapply mkdirp_keeps_files; eauto).
  fold outputPath fileName.
  revert Hd2 Hsrc. unfold htmlSource, htmlBody, htmlWarning.
  destruct (config.obfuscateFilenames cfg), (config.minify cfg);
    try destruct (minifyHTML html) as [r|] eqn:Hm; intros Hd2 Hsrc;
    try (inversion Hsrc; subst html);
    unfold bind, ret, fileMapping_get, liftOption, console_warn,
      fs.writeFileSync, console_log, fs.setDisk;
    cbn [disk fileMapping console clock bind ret];
    rewrite ?Hsrc; rewrite ?Hm; cbn [disk fileMapping console clock];
    rewrite Hd2;
    cbn [disk fileMapping console clock]; rewrite <- ?app_assoc, ?app_nil_r;
    reflexivity.
Qed.

Lemma processFile_css (filePath relativePath : fpath) (st : state)
      (css : jsstring) (d1 : node) :
  let outputPath := path.join (config.outputDir cfg) relativePath in
  toLowerCase (path.extname filePath) = str ".css" ->
  config.minify cfg = true ->
  fs.find filePath (disk st) = Some (File css) ->
  fs.mkdirp (path.dirname outputPath) (disk st) = inr d1 ->
  (forall es, fs.find outputPath d1 <> Some (Dir es)) ->
  exists d2,
    fs.store outputPath (minifyCSS css) d1 = inr d2 /\
    processFile cfg minify minifyHTML md5 now filePath relativePath st
    = Ok tt (State d2 (fileMapping st)
               (console st
                ++ [(Log, [10003] ++ str " Processed " ++ path.text relativePath)])
               (clock st)).
Proof.
  intros outputPath Hext Hmin Hread Hdir Hfree.
  destruct (store_at outputPath (minifyCSS css) _ _ Hdir Hfree) as [d2 Hd2].
  exists d2; split; [exact Hd2|].
  unfold processFile.
  rewrite (ensure_dir _ _ _ _ Hdir), Hext, Hmin.
  change (jseq (str ".css") (str ".js")) with false.
  change (jseq (str ".css") (str ".html") || jseq (str ".css") (str ".htm")) with false.
  change (jseq (str ".css") (str ".css") && true) with true.
  cbv iota.
  rewrite (read_step _ _ _ css) by (eapply mkdirp_keeps_files; eauto).
  fold outputPath.
  unfold bind, fs.writeFileSync, console_log, fs.setDisk.
  cbn [disk fileMapping console clock]. rewrite Hd2. reflexivity.
Qed.

(** Every other file, and a style sheet when minification is off, is copied. *)
Lemma processFile_copy (filePath relativePath : fpath) (st : state)
      (data : jsstring) (d1 : node) :
  let outputPath := path.join (config.outputDir cfg) relativePath in
  let ext := toLowerCase (path.extname filePath) in
  ext <> str ".js" -> ext <> str ".html" -> ext <> str ".htm" ->
  (ext = str ".css" -> config.minify cfg = false) ->
  fs.find filePath (disk st) = Some (File data) ->
  fs.mkdirp (path.dirname outputPath) (disk st) = inr d1 ->
  (forall es, fs.find outputPath d1 <> Some (Dir es)) ->
  exists d2,
    fs.store outputPath data d1 = inr d2 /\
    processFile cfg minify minifyHTML md5 now filePath relativePath st
    = Ok tt (State d2 (fileMapping st)
               (console st
                ++ [(Log, [10003] ++ str " Copied " ++ path.text relativePath)])
               (clock st)).
Proof.
  intros outputPath ext Hjs Hhtml Hhtm Hcss Hread Hdir Hfree.
  destruct (store_at outputPath data _ _ Hdir Hfree) as [d2 Hd2].
  exists d2; split; [exact Hd2|].
  unfold processFile.
  rewrite (ensure_dir _ _ _ _ Hdir). fold ext outputPath.
  apply jseq_neq in Hjs, Hhtml, Hhtm. rewrite Hjs, Hhtml, Hhtm.
  assert (jseq ext (str ".css") && config.minify cfg = false) as ->.
  { destruct (jseq ext (str ".css")) eqn:E; [|reflexivity].
    apply jseq_eq in E. rewrite (Hcss E). reflexivity. }
  cbn [orb]. cbv iota.
  unfold fs.copyFileSync.
  pose proof (mkdirp_keeps_files _ _ _ _ _ Hdir Hread) as Hread1.
  unfold bind, fs.readFileSync, fs.writeFileSync, console_log, fs.setDisk.
  cbn [disk fileMapping console clock]. rewrite Hread1.
  cbn [disk fileMapping console clock]. rewrite Hd2. reflexivity.
Qed.

End BuildFacts.

(** *** Reading a successful run backwards *)









Section Claims.

Variable cfg : config.t.
Variable minify : jsstring -> option jsstring.
Variable minifyHTML : jsstring -> option jsstring.
Variable md5 : jsstring -> jsstring.
Variable now : nat -> N.


Local Opaque firstn.


Local Transparent firstn.

(** C7. The exclusion filter accepts a path exactly when some entry of the
    exclusion list equals its path relative to the source root, or is
    followed there by the separator, or equals its base name. *)
Theorem shouldExclude_iff (filePath : fpath) :
  let relativePath := path.text (path.relative (config.inputDir cfg) filePath) in
  shouldExclude cfg filePath = true <->
  exists excluded, In excluded (config.exclude cfg) /\
    (relativePath = excluded
     \/ (exists rest, relativePath = excluded ++ path.sep ++ rest)
     \/ path.basename filePath = excluded).
Proof.
  intros relativePath. unfold shouldExclude. fold relativePath.
  rewrite existsb_exists. split.
  - intros [x [Hin H]]. exists x. split; [exact Hin|].
    apply orb_true_iff in H. destruct H as [H|H].
    + apply orb_true_iff in H. destruct H as [H|H].
      * left. apply jseq_eq; exact H.
      * right; left. apply startsWith_prefix in H. destruct H as [t Ht].
        exists t. rewrite Ht, app_assoc. reflexivity.
    + right; right. apply jseq_eq; exact H.
  - intros [x [Hin H]]. exists x. split; [exact Hin|].
    destruct H as [H|[[t H]|H]].
    + apply jseq_eq in H. rewrite H. reflexivity.
    + assert (startsWith (x ++ path.sep) relativePath = true) as ->.
      { apply startsWith_prefix. exists t. rewrite H, app_assoc. reflexivity. }
      rewrite orb_true_r. reflexivity.
    + apply jseq_eq in H. rewrite H. apply orb_true_r.
Qed.

(** On the exclusion list of the script: a listed name is excluded at any
    depth, and so is what lies below a listed directory; a name that differs
    by case or only begins with a listed name is not. *)
Lemma shouldExclude_examples :
  shouldExclude config.default [str "dist"] = true
  /\ shouldExclude config.default [str "node_modules"; str "x"; str "y.js"] = true
  /\ shouldExclude config.default [str "docs"; str "README.md"] = true
  /\ shouldExclude config.default [str "Dist"] = false
  /\ shouldExclude config.default [str "dist2"; str "a.js"] = false
  /\ shouldExclude config.default [str "data"] = false.
Proof. repeat split; reflexivity. Qed.

(** C5. When the minifier fails on a JavaScript file, the warning is
    printed, the file is written with the text read from the source after
    the guard, and the computation that follows runs. *)
Theorem js_minify_failure (filePath relativePath : fpath) (st : state)
        (code : jsstring) (d1 : node) :
  let outputDir := path.dirname (path.join (config.outputDir cfg) relativePath) in
  let fileName := path.basename filePath in
  let outName := jsOutputName cfg md5 now fileName st in
  toLowerCase (path.extname filePath) = str ".js" ->
  config.minify cfg = true ->
  fs.find filePath (disk st) = Some (File code) ->
  minify code = None ->
  fs.mkdirp outputDir (disk st) = inr d1 ->
  (forall es, fs.find (outputDir ++ [outName]) d1 <> Some (Dir es)) ->
  exists st',
    processFile cfg minify minifyHTML md5 now filePath relativePath st = Ok tt st'
    /\ In (Warn, [9888] ++ str " Could not minify " ++ fileName
                 ++ str ", copying as-is") (console st')
    /\ fs.find (outputDir ++ [outName]) (disk st')
       = Some (File (getAntiTamperCode cfg ++ code))
    /\ forall k : M unit,
         (processFile cfg minify minifyHTML md5 now filePath relativePath ;; k) st
         = k st'.
Proof.
  intros outputDir fileName outName Hext Hmin Hread Hfail Hdir Hfree.
  assert (jseq (toLowerCase (path.extname filePath)) (str ".js") = true) as Hjs
      by (apply jseq_eq; exact Hext).
  destruct (processFile_js cfg minify minifyHTML md5 now filePath relativePath
              st code d1 Hjs Hread Hdir Hfree) as [d2 [Hst Hrun]].
  unfold jsBody in Hst. unfold jsWarning in Hrun.
  rewrite Hmin, Hfail in Hst, Hrun.
  eexists; split; [exact Hrun|]. cbn [console disk]. split; [|split].
  - apply in_or_app; right. apply in_or_app; left. left. reflexivity.
  - apply store_find in Hst. exact Hst.
  - intros k. unfold bind. rewrite Hrun. reflexivity.
Qed.


(** C6. With a non-empty list of allowed domains the text written for a
    JavaScript file is the guard, followed by the minified text, or by the
    text read when minification is off or has failed; with no list, or an
    empty one, it is that text alone. The guard is the text of lines 73-80,
    character by character, with the list of domains as [JSON.stringify]
    writes it in the place of the template's hole. *)
Theorem guard_prepended (filePath relativePath : fpath) (st : state)
        (code : jsstring) (d1 : node) :
  let outputDir := path.dirname (path.join (config.outputDir cfg) relativePath) in
  let outName := jsOutputName cfg md5 now (path.basename filePath) st in
  let body := jsBody cfg minify code in
  toLowerCase (path.extname filePath) = str ".js" ->
  fs.find filePath (disk st) = Some (File code) ->
  fs.mkdirp outputDir (disk st) = inr d1 ->
  (forall es, fs.find (outputDir ++ [outName]) d1 <> Some (Dir es)) ->
  exists st',
    processFile cfg minify minifyHTML md5 now filePath relativePath st = Ok tt st'
    /\ fs.find (outputDir ++ [outName]) (disk st')
       = Some (File (match config.allowedDomains cfg with
                     | Some (d :: ds) =>
                         (str "(function(){" ++ [10]
                          ++ str "    var a=" ++ JSON_stringify (d :: ds)
                          ++ str ";" ++ [10]
                          ++ str "    var h=location.hostname;" ++ [10]
                          ++ str "    if(location.protocol!=='file:'&&h!==''&&h!=='localhost'&&!h.endsWith('.pages.dev')&&!a.some(function(d){return h===d||h.endsWith('.'+d);})){" ++ [10]
                          ++ str "      document.body.innerHTML='<div style=" ++ [34]
                          ++ str "text-align:center;margin-top:200px;font-size:20px;" ++ [34]
                          ++ str ">Unauthorized Access</div>';" ++ [10]
                          ++ str "      throw new Error('Domain verification failed');" ++ [10]
                          ++ str "    }" ++ [10]
                          ++ str "  })();")
                         ++ body
                     | _ => body
                     end))
    /\ (body = code
        \/ (config.minify cfg = true /\ minify code = Some body)).
Proof.
  intros outputDir outName body Hext Hread Hdir Hfree.
  assert (jseq (toLowerCase (path.extname filePath)) (str ".js") = true) as Hjs
      by (apply jseq_eq; exact Hext).
  destruct (processFile_js cfg minify minifyHTML md5 now filePath relativePath
              st code d1 Hjs Hread Hdir Hfree) as [d2 [Hst Hrun]].
  eexists; split; [exact Hrun|]. cbn [disk]. split.
  - apply store_find in Hst. etransitivity; [exact Hst|].
    unfold getAntiTamperCode, body.
    destruct (config.allowedDomains cfg) as [[|d ds]|]; reflexivity.
  - unfold body, jsBody. destruct (config.minify cfg); [|left; reflexivity].
    destruct (minify code) as [r|]; [right; split; reflexivity | left; reflexivity].
Qed.












End Claims.

(** ** The data stager *)


Lemma copyDir_S (f : nat) (src dest : fpath) :
  copyDir (S f) src dest
  = (ex <- fs.existsSync dest ;;
     when (negb ex) (fs.mkdirSync dest) ;;
     items <- fs.readdirSync src ;;
     forEach items (copyItem f src dest)).
Proof. reflexivity. Qed.



Lemma copyItem_staged (f : nat) (src dest : fpath) (name : jsstring)
      (x : node) (s : state) :
  copyDirOk f ->
  fs.find (src ++ [name]) (disk s) = Some x ->
  isDirAt dest (disk s) ->
  (depth x <= f)%nat ->
  wellFormed x = true ->
  diverge src dest = true ->
  roomForItem name x (fs.find (dest ++ [name]) (disk s)) ->
  exists s', copyItem f src dest name s = Ok tt s'
             /\ staged x name (dest ++ [name]) (disk s) (disk s').
Proof.
  intros IH Hx Hdest Hdepth Hwf Hdiv Hroom.
  unfold copyItem, path.join.
  unfold bind at 1. unfold fs.statSync. rewrite Hx.
  destruct x as [data|T]; cbn [isDirectory].
  - fold (isJson name). destruct (isJson name) eqn:J.
    + destruct Hdest as [es Hes].
      destruct (store_ok dest name data (disk s) es Hes (Hroom J))
        as [d2 Hd2].
      exists (State d2 (fileMapping s)
                    (console s ++ [(Log, [10003] ++ str " Copied "
                                         ++ path.text (path.relative [] (src ++ [name])))])
                    (clock s)).
      split.
      * unfold fs.copyFileSync, bind, fs.readFileSync, fs.writeFileSync,
          console_log, fs.setDisk. rewrite Hx.
        cbn [disk fileMapping console clock]. rewrite Hd2. reflexivity.
      * cbn [disk]. unfold staged. repeat split.
        -- intros p NP _. eapply store_frame; eauto.
        -- intros p. eapply store_keeps_dirs; eauto.
        -- intros q es' F. destruct q; simpl in F; discriminate.
        -- intros q data' F _. destruct q; simpl in F; [|discriminate].
           inversion F; subst. rewrite app_nil_r. eapply store_find; eauto.
        -- intros q data' F. apply store_find in Hd2.
           destruct q as [|c q].
           ++ rewrite app_nil_r in F. rewrite Hd2 in F. inversion F; subst.
              right. split; [exact J | reflexivity].
           ++ rewrite find_app, Hd2 in F. simpl in F. discriminate.
    + exists s. split; [reflexivity|]. unfold staged. repeat split; auto.
      * intros q es' F. destruct q; simpl in F; discriminate.
      * intros q data' F E. destruct q; simpl in F; [|discriminate].
        simpl in E. congruence.
  - simpl in Hroom.
    assert (exists d1, fs.mkdirp (dest ++ [name]) (disk s) = inr d1) as Hmk.
    { apply mkdirp_child; [exact Hdest|].
      intros data E. rewrite E in Hroom. simpl in Hroom. discriminate. }
    apply (IH T name (src ++ [name]) (dest ++ [name]) s); auto.
    apply diverge_app; exact Hdiv.
Qed.

Lemma sibling_apart (dest : fpath) (a b : jsstring) (q : fpath) :
  a <> b ->
  ~ prefixOf ((dest ++ [a]) ++ q) (dest ++ [b])
  /\ ~ prefixOf (dest ++ [b]) ((dest ++ [a]) ++ q).
Proof.
  intros N. split.
  - rewrite <- (app_nil_r (dest ++ [b])). apply apart_left.
    apply diverge_siblings; exact N.
  - rewrite <- (app_nil_r (dest ++ [b])). apply apart_right.
    apply diverge_siblings; exact N.
Qed.

Lemma copyItems_staged (f : nat) (src dest : fpath)
      (l : list (jsstring * node)) :
  copyDirOk f ->
  diverge src dest = true ->
  forall s : state,
    distinct (map fst l) = true ->
    isDirAt dest (disk s) ->
    (forall name x, In (name, x) l ->
       fs.find (src ++ [name]) (disk s) = Some x
       /\ (depth x <= f)%nat
       /\ wellFormed x = true
       /\ roomForItem name x (fs.find (dest ++ [name]) (disk s))) ->
    exists s',
      forEach (map fst l) (copyItem f src dest) s = Ok tt s'
      /\ (forall p,
            (forall name, In name (map fst l) ->
               ~ prefixOf p (dest ++ [name]) /\ ~ prefixOf (dest ++ [name]) p) ->
            fs.find p (disk s') = fs.find p (disk s))
      /\ (forall p, isDirAt p (disk s) -> isDirAt p (disk s'))
      /\ (forall name x, In (name, x) l ->
            (forall q es, fs.find q x = Some (Dir es) ->
                          isDirAt ((dest ++ [name]) ++ q) (disk s'))
            /\ (forall q data, fs.find q x = Some (File data) ->
                               isJson (last q name) = true ->
                               fs.find ((dest ++ [name]) ++ q) (disk s')
                               = Some (File data))
            /\ (forall q data,
                  fs.find ((dest ++ [name]) ++ q) (disk s') = Some (File data) ->
                  fs.find ((dest ++ [name]) ++ q) (disk s) = Some (File data)
                  \/ (isJson (last q name) = true
                      /\ fs.find q x = Some (File data)))).
Proof.
  intros IH Hdiv. induction l as [|[name x] l IHl]; intros s Hdist Hdest Hpre.
  - exists s. split; [reflexivity|]. split; [reflexivity|]. split; [auto|].
    intros ? ? [].
  - simpl map in Hdist. apply distinct_cons in Hdist. destruct Hdist as [Hnot Hdist].
    destruct (Hpre name x (or_introl eq_refl)) as [Hx [Hd [Hw Hr]]].
    destruct (copyItem_staged f src dest name x s IH Hx Hdest Hd Hw Hdiv Hr)
      as [s1 [Hrun1 [F1 [D1 [P3 [P1 E1]]]]]].
    assert (forall n, In n (map fst l) -> n <> name) as Hne.
    { intros n I E. subst n. contradiction. }
    destruct (IHl s1 Hdist (D1 _ Hdest)) as [s' [Hrun [F [D P]]]].
    { intros n y I.
      destruct (Hpre n y (or_intror I)) as [Hy [Hdy [Hwy Hry]]].
      assert (n <> name) as N.
      { apply Hne. apply in_map_iff. exists (n, y). auto. }
      repeat split; auto.
      - rewrite F1; [exact Hy | |].
        + rewrite <- (app_nil_r (src ++ [n])).
          rewrite <- app_assoc. rewrite <- (app_nil_r (dest ++ [name])).
          rewrite <- (app_assoc dest). apply apart_left. exact Hdiv.
        + rewrite <- (app_nil_r (src ++ [n])).
          rewrite <- app_assoc. rewrite <- (app_nil_r (dest ++ [name])).
          rewrite <- (app_assoc dest). apply apart_right. exact Hdiv.
      - rewrite F1; [exact Hry | |].
        + rewrite <- (app_nil_r (dest ++ [n])).
          apply (sibling_apart dest n name []). exact N.
        + rewrite <- (app_nil_r (dest ++ [n])).
          apply (sibling_apart dest n name []). exact N. }
    exists s'. split; [|split; [|split]].
    + simpl. unfold bind. rewrite Hrun1. exact Hrun.
    + intros p Hp. rewrite F.
      * apply F1; apply (Hp name); left; reflexivity.
      * intros n I. apply Hp. right; exact I.
    + intros p Dp. apply D, D1, Dp.
    + intros n y [E|I].
      * inversion E; subst n y; clear E.
        assert (forall q, fs.find ((dest ++ [name]) ++ q) (disk s')
                          = fs.find ((dest ++ [name]) ++ q) (disk s1)) as Same.
        { intros q. apply F. intros n I.
          apply sibling_apart. intros E; subst n. contradiction. }
        split; [|split].
        -- intros q es Fq. apply D. eapply P3; eauto.
        -- intros q data Fq J. rewrite Same. eapply P1; eauto.
        -- intros q data Fq. rewrite Same in Fq. apply E1; exact Fq.
      * destruct (P n y I) as [Pa [Pb Pc]].
        assert (n <> name) as N.
        { apply Hne. apply in_map_iff. exists (n, y). auto. }
        split; [exact Pa|]. split; [exact Pb|].
        intros q data Fq. destruct (Pc q data Fq) as [Old|New]; [|right; exact New].
        left. rewrite <- Old. symmetry. apply F1; apply sibling_apart; exact N.
Qed.

Lemma not_prefix_longer (dest : fpath) (c : jsstring) (q : fpath) :
  ~ prefixOf (dest ++ c :: q) dest.
Proof.
  intros [r H]. apply (f_equal (@List.length _)) in H.
  rewrite !length_app in H. simpl in H. lia.
Qed.

Lemma find_single (name : jsstring) (es : list (jsstring * node)) :
  fs.find [name] (Dir es) = assoc name es.
Proof. simpl. destruct (assoc name es); reflexivity. Qed.

Lemma copyDir_staged (f : nat) : copyDirOk f.
Proof.
  induction f as [|f IH]; intros T name src dest s Hdepth Hsrc Hwf Hdiv [d1 Hmk] Hroom.
  - simpl in Hdepth. lia.
  - rewrite copyDir_S, (ensure_dir _ _ _ _ Hmk).
    assert (fs.find src d1 = Some (Dir T)) as Hsrc1.
    { rewrite (mkdirp_frame _ _ _ _ Hmk); [exact Hsrc|].
      apply diverge_not_prefix; exact Hdiv. }
    unfold bind at 1. unfold fs.readdirSync. cbn [disk fs.setDisk]. rewrite Hsrc1.
    destruct (wellFormed_Dir T Hwf) as [Hdist Hwfc].
    assert (forall q c, fs.find (dest ++ c :: q) d1
                        = fs.find (dest ++ c :: q) (disk s)) as Hsame.
    { intros q c. apply (mkdirp_frame _ _ _ _ Hmk), not_prefix_longer. }
    destruct (copyItems_staged f src dest T IH Hdiv (fs.setDisk d1 s) Hdist)
      as [s' [Hrun [F [D P]]]].
    { cbn [disk fs.setDisk]. eapply mkdirp_dir; eauto. }
    { intros n x I. cbn [disk fs.setDisk].
      split; [|split; [|split]].
      - rewrite find_app, Hsrc1, find_single. apply In_assoc; auto.
      - pose proof (depth_child n x T I). lia.
      - eapply Hwfc; eauto.
      - rewrite Hsame, find_app.
        destruct (fs.find dest (disk s)) as [[data|ds]|] eqn:Fd.
        + simpl in Hroom. discriminate.
        + rewrite find_single. simpl in Hroom.
          rewrite forallb_forall in Hroom. specialize (Hroom (n, x) I).
          simpl in Hroom. unfold roomForItem.
          destruct x as [data|T']; [|exact Hroom].
          intros J es E. rewrite J, E in Hroom. simpl in Hroom. discriminate.
        + unfold roomForItem. destruct x; [intros _ es E; discriminate | reflexivity]. }
    cbn [disk fs.setDisk] in *.
    exists s'. split; [exact Hrun|]. unfold staged. split; [|split; [|split; [|split]]].
    + intros p NP1 NP2. rewrite F.
      * apply (mkdirp_frame _ _ _ _ Hmk). exact NP1.
      * intros n _. split.
        -- intros H. apply prefixOf_snoc in H. destruct H as [H|H]; [contradiction|].
           apply NP2. exists [n]. exact H.
        -- intros H. apply NP2. eapply prefixOf_app; eauto.
    + intros p Dp. apply D. eapply mkdirp_keeps_dirs; eauto.
    + intros q es Fq. destruct q as [|c q].
      * rewrite app_nil_r. apply D. eapply mkdirp_dir; eauto.
      * simpl in Fq. destruct (assoc c T) as [x|] eqn:A; [|discriminate].
        destruct (P c x (assoc_In _ _ _ A)) as [Pa _].
        specialize (Pa q es Fq). rewrite <- app_assoc in Pa. exact Pa.
    + intros q data Fq J. destruct q as [|c q]; [discriminate|].
      simpl in Fq. destruct (assoc c T) as [x|] eqn:A; [|discriminate].
      destruct (P c x (assoc_In _ _ _ A)) as [_ [Pb _]].
      rewrite last_cons in J.
      specialize (Pb q data Fq J). rewrite <- app_assoc in Pb. exact Pb.
    + intros q data Fq. destruct q as [|c q].
      * rewrite app_nil_r in Fq.
        destruct (D dest (mkdirp_dir _ _ _ Hmk)) as [es E]. congruence.
      * rewrite last_cons. destruct (assoc c T) as [x|] eqn:A.
        -- destruct (P c x (assoc_In _ _ _ A)) as [_ [_ Pc]].
           change (dest ++ c :: q) with (dest ++ [c] ++ q) in Fq |- *.
           rewrite app_assoc in Fq |- *.
           destruct (Pc q data Fq) as [Old|[J New]].
           ++ left. rewrite <- Old, <- app_assoc. symmetry. apply Hsame.
           ++ right. split; [exact J|]. simpl. rewrite A. exact New.
        -- left. rewrite <- Fq, <- Hsame. symmetry. apply F.
           intros n I. change (dest ++ c :: q) with (dest ++ [c] ++ q).
           rewrite app_assoc. apply sibling_apart.
           intros E; subst n. apply (assoc_None _ _ A). exact I.
Qed.

Lemma copyDataDirectory_staged (cfg : config.t) (fuel : nat) (st : state)
      (T : list (jsstring * node)) (d1 : node) :
  fs.find dataLlmSrc (disk st) = Some (Dir T) ->
  wellFormed (Dir T) = true ->
  (depth (Dir T) <= fuel)%nat ->
  diverge dataLlmSrc (dataLlmDest cfg) = true ->
  fs.mkdirp (dataLlmDest cfg) (disk st) = inr d1 ->
  roomFor (Dir T) (fs.find (dataLlmDest cfg) (disk st)) = true ->
  exists st',
    copyDataDirectory cfg fuel st = Ok tt st'
    /\ staged (Dir T) [] (dataLlmDest cfg) (disk st) (disk st').
Proof.
  intros Hsrc Hwf Hdepth Hdiv Hmk Hroom.
  unfold copyDataDirectory. unfold bind at 1. unfold fs.existsSync. rewrite Hsrc.
  cbn [negb]. unfold bind at 1. unfold console_log at 1.
  match goal with
  | |- exists st', copyDir _ _ _ ?s = _ /\ _ =>
      destruct (copyDir_staged fuel T [] dataLlmSrc (dataLlmDest cfg) s)
        as [st' [Hrun Hst]]; cbn [disk]; eauto
  end.
Qed.

(** The test of line 237, character by character. *)
Lemma lowerChar_letter (c k : jschar) :
  97 <= k -> k <= 122 -> k <> 107 ->
  (lowerChar c =? k) = ((c =? k) || (c =? k - 32)).
Proof.
  intros K1 K2 K3. unfold lowerChar.
  destruct (N.leb_spec 65 c); destruct (N.leb_spec c 90); cbn [andb];
    try destruct (N.eqb_spec c 8490);
    destruct (N.eqb_spec c k); destruct (N.eqb_spec c (k - 32)); cbn [orb];
    try match goal with
        | |- (?x =? ?y) = _ => destruct (N.eqb_spec x y)
        end; first [reflexivity | lia].
Qed.

Lemma lowerChar_dot (c : jschar) : (lowerChar c =? 46) = (c =? 46).
Proof.
  unfold lowerChar.
  destruct (N.leb_spec 65 c); destruct (N.leb_spec c 90); cbn [andb];
    try destruct (N.eqb_spec c 8490);
    destruct (N.eqb_spec c 46);
    try match goal with
        | |- (?x =? ?y) = _ => destruct (N.eqb_spec x y)
        end; first [reflexivity | lia].
Qed.

Lemma toLowerCase_json (ext : jsstring) :
  jseq (toLowerCase ext) (str ".json") = isDotJson ext.
Proof.
  unfold toLowerCase, isDotJson.
  change (str ".json") with [46; 106; 115; 111; 110].
  destruct ext as [|d [|j [|s [|o [|n [|x r]]]]]]; cbn [map jseq];
    rewrite ?lowerChar_dot, ?lowerChar_letter by lia;
    rewrite ?andb_false_r, ?andb_true_r, ?andb_assoc; reflexivity.
Qed.

Lemma isJson_isDotJson (name : jsstring) :
  isJson name = isDotJson (path.extname [name]).
Proof. apply toLowerCase_json. Qed.

(** X20. The stager by itself. It copies every file of [data/llm] whose
    extension is a dot followed by j, s, o, n in either case, however deep
    the file lies, with its content; every file found under the output
    [data/llm] afterwards stood there with that content before the stager
    ran or is such a copy; when [data/llm] does not exist the stager prints
    a line and ends normally, leaving the disk as it is; and the exclusion
    list plays no part in it. *)
Theorem stager_copies_json (cfg : config.t) (fuel : nat) (st : state)
        (T : list (jsstring * node)) (d1 : node) :
  fs.find dataLlmSrc (disk st) = Some (Dir T) ->
  wellFormed (Dir T) = true ->
  (depth (Dir T) <= fuel)%nat ->
  diverge dataLlmSrc (dataLlmDest cfg) = true ->
  fs.mkdirp (dataLlmDest cfg) (disk st) = inr d1 ->
  roomFor (Dir T) (fs.find (dataLlmDest cfg) (disk st)) = true ->
  exists st',
    copyDataDirectory cfg fuel st = Ok tt st'
    /\ (forall q data,
          fs.find (dataLlmSrc ++ q) (disk st) = Some (File data) ->
          isDotJson (path.extname [last q []]) = true ->
          fs.find (dataLlmDest cfg ++ q) (disk st') = Some (File data))
    /\ (forall q data,
          fs.find (dataLlmDest cfg ++ q) (disk st') = Some (File data) ->
          fs.find (dataLlmDest cfg ++ q) (disk st) = Some (File data)
          \/ (isDotJson (path.extname [last q []]) = true
              /\ fs.find (dataLlmSrc ++ q) (disk st) = Some (File data)))
    /\ (forall s0 : state,
          fs.find dataLlmSrc (disk s0) = None ->
          copyDataDirectory cfg fuel s0
          = Ok tt (State (disk s0) (fileMapping s0)
                         (console s0
                          ++ [(Log, [9888]
                                    ++ str " No data/llm directory found, skipping...")])
                         (clock s0)))
    /\ (forall excluded : list jsstring,
          copyDataDirectory
            (config.Build (config.inputDir cfg) (config.outputDir cfg) excluded
                          (config.obfuscateFilenames cfg) (config.minify cfg)
                          (config.allowedDomains cfg)) fuel
          = copyDataDirectory cfg fuel).
Proof.
  intros Hsrc Hwf Hdepth Hdiv Hmk Hroom.
  destruct (copyDataDirectory_staged cfg fuel st T d1 Hsrc Hwf Hdepth Hdiv Hmk Hroom)
    as [st' [Hrun [_ [_ [_ [P1 E]]]]]].
  exists st'. split; [exact Hrun|]. split; [|split; [|split; [|reflexivity]]].
  - intros q data Fq J. apply P1.
    + rewrite find_app, Hsrc in Fq. exact Fq.
    + rewrite isJson_isDotJson. exact J.
  - intros q data Fq. destruct (E q data Fq) as [Old|[J New]]; [left; exact Old|].
    right. split; [rewrite <- isJson_isDotJson; exact J|].
    rewrite find_app, Hsrc. exact New.
  - intros s0 H0. unfold copyDataDirectory, bind, fs.existsSync. rewrite H0.
    reflexivity.
Qed.

(** X21. The stager by itself. It makes a directory in the output for every
    directory below [data/llm], whatever it holds. Where such a directory
    holds no JSON file at any depth, the stager puts no file in its copy:
    a file found there afterwards stood there before the stager ran; and
    when nothing stood at the place of the copy before, no file lies in it
    at any depth afterwards. *)
Theorem stager_makes_directories (cfg : config.t) (fuel : nat) (st : state)
        (T : list (jsstring * node)) (d1 : node) :
  fs.find dataLlmSrc (disk st) = Some (Dir T) ->
  wellFormed (Dir T) = true ->
  (depth (Dir T) <= fuel)%nat ->
  diverge dataLlmSrc (dataLlmDest cfg) = true ->
  fs.mkdirp (dataLlmDest cfg) (disk st) = inr d1 ->
  roomFor (Dir T) (fs.find (dataLlmDest cfg) (disk st)) = true ->
  exists st',
    copyDataDirectory cfg fuel st = Ok tt st'
    /\ (forall q es,
          fs.find (dataLlmSrc ++ q) (disk st) = Some (Dir es) ->
          isDirAt (dataLlmDest cfg ++ q) (disk st'))
    /\ (forall q es,
          fs.find (dataLlmSrc ++ q) (disk st) = Some (Dir es) ->
          (forall r data,
             fs.find (dataLlmSrc ++ q ++ r) (disk st) = Some (File data) ->
             isDotJson (path.extname [last r []]) = false) ->
          (forall r data,
             fs.find (dataLlmDest cfg ++ q ++ r) (disk st') = Some (File data) ->
             fs.find (dataLlmDest cfg ++ q ++ r) (disk st) = Some (File data))
          /\ (fs.find (dataLlmDest cfg ++ q) (disk st) = None ->
              forall r data,
                fs.find (dataLlmDest cfg ++ q ++ r) (disk st')
                <> Some (File data))).
Proof.
  intros Hsrc Hwf Hdepth Hdiv Hmk Hroom.
  destruct (copyDataDirectory_staged cfg fuel st T d1 Hsrc Hwf Hdepth Hdiv Hmk Hroom)
    as [st' [Hrun [_ [_ [P3 [_ E]]]]]].
  exists st'. split; [exact Hrun|]. split.
  - intros q es Fq. apply (P3 q es). rewrite find_app, Hsrc in Fq. exact Fq.
  - intros q es Fq NoJson.
    assert (forall r data,
               fs.find (dataLlmDest cfg ++ q ++ r) (disk st') = Some (File data) ->
               fs.find (dataLlmDest cfg ++ q ++ r) (disk st) = Some (File data))
      as Kept.
    { intros r data Fr.
      destruct (E (q ++ r) data Fr) as [Old|[J New]]; [exact Old|].
      exfalso. destruct r as [|c r].
      + rewrite app_nil_r in New. rewrite find_app, Hsrc in Fq. congruence.
      + assert (last (q ++ c :: r) [] = last (c :: r) []) as L.
        { clear. induction q as [|a q IH]; [reflexivity|].
          change ((a :: q) ++ c :: r) with (a :: (q ++ c :: r)).
          rewrite last_cons, <- IH.
          destruct (q ++ c :: r) eqn:Q; [destruct q; discriminate|].
          rewrite !last_cons. reflexivity. }
        rewrite L, isJson_isDotJson in J.
        assert (fs.find (dataLlmSrc ++ q ++ c :: r) (disk st) = Some (File data))
          as Fs.
        { rewrite find_app, Hsrc. exact New. }
        rewrite (NoJson _ _ Fs) in J. discriminate. }
    split; [exact Kept|].
    intros Hnone r data Fr. apply Kept in Fr.
    rewrite app_assoc, find_app, Hnone in Fr. discriminate.
Qed.

(** ** Runs on the sample inputs *)

(** C1, on the site with a script in a subdirectory. The script is written
    as [dist/assets/4e92cc6d.js]; the page that loaded [assets/app.js] is written
    with the reference [4e92cc6d.js], without the directory. *)
Theorem script_directory_dropped :
  exists st',
    main (Sample.cfg true false None) Sample.failing Sample.failing
         Sample.md5 Sample.now [] 5 (Sample.start Sample.nested) = Ok tt st'
    /\ fileMapping st' = [(str "app.js", str "4e92cc6d.js")]
    /\ fs.find [str "dist"; str "assets"; str "4e92cc6d.js"] (disk st')
       = Some (File (str "console.log(1)"))
    /\ fs.find [str "index.html"] (disk st')
       = Some (File (Sample.page ([34] ++ str "assets/app.js" ++ [34])))
    /\ fs.find [str "dist"; str "index.html"] (disk st')
       = Some (File (Sample.page ([34] ++ str "4e92cc6d.js" ++ [34])))
    /\ fs.find [str "dist"; str "4e92cc6d.js"] (disk st') = None.
Proof. eexists. split; [vm_compute; reflexivity|]. vm_compute. auto 10. Qed.



(** C4 fails as stated: removing a comment can bring a [/] and a [*]
    together, and the second pass removes the comment so made. *)
Lemma minifyCSS_not_idempotent :
  minifyCSS (str "//* x */* y */") = str "/* y */"
  /\ minifyCSS (minifyCSS (str "//* x */* y */")) = []
  /\ minifyCSS (minifyCSS (str "//* x */* y */"))
     <> minifyCSS (str "//* x */* y */").
Proof.
  split; [reflexivity|]. split; [reflexivity|]. vm_compute. discriminate.
Qed.

(** C8, in a run of the whole script with its own configuration, on a site
    that holds [data/llm/x.json] and [data/llm/x.pdf]. The entry [data] is
    not in the exclusion list, so the tree walk of line 256 copies all of
    [data] before the stager of line 259 runs: both [x.json] and [x.pdf]
    stand in the output [data/llm] at the end. The stager alone, on the
    same site, leaves no [x.pdf] there. *)
Theorem walk_puts_pdf_in_output :
  exists st' alone,
    main config.default Sample.failing Sample.failing
         Sample.md5 Sample.now [] 5 (Sample.start Sample.data) = Ok tt st'
    /\ shouldExclude config.default [str "data"] = false
    /\ shouldExclude config.default [str "data"; str "llm"; str "x.pdf"] = false
    /\ fs.find [str "dist"; str "data"; str "llm"; str "x.json"] (disk st')
       = Some (File (str "{}"))
    /\ fs.find [str "dist"; str "data"; str "llm"; str "x.pdf"] (disk st')
       = Some (File (str "%PDF"))
    /\ copyDataDirectory config.default 5 (Sample.start Sample.data)
       = Ok tt alone
    /\ fs.find [str "dist"; str "data"; str "llm"; str "x.json"] (disk alone)
       = Some (File (str "{}"))
    /\ fs.find [str "dist"; str "data"; str "llm"; str "x.pdf"] (disk alone)
       = None.
Proof.
  eexists. eexists. split; [vm_compute; reflexivity|].
  split; [reflexivity|]. split; [reflexivity|].
  split; [vm_compute; reflexivity|]. split; [vm_compute; reflexivity|].
  split; [vm_compute; reflexivity|]. split; vm_compute; reflexivity.
Qed.

(** C10, in a run of the whole script with its own configuration, on a
    site whose [data/llm/raw] holds one file, which is not a JSON file.
    The directory [raw] appears in the output, but not empty: the tree
    walk of line 256 has copied [notes.txt] into it before the stager
    runs. The stager alone, on the same site, makes [raw] and leaves it
    empty. *)
Theorem walk_fills_staged_directory :
  exists st' alone,
    main config.default Sample.failing Sample.failing
         Sample.md5 Sample.now [] 5 (Sample.start Sample.data) = Ok tt st'
    /\ fs.find [str "data"; str "llm"; str "raw"] Sample.data
       = Some (Dir [(str "notes.txt", File (str "n"))])
    /\ isDotJson (path.extname [str "notes.txt"]) = false
    /\ fs.find [str "dist"; str "data"; str "llm"; str "raw"] (disk st')
       = Some (Dir [(str "notes.txt", File (str "n"))])
    /\ copyDataDirectory config.default 5 (Sample.start Sample.data)
       = Ok tt alone
    /\ fs.find [str "dist"; str "data"; str "llm"; str "raw"] (disk alone)
       = Some (Dir []).
Proof.
  eexists. eexists. split; [vm_compute; reflexivity|].
  split; [reflexivity|]. split; [reflexivity|].
  split; [vm_compute; reflexivity|].
  split; vm_compute; reflexivity.
Qed.

(** ** Witnesses

    Each theorem above that has hypotheses, applied to a sample input. *)

Lemma js_minify_failure_witness :
  exists st',
    processFile (Sample.cfg true true (Some [str "example.com"]))
                Sample.failing Sample.failing Sample.md5 Sample.now
                [str "a.js"] [str "a.js"] (Sample.start Sample.flat) = Ok tt st'
    /\ fs.find [str "dist"; str "b1cd24ed.js"] (disk st')
       = Some (File (guardText (str "[" ++ [34] ++ str "example.com" ++ [34] ++ str "]")
                     ++ str "console.log(1)")).
Proof.
  destruct (js_minify_failure
              (Sample.cfg true true (Some [str "example.com"]))
              Sample.failing Sample.failing Sample.md5 Sample.now
              [str "a.js"] [str "a.js"] (Sample.start Sample.flat)
              (str "console.log(1)")
              (Dir [(str "a.js", File (str "console.log(1)"));
                    (str "index.html", File (Sample.page (str "'a.js'")));
                    (str "style.css", File (str "a { color : red }"));
                    (str "dist", Dir [])]))
    as [st' [Hrun [_ [Hfind _]]]].
  - reflexivity.
  - reflexivity.
  - reflexivity.
  - reflexivity.
  - reflexivity.
  - intros es H. vm_compute in H. discriminate.
  - exists st'. split; [exact Hrun|]. exact Hfind.
Defined.

Lemma guard_prepended_witness :
  (exists st',
     processFile (Sample.cfg false true
                             (Some [str "example.com"; str "myapp.pages.dev"]))
                 Sample.trimming Sample.failing Sample.md5 Sample.now
                 [str "a.js"] [str "a.js"] (Sample.start Sample.flat) = Ok tt st'
     /\ fs.find [str "dist"; str "a.js"] (disk st')
        = Some (File
                  (str "(function(){" ++ [10]
                   ++ str "    var a=[" ++ [34] ++ str "example.com" ++ [34]
                   ++ str "," ++ [34] ++ str "myapp.pages.dev" ++ [34]
                   ++ str "];" ++ [10]
                   ++ str "    var h=location.hostname;" ++ [10]
                   ++ str "    if(location.protocol!=='file:'&&h!==''&&h!=='localhost'&&!h.endsWith('.pages.dev')&&!a.some(function(d){return h===d||h.endsWith('.'+d);})){" ++ [10]
                   ++ str "      document.body.innerHTML='<div style=" ++ [34]
                   ++ str "text-align:center;margin-top:200px;font-size:20px;" ++ [34]
                   ++ str ">Unauthorized Access</div>';" ++ [10]
                   ++ str "      throw new Error('Domain verification failed');" ++ [10]
                   ++ str "    }" ++ [10]
                   ++ str "  })();"
                   ++ str "console.log(1)")))
  /\ (exists st',
        processFile (Sample.cfg false true (Some []))
                    Sample.trimming Sample.failing Sample.md5 Sample.now
                    [str "a.js"] [str "a.js"] (Sample.start Sample.flat) = Ok tt st'
        /\ fs.find [str "dist"; str "a.js"] (disk st')
           = Some (File (str "console.log(1)"))).
Proof.
  split.
  - destruct (guard_prepended
                (Sample.cfg false true
                            (Some [str "example.com"; str "myapp.pages.dev"]))
                Sample.trimming Sample.failing Sample.md5 Sample.now
                [str "a.js"] [str "a.js"] (Sample.start Sample.flat)
                (str "console.log(1)")
                (Dir [(str "a.js", File (str "console.log(1)"));
                      (str "index.html", File (Sample.page (str "'a.js'")));
                      (str "style.css", File (str "a { color : red }"));
                      (str "dist", Dir [])]))
      as [st' [Hrun [Hfind _]]].
    + reflexivity.
    + reflexivity.
    + reflexivity.
    + intros es H. vm_compute in H. discriminate.
    + exists st'. split; [exact Hrun|].
      etransitivity; [exact Hfind | vm_compute; reflexivity].
  - destruct (guard_prepended
                (Sample.cfg false true (Some []))
                Sample.trimming Sample.failing Sample.md5 Sample.now
                [str "a.js"] [str "a.js"] (Sample.start Sample.flat)
                (str "console.log(1)")
                (Dir [(str "a.js", File (str "console.log(1)"));
                      (str "index.html", File (Sample.page (str "'a.js'")));
                      (str "style.css", File (str "a { color : red }"));
                      (str "dist", Dir [])]))
      as [st' [Hrun [Hfind _]]].
    + reflexivity.
    + reflexivity.
    + reflexivity.
    + intros es H. vm_compute in H. discriminate.
    + exists st'. split; [exact Hrun|].
      etransitivity; [exact Hfind | vm_compute; reflexivity].
Defined.




Lemma minifyCSS_idempotent_witness :
  hasComment (minifyCSS (str "a { color : red ; } /* c */  b , c { }  ")) = false
  /\ minifyCSS (minifyCSS (str "a { color : red ; } /* c */  b , c { }  "))
     = str "a{color:red;}b,c{}".
Proof.
  split; [reflexivity|].
  rewrite (minifyCSS_idempotent (str "a { color : red ; } /* c */  b , c { }  "));
    reflexivity.
Defined.

Lemma stager_copies_json_witness :
  exists pre st' alone,
    bind (createOutputDirectory config.default)
         (fun _ => processDirectory config.default Sample.failing Sample.failing
                                    Sample.md5 Sample.now 5 [] [])
         (Sample.start Sample.cased) = Ok tt pre
    /\ fs.find [str "dist"; str "data"; str "llm"; str "x.pdf"] (disk pre)
       = Some (File (str "%PDF"))
    /\ copyDataDirectory config.default 5 pre = Ok tt st'
    /\ fs.find [str "dist"; str "data"; str "llm"; str "Facts.JSON"] (disk st')
       = Some (File (str "[1]"))
    /\ fs.find [str "dist"; str "data"; str "llm"; str "x.json"] (disk st')
       = Some (File (str "{}"))
    /\ copyDataDirectory config.default 5 (Sample.start Sample.cased)
       = Ok tt alone
    /\ fs.find [str "dist"; str "data"; str "llm"; str "Facts.JSON"] (disk alone)
       = Some (File (str "[1]"))
    /\ fs.find [str "dist"; str "data"; str "llm"; str "x.json"] (disk alone)
       = Some (File (str "{}"))
    /\ (forall data,
          fs.find [str "dist"; str "data"; str "llm"; str "x.pdf"] (disk alone)
          <> Some (File data))
    /\ (forall data,
          fs.find [str "dist"; str "data"; str "llm"; str "raw"; str "notes.txt"]
                  (disk alone)
          <> Some (File data)).
Proof.
  pose (pre := match bind (createOutputDirectory config.default)
                          (fun _ => processDirectory config.default
                                      Sample.failing Sample.failing
                                      Sample.md5 Sample.now 5 [] [])
                          (Sample.start Sample.cased) with
               | Ok _ s => s
               | _ => Sample.start (Dir [])
               end).
  edestruct (stager_copies_json config.default 5 pre)
    as [st' [Hrun [P1 _]]].
  - vm_compute. reflexivity.
  - reflexivity.
  - vm_compute. lia.
  - reflexivity.
  - vm_compute. reflexivity.
  - reflexivity.
  - edestruct (stager_copies_json config.default 5 (Sample.start Sample.cased))
      as [alone [Halone [Q1 [E _]]]].
    + vm_compute. reflexivity.
    + reflexivity.
    + vm_compute. lia.
    + reflexivity.
    + vm_compute. reflexivity.
    + reflexivity.
    + exists pre, st', alone.
      split; [vm_compute; reflexivity|].
      split; [vm_compute; reflexivity|].
      split; [exact Hrun|].
      split; [apply (P1 [str "Facts.JSON"]); reflexivity|].
      split; [apply (P1 [str "x.json"]); reflexivity|].
      split; [exact Halone|].
      split; [apply (Q1 [str "Facts.JSON"]); reflexivity|].
      split; [apply (Q1 [str "x.json"]); reflexivity|].
      split.
      * intros data H. destruct (E [str "x.pdf"] data H) as [Old|[J _]].
        -- vm_compute in Old. discriminate.
        -- vm_compute in J. discriminate.
      * intros data H.
        destruct (E [str "raw"; str "notes.txt"] data H) as [Old|[J _]].
        -- vm_compute in Old. discriminate.
        -- vm_compute in J. discriminate.
Defined.

Lemma stager_makes_directories_witness :
  exists st' pre st'',
    copyDataDirectory config.default 5 (Sample.start Sample.data) = Ok tt st'
    /\ isDirAt [str "dist"; str "data"; str "llm"; str "raw"] (disk st')
    /\ (forall r data,
          fs.find ([str "dist"; str "data"; str "llm"; str "raw"] ++ r) (disk st')
          <> Some (File data))
    /\ bind (createOutputDirectory config.default)
            (fun _ => processDirectory config.default
                        Sample.failing Sample.failing
                        Sample.md5 Sample.now 5 [] [])
            (Sample.start Sample.data) = Ok tt pre
    /\ copyDataDirectory config.default 5 pre = Ok tt st''
    /\ isDirAt [str "dist"; str "data"; str "llm"; str "raw"] (disk st'')
    /\ (forall r data,
          fs.find ([str "dist"; str "data"; str "llm"; str "raw"] ++ r) (disk st'')
          = Some (File data) ->
          fs.find ([str "dist"; str "data"; str "llm"; str "raw"] ++ r) (disk pre)
          = Some (File data)).
Proof.
  pose (pre := match bind (createOutputDirectory config.default)
                          (fun _ => processDirectory config.default
                                      Sample.failing Sample.failing
                                      Sample.md5 Sample.now 5 [] [])
                          (Sample.start Sample.data) with
               | Ok _ s => s
               | _ => Sample.start (Dir [])
               end).
  assert (forall s : state,
             fs.find (dataLlmSrc ++ [str "raw"]) (disk s)
             = Some (Dir [(str "notes.txt", File (str "n"))]) ->
             forall r data0,
               fs.find (dataLlmSrc ++ [str "raw"] ++ r) (disk s)
               = Some (File data0) ->
               isDotJson (path.extname [last r []]) = false) as NoJson.
  { intros s Hraw r data0 Hr. rewrite app_assoc, find_app, Hraw in Hr.
    destruct r as [|c r]; [discriminate|].
    cbn [fs.find assoc] in Hr.
    destruct (jseq (str "notes.txt") c) eqn:J; [|discriminate].
    apply jseq_eq in J. subst c.
    destruct r; [reflexivity | discriminate]. }
  edestruct (stager_makes_directories config.default 5
               (Sample.start Sample.data)) as [st' [Hrun [P3 E]]].
  - vm_compute. reflexivity.
  - reflexivity.
  - vm_compute. lia.
  - reflexivity.
  - vm_compute. reflexivity.
  - reflexivity.
  - edestruct (stager_makes_directories config.default 5 pre)
      as [st'' [Hrun' [P3' E']]].
    + vm_compute. reflexivity.
    + reflexivity.
    + vm_compute. lia.
    + reflexivity.
    + vm_compute. reflexivity.
    + reflexivity.
    + exists st', pre, st''.
      split; [exact Hrun|]. split.
      { eapply (P3 [str "raw"]). vm_compute. reflexivity. }
      split.
      { assert (fs.find (dataLlmSrc ++ [str "raw"])
                        (disk (Sample.start Sample.data))
                = Some (Dir [(str "notes.txt", File (str "n"))])) as Hraw
            by reflexivity.
        destruct (E [str "raw"] _ Hraw (NoJson _ Hraw)) as [_ Empty].
        intros r data. apply (Empty eq_refl r data). }
      split; [vm_compute; reflexivity|].
      split; [exact Hrun'|]. split.
      { eapply (P3' [str "raw"]). vm_compute. reflexivity. }
      assert (fs.find (dataLlmSrc ++ [str "raw"]) (disk pre)
              = Some (Dir [(str "notes.txt", File (str "n"))])) as Hraw
          by (vm_compute; reflexivity).
      destruct (E' [str "raw"] _ Hraw (NoJson _ Hraw)) as [Kept _].
      exact Kept.
Defined.

(* ===================================================================== *)
(** * The rest of the script *)
(* ===================================================================== *)

(** ** Paths below a base *)

Lemma relative_app (base r : fpath) : path.relative base (base ++ r) = r.
Proof.
  induction base as [|a base IH]; [destruct r; reflexivity|].
  simpl. rewrite jseq_refl. exact IH.
Qed.

Lemma prefixOf_refl (p : fpath) : prefixOf p p.
Proof. exists []. rewrite app_nil_r. reflexivity. Qed.

Lemma prefixOf_extend (p q r : fpath) : prefixOf p q -> prefixOf p (q ++ r).
Proof. intros [t H]. exists (t ++ r). rewrite H, app_assoc. reflexivity. Qed.

Lemma prefixOf_dirname (out rel : fpath) :
  rel <> [] -> prefixOf out (path.dirname (path.join out rel)).
Proof.
  intros NE. unfold path.dirname, path.join. rewrite removelast_app by exact NE.
  exists (removelast rel). reflexivity.
Qed.

(** A path that parts from [out] leads to nothing below [out]. *)
Lemma diverge_outside (q out p : fpath) :
  diverge q out = true -> prefixOf out p -> ~ prefixOf q p.
Proof.
  intros D [r Hr] [t Ht]. subst p.
  pose proof (diverge_app q out t [] D) as D'.
  rewrite app_nil_r, <- Ht in D'.
  rewrite diverge_sym in D'. apply diverge_not_prefix in D'.
  apply D'. exists r. reflexivity.
Qed.

Lemma assoc_filter_other {A : Type} (c k : jsstring) (es : list (jsstring * A)) :
  k <> c ->
  assoc k (filter (fun e => negb (jseq (fst e) c)) es) = assoc k es.
Proof.
  intros N. induction es as [|[k0 v0] es IH]; [reflexivity|].
  simpl. destruct (jseq k0 c) eqn:J; simpl.
  - apply jseq_eq in J; subst k0.
    assert (jseq c k = false) as -> by (apply jseq_neq; congruence). exact IH.
  - destruct (jseq k0 k); [reflexivity | exact IH].
Qed.

Lemma assoc_filter_same {A : Type} (c : jsstring) (es : list (jsstring * A)) :
  assoc c (filter (fun e => negb (jseq (fst e) c)) es) = None.
Proof.
  induction es as [|[k0 v0] es IH]; [reflexivity|].
  simpl. destruct (jseq k0 c) eqn:J; simpl; [exact IH|]. rewrite J. exact IH.
Qed.

(** Removing a path changes nothing at the paths that part from it. *)
Lemma remove_frame (p q : fpath) (n : node) :
  diverge q p = true -> fs.find q (fs.remove p n) = fs.find q n.
Proof.
  revert q n; induction p as [|c p IH]; intros q n D.
  - destruct q; discriminate.
  - destruct q as [|c2 q]; [discriminate|].
    simpl in D. destruct n as [d|es]; [destruct p; reflexivity|].
    destruct (jseq c2 c) eqn:J.
    + apply jseq_eq in J; subst c2.
      destruct p as [|c3 p]; [destruct q; discriminate|].
      cbn [fs.remove]. destruct (assoc c es) as [m|] eqn:A; [|reflexivity].
      cbn [fs.find]. rewrite assoc_set_same, A. apply IH; exact D.
    + apply jseq_neq in J.
      destruct p as [|c3 p].
      * cbn [fs.remove fs.find]. rewrite assoc_filter_other by exact J. reflexivity.
      * cbn [fs.remove]. destruct (assoc c es) as [m|] eqn:A; [|reflexivity].
        cbn [fs.find]. rewrite assoc_set_other by congruence. reflexivity.
Qed.

(** ** Relations kept by every step of a run *)

Section Invariants.

Variable cfg : config.t.
Variable minify : jsstring -> option jsstring.
Variable minifyHTML : jsstring -> option jsstring.
Variable md5 : jsstring -> jsstring.
Variable now : nat -> N.
Variable cwd : fpath.

Variable R : state -> state -> Prop.

Hypothesis R_refl : forall s, R s s.
Hypothesis R_trans : forall s1 s2 s3, R s1 s2 -> R s2 s3 -> R s1 s3.

(** The lines that the run may print. *)
Variable printable : jsstring -> Prop.

Hypothesis printable_progress :
  forall msg, progressText msg = true -> printable msg.
Hypothesis R_log : forall msg, printable msg -> respects R (console_log msg).
Hypothesis R_warn : forall msg, printable msg -> respects R (console_warn msg).
Hypothesis R_mkdir :
  forall p, prefixOf (config.outputDir cfg) p -> respects R (fs.mkdirSync p).
Hypothesis R_write :
  forall p data, prefixOf (config.outputDir cfg) p ->
                 respects R (fs.writeFileSync p data).
Hypothesis R_rm : respects R (fs.rmSync (config.outputDir cfg)).
Hypothesis R_record :
  config.obfuscateFilenames cfg = true ->
  forall filePath,
    jseq (toLowerCase (path.extname filePath)) (str ".js") = true ->
    respects R (name <- generateObfuscatedName md5 now (path.basename filePath) ;;
                fileMapping_set (path.basename filePath) name ;;
                ret name).

Lemma respects_ret {A : Type} (a : A) : respects R (ret a).
Proof. intros s. apply R_refl. Qed.

Lemma respects_bind {A B : Type} (m : M A) (f : A -> M B) :
  respects R m -> (forall a, respects R (f a)) -> respects R (bind m f).
Proof.
  intros Hm Hf s. unfold bind. specialize (Hm s).
  destruct (m s) as [a s1|e s1| |]; auto.
  specialize (Hf a s1). destruct (f a s1); eauto.
Qed.

Lemma respects_when (b : bool) (m : M unit) :
  respects R m -> respects R (when b m).
Proof. intros H. destruct b; [exact H | apply respects_ret]. Qed.

Lemma respects_forEach {A : Type} (l : list A) (body : A -> M unit) :
  (forall x, respects R (body x)) -> respects R (forEach l body).
Proof.
  intros H. induction l as [|x l IH]; [apply respects_ret|].
  apply respects_bind; auto.
Qed.

Lemma respects_existsSync (p : fpath) : respects R (fs.existsSync p).
Proof. intros s. apply R_refl. Qed.

Lemma respects_readFileSync (p : fpath) : respects R (fs.readFileSync p).
Proof.
  intros s. unfold fs.readFileSync.
  destruct (fs.find p (disk s)) as [[d|es]|]; apply R_refl.
Qed.

Lemma respects_readdirSync (p : fpath) : respects R (fs.readdirSync p).
Proof.
  intros s. unfold fs.readdirSync.
  destruct (fs.find p (disk s)) as [[d|es]|]; apply R_refl.
Qed.

Lemma respects_statSync (p : fpath) : respects R (fs.statSync p).
Proof.
  intros s. unfold fs.statSync. destruct (fs.find p (disk s)); apply R_refl.
Qed.

Lemma respects_console_log (msg : jsstring) :
  progressText msg = true -> respects R (console_log msg).
Proof. intros H. apply R_log, printable_progress, H. Qed.

Lemma respects_console_warn (msg : jsstring) :
  progressText msg = true -> respects R (console_warn msg).
Proof. intros H. apply R_warn, printable_progress, H. Qed.

Lemma respects_fileMapping_get : respects R fileMapping_get.
Proof. intros s. apply R_refl. Qed.

Lemma respects_liftOption {A : Type} (o : option A) : respects R (liftOption o).
Proof. intros s. unfold liftOption. destruct o; [apply R_refl | exact I]. Qed.

Lemma respects_copyFileSync (src dest : fpath) :
  prefixOf (config.outputDir cfg) dest -> respects R (fs.copyFileSync src dest).
Proof.
  intros P. apply respects_bind; [apply respects_readFileSync|].
  intros data. apply R_write; exact P.
Qed.

Lemma respects_createOutputDirectory : respects R (createOutputDirectory cfg).
Proof.
  unfold createOutputDirectory.
  apply respects_bind; [apply respects_existsSync|]. intros ex.
  apply respects_bind; [apply respects_when, R_rm|]. intros _.
  apply R_mkdir, prefixOf_refl.
Qed.

(** The file transformer, called as the walker calls it: on a relative
    path that is not empty. *)
Lemma respects_processFile (filePath relativePath : fpath) :
  relativePath <> [] ->
  respects R (processFile cfg minify minifyHTML md5 now filePath relativePath).
Proof.
  intros NE.
  pose proof (prefixOf_dirname (config.outputDir cfg) relativePath NE) as PD.
  assert (prefixOf (config.outputDir cfg)
                   (path.join (config.outputDir cfg) relativePath)) as PO
      by (exists relativePath; reflexivity).
  unfold processFile.
  apply respects_bind; [apply respects_existsSync|]. intros ex.
  apply respects_bind; [apply respects_when, R_mkdir, PD|]. intros _.
  destruct (jseq (toLowerCase (path.extname filePath)) (str ".js")) eqn:Ejs.
  - apply respects_bind; [apply respects_readFileSync|]. intros code.
    apply respects_bind.
    { destruct (config.minify cfg); [|apply respects_ret].
      destruct (minify code); [apply respects_ret|].
      apply respects_bind; [apply respects_console_warn; reflexivity|].
      intros _. apply respects_ret. }
    intros outputCode.
    apply respects_bind.
    { destruct (config.obfuscateFilenames cfg) eqn:O; [|apply respects_ret].
      apply (R_record eq_refl filePath Ejs). }
    intros outputFileName.
    apply respects_bind; [|intros _; apply respects_console_log; reflexivity].
    apply R_write. apply prefixOf_extend, PD.
  - destruct (jseq (toLowerCase (path.extname filePath)) (str ".html")
              || jseq (toLowerCase (path.extname filePath)) (str ".htm")).
    + apply respects_bind; [apply respects_readFileSync|]. intros html.
      apply respects_bind.
      { destruct (config.obfuscateFilenames cfg); [|apply respects_ret].
        apply respects_bind; [apply respects_fileMapping_get|].
        intros mapping. apply respects_liftOption. }
      intros html1.
      apply respects_bind.
      { destruct (config.minify cfg); [|apply respects_ret].
        destruct (minifyHTML html1); [apply respects_ret|].
        apply respects_bind; [apply respects_console_warn; reflexivity|].
        intros _. apply respects_ret. }
      intros html2.
      apply respects_bind; [|intros _; apply respects_console_log; reflexivity].
      apply R_write, PO.
    + destruct (jseq (toLowerCase (path.extname filePath)) (str ".css")
                && config.minify cfg).
      * apply respects_bind; [apply respects_readFileSync|]. intros css.
        apply respects_bind; [|intros _; apply respects_console_log; reflexivity].
        apply R_write, PO.
      * apply respects_bind; [|intros _; apply respects_console_log; reflexivity].
        apply respects_copyFileSync, PO.
Qed.

Lemma respects_processDirectory (fuel : nat) (baseDir r : fpath) :
  respects R (processDirectory cfg minify minifyHTML md5 now fuel
                               (baseDir ++ r) baseDir).
Proof.
  revert r; induction fuel as [|fuel IH]; intros r; [intros s; exact I|].
  cbn [processDirectory].
  apply respects_bind; [apply respects_readdirSync|]. intros items.
  apply respects_forEach. intros item.
  destruct (shouldExclude cfg (path.join (baseDir ++ r) [item]));
    [apply respects_ret|].
  apply respects_bind; [apply respects_statSync|]. intros stat.
  unfold path.join. rewrite <- app_assoc.
  destruct (isDirectory stat); [apply IH|].
  apply respects_processFile. rewrite relative_app. destruct r; discriminate.
Qed.

Lemma respects_copyDir (fuel : nat) (src dest : fpath) :
  prefixOf (config.outputDir cfg) dest -> respects R (copyDir fuel src dest).
Proof.
  revert src dest; induction fuel as [|fuel IH]; intros src dest P;
    [intros s; exact I|].
  cbn [copyDir].
  apply respects_bind; [apply respects_existsSync|]. intros ex.
  apply respects_bind; [apply respects_when, R_mkdir, P|]. intros _.
  apply respects_bind; [apply respects_readdirSync|]. intros items.
  apply respects_forEach. intros item.
  apply respects_bind; [apply respects_statSync|]. intros stat.
  destruct (isDirectory stat); [apply IH, prefixOf_extend, P|].
  destruct (jseq (toLowerCase (path.extname [item])) (str ".json"));
    [|apply respects_ret].
  apply respects_bind; [|intros _; apply respects_console_log; reflexivity].
  apply respects_copyFileSync, prefixOf_extend, P.
Qed.

Lemma respects_copyDataDirectory (fuel : nat) :
  respects R (copyDataDirectory cfg fuel).
Proof.
  unfold copyDataDirectory.
  apply respects_bind; [apply respects_existsSync|]. intros ex.
  destruct (negb ex); [apply respects_console_log; reflexivity|].
  apply respects_bind; [apply respects_console_log; reflexivity|]. intros _.
  apply respects_copyDir. exists [str "data"; str "llm"]. reflexivity.
Qed.

Lemma respects_walk (fuel : nat) :
  respects R (processDirectory cfg minify minifyHTML md5 now fuel
                               (config.inputDir cfg) (config.inputDir cfg)).
Proof.
  pose proof (respects_processDirectory fuel (config.inputDir cfg) []) as H.
  rewrite app_nil_r in H. exact H.
Qed.

(** The lines of [build] itself are not lines of progress. *)
Hypothesis printable_any : forall msg, printable msg.

Lemma respects_build (fuel : nat) :
  respects R (build cfg minify minifyHTML md5 now cwd fuel).
Proof.
  unfold build.
  repeat (apply respects_bind; [apply R_log, printable_any|]; intros _).
  apply respects_bind; [apply respects_walk|].
  intros _. apply respects_bind; [apply respects_copyDataDirectory|]. intros _.
  apply respects_bind; [apply R_log, printable_any|]. intros _.
  apply R_log, printable_any.
Qed.

Lemma respects_main (fuel : nat) :
  respects R (main cfg minify minifyHTML md5 now cwd fuel).
Proof.
  unfold main. apply respects_bind; [apply respects_createOutputDirectory|].
  intros _. apply respects_build.
Qed.

End Invariants.

Lemma respects_endsIn {A : Type} (R : state -> state -> Prop) (m : M A)
      (s s' : state) :
  respects R m -> endsIn (m s) s' -> R s s'.
Proof.
  intros H E. specialize (H s).
  destruct (m s); simpl in E; subst; tauto.
Qed.

(** ** What a run leaves alone *)

Section Frames.

Variable cfg : config.t.
Variable minify : jsstring -> option jsstring.
Variable minifyHTML : jsstring -> option jsstring.
Variable md5 : jsstring -> jsstring.
Variable now : nat -> N.
Variable cwd : fpath.

Lemma sameOutside_refl (out : fpath) (s : state) : sameOutside out s s.
Proof. intros q _. reflexivity. Qed.

Lemma sameOutside_trans (out : fpath) (s1 s2 s3 : state) :
  sameOutside out s1 s2 -> sameOutside out s2 s3 -> sameOutside out s1 s3.
Proof. intros H1 H2 q D. rewrite (H2 q D). apply H1, D. Qed.

Lemma sameOutside_disk (out : fpath) (s s' : state) :
  disk s' = disk s -> sameOutside out s s'.
Proof. intros E q _. rewrite E. reflexivity. Qed.

Lemma mkdirSync_sameOutside (out p : fpath) :
  prefixOf out p -> respects (sameOutside out) (fs.mkdirSync p).
Proof.
  intros P s. unfold fs.mkdirSync.
  destruct (fs.mkdirp p (disk s)) as [e|d] eqn:E; [apply sameOutside_refl|].
  intros q D. cbn [fs.setDisk disk].
  apply (mkdirp_frame _ _ _ _ E). apply (diverge_outside _ _ _ D P).
Qed.

Lemma writeFileSync_sameOutside (out p : fpath) (data : jsstring) :
  prefixOf out p -> respects (sameOutside out) (fs.writeFileSync p data).
Proof.
  intros P s. unfold fs.writeFileSync.
  destruct (fs.store p data (disk s)) as [e|d] eqn:E; [apply sameOutside_refl|].
  intros q D. cbn [fs.setDisk disk].
  apply (store_frame _ _ _ _ _ E). apply (diverge_outside _ _ _ D P).
Qed.

Lemma rmSync_sameOutside (out : fpath) :
  respects (sameOutside out) (fs.rmSync out).
Proof. intros s q D. cbn [fs.setDisk disk]. apply remove_frame, D. Qed.

Lemma record_sameOutside (out : fpath) (fileName : jsstring) :
  respects (sameOutside out)
           (name <- generateObfuscatedName md5 now fileName ;;
            fileMapping_set fileName name ;;
            ret name).
Proof. intros s. apply sameOutside_disk. reflexivity. Qed.

Lemma main_sameOutside (fuel : nat) :
  respects (sameOutside (config.outputDir cfg))
           (main cfg minify minifyHTML md5 now cwd fuel).
Proof.
  apply respects_main with (printable := fun _ => True).
  - apply sameOutside_refl.
  - apply sameOutside_trans.
  - intros msg _. exact I.
  - intros msg _ s. apply sameOutside_disk. reflexivity.
  - intros msg _ s. apply sameOutside_disk. reflexivity.
  - intros p. apply mkdirSync_sameOutside.
  - intros p data. apply writeFileSync_sameOutside.
  - apply rmSync_sameOutside.
  - intros _ filePath _. apply record_sameOutside.
  - intros msg. exact I.
Qed.

(** X1. A run of the whole script that ends by returning or by throwing an
    error of the file system creates, writes and removes in the output
    directory only: a path that parts from the output directory leads
    after the run to what it led to before.
    Runs that end otherwise are not covered: with file names obfuscated,
    a page is rewritten while the mapping holds a script name with a
    character of pattern syntax other than the dot, and line 147 builds a
    pattern that [match_here] does not cover. *)
Theorem run_changes_output_only (fuel : nat) (s s' : state) (q : fpath) :
  endsIn (main cfg minify minifyHTML md5 now cwd fuel s) s' ->
  diverge q (config.outputDir cfg) = true ->
  fs.find q (disk s') = fs.find q (disk s).
Proof.
  intros E D. exact (respects_endsIn _ _ _ _ (main_sameOutside fuel) E q D).
Qed.

Lemma sameMeta_trans (s1 s2 s3 : state) :
  sameMeta s1 s2 -> sameMeta s2 s3 -> sameMeta s1 s3.
Proof. unfold sameMeta. congruence. Qed.

Lemma mkdirSync_sameMeta (p : fpath) : respects sameMeta (fs.mkdirSync p).
Proof.
  intros s. unfold fs.mkdirSync. destruct (fs.mkdirp p (disk s)); reflexivity.
Qed.

Lemma writeFileSync_sameMeta (p : fpath) (data : jsstring) :
  respects sameMeta (fs.writeFileSync p data).
Proof.
  intros s. unfold fs.writeFileSync.
  destruct (fs.store p data (disk s)); reflexivity.
Qed.

(** X2. With the obfuscation of file names off, as the script has it, a run
    reads the clock at no point and records no name: the mapping and the
    count of readings of the clock are after the run what they were
    before. *)
Theorem plain_names_no_clock (fuel : nat) (s s' : state) :
  config.obfuscateFilenames cfg = false ->
  endsIn (main cfg minify minifyHTML md5 now cwd fuel s) s' ->
  fileMapping s' = fileMapping s /\ clock s' = clock s.
Proof.
  intros O E.
  assert (sameMeta s s') as H.
  { refine (respects_endsIn _ _ _ _ _ E).
    apply respects_main with (printable := fun _ => True).
    - reflexivity.
    - apply sameMeta_trans.
    - intros msg _. exact I.
    - intros msg _ x. reflexivity.
    - intros msg _ x. reflexivity.
    - intros p _. apply mkdirSync_sameMeta.
    - intros p data _. apply writeFileSync_sameMeta.
    - intros x. reflexivity.
    - intros O'. congruence.
    - intros msg. exact I. }
  unfold sameMeta, meta in H. injection H as H1 H2. auto.
Qed.

(** X3. The data stager leaves the mapping of file names as it is and does
    not read the clock, however its run ends. *)
Theorem stager_keeps_mapping (fuel : nat) (s s' : state) :
  endsIn (copyDataDirectory cfg fuel s) s' ->
  fileMapping s' = fileMapping s /\ clock s' = clock s.
Proof.
  intros E.
  assert (sameMeta s s') as H.
  { refine (respects_endsIn _ _ _ _ _ E).
    apply respects_copyDataDirectory with (printable := fun _ => True).
    - reflexivity.
    - apply sameMeta_trans.
    - intros msg _. exact I.
    - intros msg _ x. reflexivity.
    - intros p _. apply mkdirSync_sameMeta.
    - intros p data _. apply writeFileSync_sameMeta. }
  unfold sameMeta, meta in H. injection H as H1 H2. auto.
Qed.

Lemma mappingGrows_refl (s : state) : mappingGrows md5 s s.
Proof. intros k v H. left; exact H. Qed.

Lemma mappingGrows_trans (s1 s2 s3 : state) :
  mappingGrows md5 s1 s2 -> mappingGrows md5 s2 s3 -> mappingGrows md5 s1 s3.
Proof.
  intros H1 H2 k v H. destruct (H2 k v H) as [H'|G]; [|right; exact G].
  apply H1, H'.
Qed.

Lemma mappingGrows_same (s s' : state) :
  fileMapping s' = fileMapping s -> mappingGrows md5 s s'.
Proof. intros E k v H. left. rewrite <- E. exact H. Qed.

Lemma extname_of_script (filePath : fpath) :
  jseq (toLowerCase (path.extname filePath)) (str ".js") = true ->
  path.extname [path.basename filePath] = path.extname filePath.
Proof. destruct filePath; [discriminate | reflexivity]. Qed.

Lemma record_mappingGrows (filePath : fpath) :
  jseq (toLowerCase (path.extname filePath)) (str ".js") = true ->
  respects (mappingGrows md5)
           (name <- generateObfuscatedName md5 now (path.basename filePath) ;;
            fileMapping_set (path.basename filePath) name ;;
            ret name).
Proof.
  intros Ejs s k v. cbn.
  destruct (jseq (path.basename filePath) k) eqn:J.
  - apply jseq_eq in J; subst k. rewrite assoc_set_same.
    intros H; injection H as <-. right. split.
    + rewrite (extname_of_script _ Ejs). apply jseq_eq, Ejs.
    + exists (now (clock s)). reflexivity.
  - apply jseq_neq in J. rewrite assoc_set_other by exact J. auto.
Qed.

(** X4. After a run of the whole script that ends by returning or by
    throwing an error of the file system, an entry of the mapping that was
    not there before is the name of a script (its extension is [.js] in
    some case of the letters) sent to eight characters of a digest
    followed by that same extension.
    Runs that end otherwise are not covered: with file names obfuscated,
    a page is rewritten while the mapping holds a script name with a
    character of pattern syntax other than the dot, and line 147 builds a
    pattern that [match_here] does not cover. *)
Theorem mapping_records_scripts (fuel : nat) (s s' : state) (k v : jsstring) :
  endsIn (main cfg minify minifyHTML md5 now cwd fuel s) s' ->
  assoc k (fileMapping s') = Some v ->
  assoc k (fileMapping s) = Some v
  \/ (toLowerCase (path.extname [k]) = str ".js"
      /\ exists t : N,
           v = firstn 8 (md5 (k ++ numberToString t)) ++ path.extname [k]).
Proof.
  intros E. refine (respects_endsIn (mappingGrows md5) _ _ _ _ E k v).
  apply respects_main with (printable := fun _ => True).
  - apply mappingGrows_refl.
  - apply mappingGrows_trans.
  - intros msg _. exact I.
  - intros msg _ x. apply mappingGrows_same. reflexivity.
  - intros msg _ x. apply mappingGrows_same. reflexivity.
  - intros p _ x. unfold fs.mkdirSync.
    destruct (fs.mkdirp p (disk x)); apply mappingGrows_same; reflexivity.
  - intros p data _ x. unfold fs.writeFileSync.
    destruct (fs.store p data (disk x)); apply mappingGrows_same; reflexivity.
  - intros x. apply mappingGrows_same. reflexivity.
  - intros _ filePath Ejs. apply record_mappingGrows, Ejs.
  - intros msg. exact I.
Qed.

End Frames.

(** ** The output directory (lines 61-64) *)

Lemma remove_child (p : fpath) (c : jsstring) (n : node)
      (es : list (jsstring * node)) :
  fs.find p n = Some (Dir es) ->
  fs.find p (fs.remove (p ++ [c]) n)
  = Some (Dir (filter (fun e => negb (jseq (fst e) c)) es)).
Proof.
  revert n; induction p as [|a p IH]; intros n F.
  - simpl in F. injection F as ->. reflexivity.
  - simpl in F. destruct n as [d|es0]; [discriminate|].
    destruct (assoc a es0) as [m|] eqn:A; [|discriminate].
    change ((a :: p) ++ [c]) with (a :: (p ++ [c])).
    destruct (p ++ [c]) as [|x r] eqn:E; [destruct p; discriminate|].
    change (fs.remove (a :: x :: r) (Dir es0))
      with (match assoc a es0 with
            | Some n' => Dir (assocSet a (fs.remove (x :: r) n') es0)
            | None => Dir es0
            end).
    rewrite A. cbn [fs.find]. rewrite assoc_set_same. apply IH, F.
Qed.

Lemma mkdirp_new (p : fpath) (c : jsstring) (n : node)
      (es : list (jsstring * node)) :
  fs.find p n = Some (Dir es) -> assoc c es = None ->
  exists n', fs.mkdirp (p ++ [c]) n = inr n'
             /\ fs.find (p ++ [c]) n' = Some (Dir []).
Proof.
  revert n; induction p as [|a p IH]; intros n F A.
  - simpl in F. injection F as ->. simpl. rewrite A.
    eexists. split; [reflexivity|]. simpl. rewrite assoc_set_same. reflexivity.
  - simpl in F. destruct n as [d|es0]; [discriminate|].
    destruct (assoc a es0) as [m|] eqn:Am; [|discriminate].
    destruct (IH m F A) as [n' [Hn' Fn']].
    simpl. rewrite Am, Hn'. eexists. split; [reflexivity|].
    simpl. rewrite assoc_set_same. exact Fn'.
Qed.

Section OutputDirectory.

Variable cfg : config.t.

Lemma createOutputDirectory_effect (s : state) :
  config.outputDir cfg <> [] ->
  isDirAt (path.dirname (config.outputDir cfg)) (disk s) ->
  exists d,
    createOutputDirectory cfg s = Ok tt (fs.setDisk d s)
    /\ fs.find (config.outputDir cfg) d = Some (Dir [])
    /\ forall q, diverge q (config.outputDir cfg) = true ->
                 fs.find q d = fs.find q (disk s).
Proof.
  intros NE [es F].
  set (out := config.outputDir cfg) in *.
  pose proof (app_removelast_last (str ".") NE) as Eout.
  set (p := removelast out) in *. set (c := last out (str ".")) in *.
  unfold path.dirname in F. fold p in F.
  unfold createOutputDirectory. fold out. unfold bind, fs.existsSync.
  destruct (fs.find out (disk s)) as [x|] eqn:X; cbn [when negb].
  - unfold fs.rmSync, fs.mkdirSync. cbn [fs.setDisk disk fileMapping console clock].
    pose proof (remove_child p c (disk s) es F) as F'.
    rewrite <- Eout in F'.
    destruct (mkdirp_new p c _ _ F' (assoc_filter_same c es)) as [n' [Hn' Fn']].
    rewrite <- Eout in Hn', Fn'. rewrite Hn'.
    exists n'. split; [reflexivity|]. split; [exact Fn'|].
    intros q D. rewrite (mkdirp_frame _ _ _ _ Hn').
    + apply remove_frame, D.
    + apply (diverge_outside _ _ _ D (prefixOf_refl out)).
  - unfold ret, fs.mkdirSync.
    assert (assoc c es = None) as A.
    { rewrite Eout, find_app, F in X. simpl in X.
      destruct (assoc c es); [discriminate | reflexivity]. }
    destruct (mkdirp_new p c _ _ F A) as [n' [Hn' Fn']].
    rewrite <- Eout in Hn', Fn'. rewrite Hn'.
    exists n'. split; [reflexivity|]. split; [exact Fn'|].
    intros q D. apply (mkdirp_frame _ _ _ _ Hn').
    apply (diverge_outside _ _ _ D (prefixOf_refl out)).
Qed.


(** X5. Before anything else the script makes the output directory anew: where
    the directory that is to hold it exists, the output directory is empty
    afterwards, whatever stood in its place, and nothing has changed at the
    paths that part from it, in the mapping, on the console or on the
    clock. *)
Theorem output_directory_made_anew (s : state) :
  config.outputDir cfg <> [] ->
  isDirAt (path.dirname (config.outputDir cfg)) (disk s) ->
  exists d,
    createOutputDirectory cfg s = Ok tt (fs.setDisk d s)
    /\ fs.find (config.outputDir cfg) d = Some (Dir [])
    /\ forall q, diverge q (config.outputDir cfg) = true ->
                 fs.find q d = fs.find q (disk s).
Proof. apply createOutputDirectory_effect. Qed.

End OutputDirectory.

(** ** Obfuscated names (lines 41-45) *)

Lemma lastDotSuffix_fixed (s r : jsstring) :
  path.lastDotSuffix s = Some r -> path.lastDotSuffix r = Some r.
Proof.
  induction s as [|a t IH]; [discriminate|].
  simpl. destruct (path.lastDotSuffix t) as [r'|] eqn:E.
  - intros H; injection H as <-. apply IH. reflexivity.
  - destruct (a =? 46) eqn:D; [|discriminate].
    intros H; injection H as <-. simpl. rewrite E, D. reflexivity.
Qed.

Lemma lastDotSuffix_skip (h s : jsstring) :
  forallb isHexDigit h = true ->
  path.lastDotSuffix (h ++ s) = path.lastDotSuffix s.
Proof.
  induction h as [|a h IH]; [reflexivity|].
  simpl. intros H. apply andb_true_iff in H. destruct H as [Ha Hh].
  rewrite (IH Hh). destruct (path.lastDotSuffix s); [reflexivity|].
  assert ((a =? 46) = false) as ->; [|reflexivity].
  apply N.eqb_neq. intros ->. discriminate.
Qed.

Lemma extnameOfName_fixed (name : jsstring) :
  path.extnameOfName name = []
  \/ path.lastDotSuffix (path.extnameOfName name)
     = Some (path.extnameOfName name).
Proof.
  destruct name as [|a t]; [left; reflexivity|].
  simpl. destruct (path.lastDotSuffix t) as [r|] eqn:E; [|left; reflexivity].
  destruct ((a =? 46) && jseq t [46]); [left; reflexivity|].
  right. eapply lastDotSuffix_fixed. exact E.
Qed.

Lemma extname_after_hash (hash name : jsstring) :
  hash <> [] -> forallb isHexDigit hash = true ->
  path.extname [hash ++ path.extname [name]] = path.extname [name].
Proof.
  intros NE H. destruct hash as [|a h]; [congruence|].
  change (path.extname [name]) with (path.extnameOfName name).
  set (e := path.extnameOfName name).
  change (path.extname [(a :: h) ++ e]) with (path.extnameOfName (a :: h ++ e)).
  simpl in H. apply andb_true_iff in H. destruct H as [Ha Hh].
  cbn [path.extnameOfName]. rewrite (lastDotSuffix_skip _ _ Hh).
  destruct (extnameOfName_fixed name) as [E|E]; fold e in E.
  - rewrite E. reflexivity.
  - rewrite E.
    assert (jseq (a :: h ++ e) (str "..") = false) as ->; [|reflexivity].
    simpl. assert ((a =? 46) = false) as ->; [|reflexivity].
    apply N.eqb_neq. intros ->. discriminate.
Qed.

Section ObfuscatedNames.

Variable md5 : jsstring -> jsstring.
Variable now : nat -> N.

(** X6. The obfuscated name of a file keeps the extension of the file: where
    the digest of the name and the time starts with eight hexadecimal
    digits, the new name is these eight digits followed by the extension
    of the old name, and its own extension is that of the old name. The
    clock is read once; nothing else changes. *)
Theorem obfuscated_name_keeps_extension (originalName : jsstring) (s : state) :
  let digest := md5 (originalName ++ numberToString (now (clock s))) in
  (8 <= List.length digest)%nat ->
  forallb isHexDigit (firstn 8 digest) = true ->
  exists hash,
    generateObfuscatedName md5 now originalName s
    = Ok (hash ++ path.extname [originalName])
         (State (disk s) (fileMapping s) (console s) (S (clock s)))
    /\ List.length hash = 8%nat
    /\ forallb isHexDigit hash = true
    /\ path.extname [hash ++ path.extname [originalName]]
       = path.extname [originalName].
Proof.
  intros digest L H. exists (firstn 8 digest).
  split; [reflexivity|].
  assert (List.length (firstn 8 digest) = 8%nat) as Len
      by (rewrite length_firstn; lia).
  split; [exact Len|]. split; [exact H|].
  apply extname_after_hash; [|exact H].
  intros E. rewrite E in Len. discriminate.
Qed.

End ObfuscatedNames.

(** ** Directories made on the way to an output file *)

Lemma prefixOf_dec (p q : fpath) : prefixOf p q \/ ~ prefixOf p q.
Proof.
  revert q; induction p as [|a p IH]; intros q; [left; apply prefixOf_nil|].
  destruct q as [|b q].
  - right. intros [r H]. discriminate.
  - destruct (jseq a b) eqn:J.
    + apply jseq_eq in J; subst b. destruct (IH q) as [P|N].
      * left. apply prefixOf_cons, P.
      * right. intros P. apply N. apply (prefixOf_cons a), P.
    + right. apply prefixOf_cons_ne. apply jseq_neq, J.
Qed.

(** [mkdir -p] succeeds where no file stands on the path. *)
Lemma mkdirp_total (p : fpath) (n : node) :
  (forall p' data, prefixOf p' p -> fs.find p' n <> Some (File data)) ->
  exists n', fs.mkdirp p n = inr n'.
Proof.
  revert n; induction p as [|c p IH]; intros n H.
  - destruct n as [d|es]; [|simpl; eauto].
    exfalso. apply (H [] d); [apply prefixOf_nil | reflexivity].
  - destruct n as [d|es].
    { exfalso. apply (H [] d); [apply prefixOf_nil | reflexivity]. }
    simpl.
    destruct (IH (match assoc c es with Some n' => n' | None => Dir [] end))
      as [n' Hn'].
    + intros p' data P F. apply (H (c :: p') data).
      * apply prefixOf_cons, P.
      * simpl. destruct (assoc c es) as [m|]; [exact F|].
        destruct p'; discriminate.
    + rewrite Hn'. eauto.
Qed.

Lemma mkdirp_prefix_dir (p q : fpath) (n n' : node) :
  fs.mkdirp p n = inr n' -> prefixOf q p -> isDirAt q n'.
Proof.
  intros H [r E]. destruct (mkdirp_dir _ _ _ H) as [es F].
  subst p. rewrite find_app in F.
  destruct (fs.find q n') as [[d|es']|] eqn:Q; try discriminate.
  - destruct r; discriminate.
  - exists es'. exact Q.
Qed.

Lemma not_prefix_of_dirname (p : fpath) :
  p <> [] -> ~ prefixOf p (path.dirname p).
Proof.
  intros NE [r E]. apply (f_equal (@List.length _)) in E.
  rewrite (app_removelast_last (str ".") NE) in E at 2.
  unfold path.dirname in E. rewrite !length_app in E. simpl in E. lia.
Qed.

(** [mkdir -p] makes no file. *)
Lemma mkdirp_no_new_file (p q : fpath) (n n' : node) (x : jsstring) :
  fs.mkdirp p n = inr n' ->
  fs.find q n' = Some (File x) -> fs.find q n = Some (File x).
Proof.
  intros H F. destruct (prefixOf_dec q p) as [P|NP].
  - destruct (mkdirp_prefix_dir _ _ _ _ H P) as [es D]. congruence.
  - rewrite <- (mkdirp_frame _ _ _ _ H NP). exact F.
Qed.

(** The error of a path on which no file stands is [ENOENT]. *)
Lemma missing_no_file (p : fpath) (n : node) :
  (forall q x, prefixOf q p -> fs.find q n <> Some (File x)) ->
  fs.missing p n = ENOENT.
Proof.
  revert n; induction p as [|c p IH]; intros n H; [reflexivity|].
  destruct n as [d|es].
  - exfalso. apply (H [] d); [apply prefixOf_nil | reflexivity].
  - simpl. destruct (assoc c es) as [m|] eqn:A; [|reflexivity].
    apply IH. intros q x P F. apply (H (c :: q) x).
    + apply prefixOf_cons, P.
    + simpl. rewrite A. exact F.
Qed.

(** The error of a path that runs through a file is [ENOTDIR]. *)
Lemma missing_through_file (q p : fpath) (n : node) (x : jsstring) :
  prefixOf q p -> fs.find q n = Some (File x) -> fs.find p n = None ->
  fs.missing p n = ENOTDIR.
Proof.
  revert p n; induction q as [|a q IH]; intros p n P F N.
  - simpl in F. injection F as ->. destruct p; [discriminate | reflexivity].
  - destruct P as [r E]. subst p. simpl in F, N |- *.
    destruct n as [d|es]; [discriminate|].
    destruct (assoc a es) as [m|]; [|discriminate].
    apply (IH _ _ (ex_intro _ r eq_refl) F N).
Qed.

Section OtherFiles.

Variable cfg : config.t.
Variable minify : jsstring -> option jsstring.
Variable minifyHTML : jsstring -> option jsstring.
Variable md5 : jsstring -> jsstring.
Variable now : nat -> N.

(** X7. A file that is no script, no page and no style sheet to minify is
    copied as it is: where no file stands on the way to its place in the
    output and no directory in that place, the output holds the very text
    of the source at the mirrored path, one line is logged, and the mapping
    and the clock are left alone. *)
Theorem other_file_copied (filePath relativePath : fpath) (s : state)
        (data : jsstring) :
  let outputPath := path.join (config.outputDir cfg) relativePath in
  let ext := toLowerCase (path.extname filePath) in
  ext <> str ".js" -> ext <> str ".html" -> ext <> str ".htm" ->
  (ext = str ".css" -> config.minify cfg = false) ->
  relativePath <> [] ->
  fs.find filePath (disk s) = Some (File data) ->
  (forall p x, prefixOf p (path.dirname outputPath) ->
               fs.find p (disk s) <> Some (File x)) ->
  (forall es, fs.find outputPath (disk s) <> Some (Dir es)) ->
  exists s',
    processFile cfg minify minifyHTML md5 now filePath relativePath s = Ok tt s'
    /\ fs.find outputPath (disk s') = Some (File data)
    /\ console s' = console s ++ [(Log, [10003] ++ str " Copied "
                                        ++ path.text relativePath)]
    /\ fileMapping s' = fileMapping s /\ clock s' = clock s.
Proof.
  intros outputPath ext Hjs Hhtml Hhtm Hcss NE Hread Hway Hfree.
  destruct (mkdirp_total _ _ Hway) as [d1 Hd1].
  assert (outputPath <> []) as NEo.
  { unfold outputPath, path.join. intros E. apply app_eq_nil in E. tauto. }
  destruct (processFile_copy cfg minify minifyHTML md5 now filePath relativePath
                             s data d1 Hjs Hhtml Hhtm Hcss Hread Hd1)
    as [d2 [Hd2 Hrun]].
  - intros es. fold outputPath.
    rewrite (mkdirp_frame _ _ _ _ Hd1 (not_prefix_of_dirname _ NEo)).
    apply Hfree.
  - eexists. split; [exact Hrun|]. cbn [disk console fileMapping clock].
    split; [exact (store_find _ _ _ _ Hd2)|]. auto.
Qed.

(** X8. The directory of the output is made before the source is read.
    When nothing stands at the path of the source, that path does not lead
    to the directory of the output, and no file stands on the way to that
    directory, the transformer throws in every branch, with that directory
    made and nothing written, logged or recorded: [ENOENT] when no file
    stands on the path of the source, [ENOTDIR] when that path runs
    through a file. *)
Theorem missing_source_throws (filePath relativePath : fpath) (s : state) :
  let outputDir := path.dirname (path.join (config.outputDir cfg) relativePath) in
  fs.find filePath (disk s) = None ->
  ~ prefixOf filePath outputDir ->
  (forall p x, prefixOf p outputDir -> fs.find p (disk s) <> Some (File x)) ->
  exists d1 e,
    processFile cfg minify minifyHTML md5 now filePath relativePath s
    = Throw e (fs.setDisk d1 s)
    /\ fs.mkdirp outputDir (disk s) = inr d1
    /\ isDirAt outputDir d1
    /\ ((forall p x, prefixOf p filePath ->
                     fs.find p (disk s) <> Some (File x)) ->
        e = ENOENT)
    /\ (forall p x, prefixOf p filePath ->
                    fs.find p (disk s) = Some (File x) ->
                    e = ENOTDIR).
Proof.
  intros outputDir Hnone Hnp Hway.
  destruct (mkdirp_total _ _ Hway) as [d1 Hd1].
  assert (fs.find filePath d1 = None) as F1
      by (rewrite (mkdirp_frame _ _ _ _ Hd1 Hnp); exact Hnone).
  exists d1, (fs.missing filePath d1).
  split; [|split; [exact Hd1|split; [|split]]].
  - assert (fs.find filePath (disk (fs.setDisk d1 s)) = None) as F by exact F1.
    unfold processFile. fold outputDir. rewrite (ensure_dir _ _ _ _ Hd1).
    destruct (jseq (toLowerCase (path.extname filePath)) (str ".js"));
      [unfold bind, fs.readFileSync; rewrite F; reflexivity|].
    destruct (jseq (toLowerCase (path.extname filePath)) (str ".html")
              || jseq (toLowerCase (path.extname filePath)) (str ".htm"));
      [unfold bind, fs.readFileSync; rewrite F; reflexivity|].
    destruct (jseq (toLowerCase (path.extname filePath)) (str ".css")
              && config.minify cfg);
      unfold fs.copyFileSync, bind, fs.readFileSync; rewrite F; reflexivity.
  - apply (mkdirp_prefix_dir _ _ _ _ Hd1), prefixOf_refl.
  - intros Hclear. apply missing_no_file. intros q x P Fq.
    apply (Hclear q x P). apply (mkdirp_no_new_file _ _ _ _ _ Hd1 Fq).
  - intros q x P Fq. apply (missing_through_file q _ _ x P); [|exact F1].
    apply (mkdirp_keeps_files _ _ _ _ _ Hd1 Fq).
Qed.

End OtherFiles.

(** ** The shape and the length of a minified style sheet (lines 172-176) *)

Lemma chain_adjacent (R : jschar -> jschar -> bool) (prev : option jschar)
      (x : jsstring) (p a : jschar) (y : jsstring) :
  chainFrom R prev (x ++ p :: a :: y) = true -> R p a = true.
Proof.
  revert prev; induction x as [|c x IH]; intros prev; simpl.
  - rewrite !andb_true_iff. tauto.
  - rewrite andb_true_iff. intros [_ H]. apply (IH _ H).
Qed.

Lemma tight_after_space (a b : jschar) :
  tight a b = true -> isWhiteSpace a = true ->
  isWhiteSpace b = false /\ punct b = false.
Proof.
  unfold tight. intros H W. rewrite W in H.
  destruct (isWhiteSpace b), (punct b); try discriminate; auto.
Qed.

Lemma tight_before_space (a b : jschar) :
  tight a b = true -> isWhiteSpace b = true ->
  isWhiteSpace a = false /\ punct a = false.
Proof.
  unfold tight. intros H W. rewrite W in H.
  destruct (isWhiteSpace a), (punct a), (punct b); try discriminate; auto.
Qed.

(** X9. A white space character of a minified style sheet is a plain space,
    and it stands between two characters that are neither white space nor
    one of the punctuation characters of line 175: no white space is left
    at either end, beside another white space, or beside a brace, a colon,
    a semicolon or a comma. *)
Theorem minified_css_spaces (css x y : jsstring) (a : jschar) :
  minifyCSS css = x ++ a :: y ->
  isWhiteSpace a = true ->
  a = 32
  /\ (exists x' p, x = x' ++ [p] /\ isWhiteSpace p = false /\ punct p = false)
  /\ (exists n y', y = n :: y' /\ isWhiteSpace n = false /\ punct n = false).
Proof.
  intros E W. pose proof (minifyCSS_clean css) as C. rewrite E in C.
  unfold clean in C. rewrite !andb_true_iff in C.
  destruct C as [[[P T] S1] S2].
  split; [|split].
  - rewrite forallb_app in P. apply andb_true_iff in P. destruct P as [_ P].
    simpl in P. apply andb_true_iff in P. destruct P as [P _].
    unfold plainSpace in P. rewrite W in P. simpl in P.
    apply N.eqb_eq, P.
  - destruct (exists_last (l := x)) as [x' [p Ex]].
    + intros ->. simpl in S1. rewrite W in S1. discriminate.
    + exists x', p. split; [exact Ex|]. subst x. rewrite <- app_assoc in T.
      apply (tight_before_space p a); [|exact W].
      apply (chain_adjacent _ _ _ _ _ _ T).
  - destruct y as [|n y'].
    + rewrite rev_app_distr in S2. simpl in S2. rewrite W in S2. discriminate.
    + exists n, y'. split; [reflexivity|].
      apply (tight_after_space a n); [|exact W].
      apply (chain_adjacent _ _ _ _ _ _ T).
Qed.

(** X10. The transform of a style sheet never makes it longer. *)
Theorem minifyCSS_never_longer (css : jsstring) :
  (List.length (minifyCSS css) <= List.length css)%nat.
Proof.
  unfold minifyCSS, replaceAll.
  set (y := replace_from _ re_comment _ _ _).
  assert (List.length y <= List.length css)%nat as Ly by apply delete_length.
  destruct (spaces_output (S (List.length y)) [] y None) as [P1 C1];
    [lia | intros p E; discriminate |].
  pose proof (spaces_length (S (List.length y)) [] y) as Lc.
  set (c := replace_from _ re_spaces _ _ _) in *.
  pose proof (punct_length (S (List.length c)) [] c P1 C1) as Lt.
  pose proof (trim_length (replace_from (S (List.length c)) re_punct (str "$1") [] c)).
  lia.
Qed.

(** X11. A style sheet that holds a block comment comes out strictly shorter;
    so an output that still holds one, put together from the text around
    a comment that was removed, is changed again by a second pass. *)
Theorem css_comment_shortens (css : jsstring) :
  hasComment css = true ->
  (List.length (minifyCSS css) < List.length css)%nat
  /\ minifyCSS css <> css.
Proof.
  intros H. pose proof (minifyCSS_comment_shrinks css H) as L.
  split; [exact L|]. intros E. rewrite E in L. lia.
Qed.

(** ** The walk of the source tree (lines 188-207) *)

Lemma prefixOf_app_inv (p a b : fpath) : prefixOf (p ++ a) (p ++ b) -> prefixOf a b.
Proof.
  intros [r H]. exists r. rewrite <- app_assoc in H.
  apply app_inv_head in H. exact H.
Qed.

Lemma last_of_app (p q : fpath) (d : jsstring) :
  q <> [] -> last (p ++ q) d = last q d.
Proof.
  intros NE. induction p as [|a p IH]; [reflexivity|].
  simpl. destruct (p ++ q) eqn:E; [|exact IH].
  apply app_eq_nil in E. tauto.
Qed.

Lemma In_keys_assoc {A : Type} (k : jsstring) (l : list (jsstring * A)) :
  In k (map fst l) -> exists v, assoc k l = Some v.
Proof.
  intros I. destruct (assoc k l) as [v|] eqn:E; [eauto|].
  exfalso. apply (assoc_None _ _ E I).
Qed.

Lemma walked_app (cfg : config.t) (dir r1 r2 : fpath) :
  walked cfg dir (r1 ++ r2) = walked cfg dir r1 && walked cfg (dir ++ r1) r2.
Proof.
  revert dir; induction r1 as [|c r1 IH]; intros dir.
  - simpl. rewrite app_nil_r. reflexivity.
  - simpl. rewrite IH, <- app_assoc. simpl. rewrite andb_assoc. reflexivity.
Qed.

Lemma walked_prefix (cfg : config.t) (dir r1 r2 : fpath) :
  walked cfg dir (r1 ++ r2) = true -> walked cfg dir r1 = true.
Proof. rewrite walked_app, andb_true_iff. tauto. Qed.

(** Above a file there are directories only. *)
Lemma above_file (p r : fpath) (n : node) (data : jsstring) :
  fs.find (p ++ r) n = Some (File data) -> r <> [] -> isDirAt p n.
Proof.
  rewrite find_app. destruct (fs.find p n) as [[d|es]|] eqn:F; try discriminate.
  - destruct r; [congruence | discriminate].
  - intros _ _. exists es. exact F.
Qed.

Lemma prefix_split (p a b : fpath) :
  prefixOf p (a ++ b) ->
  prefixOf p a \/ exists r, r <> [] /\ p = a ++ r /\ prefixOf r b.
Proof.
  revert p; induction a as [|x a IH]; intros p P.
  - destruct p as [|y p]; [left; apply prefixOf_nil|].
    right. exists (y :: p). split; [discriminate|]. split; [reflexivity|exact P].
  - destruct p as [|y p]; [left; apply prefixOf_nil|].
    destruct P as [t E]. simpl in E. injection E as -> E.
    destruct (IH p) as [Q|[r [NE [-> Q]]]]; [exists t; exact E | |].
    + left. apply prefixOf_cons, Q.
    + right. exists r. auto.
Qed.

(** Nothing is found below a file, and a file is no directory. *)
Lemma below_file (p r : fpath) (n : node) (x : jsstring) (es : list (jsstring * node)) :
  fs.find p n = Some (File x) -> fs.find (p ++ r) n <> Some (Dir es).
Proof.
  intros F. rewrite find_app, F. destruct r; discriminate.
Qed.

Lemma processDirectory_S (cfg : config.t)
      (minify minifyHTML : jsstring -> option jsstring)
      (md5 : jsstring -> jsstring) (now : nat -> N)
      (f : nat) (dir baseDir : fpath) :
  processDirectory cfg minify minifyHTML md5 now (S f) dir baseDir
  = (items <- fs.readdirSync dir ;;
     forEach items (walkItem cfg minify minifyHTML md5 now f dir baseDir)).
Proof. reflexivity. Qed.

Section Walker.

Variable cfg : config.t.
Variable minify : jsstring -> option jsstring.
Variable minifyHTML : jsstring -> option jsstring.
Variable md5 : jsstring -> jsstring.
Variable now : nat -> N.

Hypothesis plainNames : config.obfuscateFilenames cfg = false.

Lemma outputText_plain (filePath : fpath) (data : jsstring) (s s' : state) :
  outputText cfg minify minifyHTML filePath data s
  = outputText cfg minify minifyHTML filePath data s'.
Proof. unfold outputText, htmlSource. rewrite plainNames. reflexivity. Qed.

(** What the transformer does to one file when names are kept. *)
Lemma processFile_effect (src relativePath : fpath) (s : state)
      (data : jsstring) (d1 : node) :
  let filePath := src ++ relativePath in
  let outputPath := path.join (config.outputDir cfg) relativePath in
  relativePath <> [] ->
  fs.find filePath (disk s) = Some (File data) ->
  fs.mkdirp (path.dirname outputPath) (disk s) = inr d1 ->
  (forall es, fs.find outputPath d1 <> Some (Dir es)) ->
  exists text d2 s',
    outputText cfg minify minifyHTML filePath data s = Some text
    /\ fs.store outputPath text d1 = inr d2
    /\ processFile cfg minify minifyHTML md5 now filePath relativePath s
       = Ok tt s'
    /\ disk s' = d2
    /\ meta s' = meta s.
Proof.
  intros filePath outputPath NE Hread Hdir Hfree.
  assert (outputPath <> []) as NEo.
  { unfold outputPath, path.join. intros E. apply app_eq_nil in E. tauto. }
  assert (path.dirname outputPath ++ [path.basename filePath] = outputPath) as Etarget.
  { unfold path.basename, filePath, path.dirname.
    rewrite (last_of_app _ _ _ NE).
    rewrite <- (last_of_app (config.outputDir cfg) _ _ NE).
    symmetry. apply app_removelast_last, NEo. }
  unfold outputText.
  destruct (jseq (toLowerCase (path.extname filePath)) (str ".js")) eqn:Ejs.
  { destruct (processFile_js cfg minify minifyHTML md5 now filePath relativePath
                             s data d1 Ejs Hread Hdir) as [d2 [Hd2 Hrun]].
    - unfold jsOutputName. rewrite plainNames. fold outputPath.
      rewrite Etarget. exact Hfree.
    - revert Hd2 Hrun. unfold jsOutputName. rewrite plainNames.
      fold outputPath. rewrite Etarget. intros Hd2 Hrun.
      eexists _, d2, _. split; [reflexivity|]. split; [exact Hd2|].
      split; [exact Hrun|]. split; reflexivity. }
  destruct (jseq (toLowerCase (path.extname filePath)) (str ".html")
            || jseq (toLowerCase (path.extname filePath)) (str ".htm")) eqn:Ehtml.
  { assert (toLowerCase (path.extname filePath) = str ".html"
            \/ toLowerCase (path.extname filePath) = str ".htm") as H.
    { apply orb_true_iff in Ehtml. destruct Ehtml as [E|E];
        apply jseq_eq in E; auto. }
    assert (htmlSource cfg data s = Some data) as Hsrc
        by (unfold htmlSource; rewrite plainNames; reflexivity).
    destruct (processFile_html cfg minify minifyHTML md5 now filePath relativePath
                               s data data d1 H Hread Hsrc Hdir Hfree)
      as [d2 [Hd2 Hrun]].
    eexists _, d2, _. rewrite Hsrc. split; [reflexivity|]. split; [exact Hd2|].
    split; [exact Hrun|]. split; reflexivity. }
  destruct (jseq (toLowerCase (path.extname filePath)) (str ".css")
            && config.minify cfg) eqn:Ecss.
  { apply andb_true_iff in Ecss. destruct Ecss as [E Hmin]. apply jseq_eq in E.
    destruct (processFile_css cfg minify minifyHTML md5 now filePath relativePath
                              s data d1 E Hmin Hread Hdir Hfree)
      as [d2 [Hd2 Hrun]].
    eexists _, d2, _. split; [reflexivity|]. split; [exact Hd2|].
    split; [exact Hrun|]. split; reflexivity. }
  destruct (processFile_copy cfg minify minifyHTML md5 now filePath relativePath
                             s data d1) as [d2 [Hd2 Hrun]].
  - apply jseq_neq, Ejs.
  - apply orb_false_iff in Ehtml. apply jseq_neq; tauto.
  - apply orb_false_iff in Ehtml. apply jseq_neq; tauto.
  - intros E. rewrite E in Ecss. simpl in Ecss. exact Ecss.
  - exact Hread.
  - exact Hdir.
  - exact Hfree.
  - eexists _, d2, _. split; [reflexivity|]. split; [exact Hd2|].
    split; [exact Hrun|]. split; reflexivity.
Qed.

Variable s0 : state.

Local Abbreviation base := (config.inputDir cfg).
Local Abbreviation out := (config.outputDir cfg).

Lemma file_step (r : fpath) (data : jsstring) (s : state) :
  r <> [] ->
  walked cfg (config.inputDir cfg) r = true ->
  fs.find (config.inputDir cfg ++ r) (disk s0) = Some (File data) ->
  fs.find (config.inputDir cfg ++ r) (disk s) = Some (File data) ->
  walkInv cfg minify minifyHTML s0 s ->
  exists s',
    processFile cfg minify minifyHTML md5 now (config.inputDir cfg ++ r) r s
    = Ok tt s'
    /\ walkInv cfg minify minifyHTML s0 s'
    /\ outputKept cfg s s'
    /\ exists text,
         outputText cfg minify minifyHTML (config.inputDir cfg ++ r) data s0
         = Some text
         /\ fs.find (config.outputDir cfg ++ r) (disk s') = Some (File text).
Proof.
  intros NE W F0 Fs [Hsame [[eso Hdir] Hmir]].
  assert (out ++ r <> []) as NEo by (intros E; apply app_eq_nil in E; tauto).
  assert (path.dirname (out ++ r) = out ++ removelast r) as Edir
      by (apply removelast_app, NE).
  pose proof (app_removelast_last (str ".") NE) as Er.
  (* the directory of the output can be made *)
  destruct (mkdirp_total (path.dirname (out ++ r)) (disk s)) as [d1 Hd1].
  { intros p' x P Fp. rewrite Edir in P.
    destruct (prefix_split _ _ _ P) as [[t Et]|[r' [NE' [-> P']]]].
    - apply (below_file p' t (disk s) x eso Fp). rewrite <- Et. exact Hdir.
    - destruct (Hmir r' (File x) NE' Fp) as [_ [data' [F' _]]].
      destruct P' as [t Et].
      assert (isDirAt (base ++ r') (disk s0)) as [es' D].
      { apply (above_file _ (t ++ [last r (str ".")]) _ data).
        - rewrite <- app_assoc, (app_assoc r'), <- Et, <- Er. exact F0.
        - intros E. apply app_eq_nil in E. destruct E; discriminate. }
      congruence. }
  (* no directory stands in the place of the output *)
  assert (forall q, ~ prefixOf q (out ++ r) ->
                    fs.find q d1 = fs.find q (disk s)) as Frame1.
  { intros q NP. apply (mkdirp_frame _ _ _ _ Hd1).
    intros P. apply NP. rewrite (app_removelast_last (str ".") NEo).
    apply prefixOf_extend, P. }
  assert (fs.find (out ++ r) d1 = fs.find (out ++ r) (disk s)) as Fr1
      by (apply (mkdirp_frame _ _ _ _ Hd1), not_prefix_of_dirname, NEo).
  destruct (processFile_effect base r s data d1 NE Fs Hd1)
    as [text [d2 [s' [Htext [Hd2 [Hrun [Hdisk _]]]]]]].
  { intros es. unfold path.join. rewrite Fr1. intros Fd.
    destruct (Hmir r (Dir es) NE Fd) as [_ [es' D]]. congruence. }
  unfold path.join in Hd2. subst d2.
  rewrite (outputText_plain _ _ s s0) in Htext.
  pose proof (store_find _ _ _ _ Hd2) as Fnew.
  assert (forall q, ~ prefixOf q (out ++ r) ->
                    fs.find q (disk s') = fs.find q (disk s)) as Frame2.
  { intros q NP. rewrite (store_frame _ _ _ _ _ Hd2 NP). apply Frame1, NP. }
  exists s'. split; [exact Hrun|].
  split; [split; [|split]|split].
  - (* the source is left alone *)
    intros q D. rewrite Frame2; [apply Hsame, D|].
    apply (diverge_outside _ _ _ D). exists r. reflexivity.
  - apply (store_keeps_dirs _ _ _ _ _ Hd2), (mkdirp_keeps_dirs _ _ _ _ Hd1).
    exists eso. exact Hdir.
  - (* the output mirrors the source *)
    intros r2 n NE2 F2.
    destruct (prefixOf_dec (out ++ r2) (out ++ r)) as [P|NP].
    + apply prefixOf_app_inv in P. destruct P as [t Et].
      assert (walked cfg base r2 = true) as W2
          by (apply (walked_prefix _ _ _ t); rewrite <- Et; exact W).
      split; [exact W2|]. destruct t as [|c t].
      * rewrite app_nil_r in Et. subst r2. rewrite Fnew in F2.
        injection F2 as <-. exists data. auto.
      * assert (isDirAt (base ++ r2) (disk s0)) as D0.
        { apply (above_file _ (c :: t) _ data); [|discriminate].
          rewrite <- app_assoc, <- Et. exact F0. }
        destruct n as [x|es]; [|exact D0].
        exfalso. rewrite Et, app_assoc, find_app, F2 in Fnew. discriminate.
    + rewrite (Frame2 _ NP) in F2. apply (Hmir r2 n NE2 F2).
  - (* the files written before are still there *)
    intros r2 t2 F2.
    destruct (prefixOf_dec (out ++ r2) (out ++ r)) as [P|NP];
      [|rewrite (Frame2 _ NP); exact F2].
    apply prefixOf_app_inv in P. destruct P as [t Et].
    destruct r2 as [|c2 r2].
    { rewrite app_nil_r in F2. congruence. }
    destruct (Hmir (c2 :: r2) (File t2) ltac:(discriminate) F2) as [_ [data' [F' T']]].
    destruct t as [|c t].
    + rewrite app_nil_r in Et. rewrite <- Et in *.
      assert (data' = data) as -> by congruence.
      assert (t2 = text) as -> by congruence. exact Fnew.
    + exfalso.
      assert (isDirAt (base ++ c2 :: r2) (disk s0)) as [es' D0].
      { apply (above_file _ (c :: t) _ data); [|discriminate].
        rewrite <- app_assoc, <- Et. exact F0. }
      congruence.
  - exists text. split; [exact Htext | exact Fnew].
Qed.

Lemma outputKept_trans (s1 s2 s3 : state) :
  outputKept cfg s1 s2 -> outputKept cfg s2 s3 -> outputKept cfg s1 s3.
Proof. intros H1 H2 r text F. apply H2, H1, F. Qed.

(** One turn of the loop, given the statement for the directories below. *)
Lemma walk_item (f : nat) (rd : fpath) (T : list (jsstring * node))
      (s : state) (item : jsstring) :
  walkOk cfg minify minifyHTML md5 now s0 f ->
  (depth (Dir T) <= S f)%nat ->
  walked cfg base rd = true ->
  childrenApart cfg rd T ->
  fs.find (base ++ rd) (disk s0) = Some (Dir T) ->
  In item (map fst T) ->
  walkInv cfg minify minifyHTML s0 s ->
  exists s',
    walkItem cfg minify minifyHTML md5 now f (base ++ rd) base item s = Ok tt s'
    /\ walkInv cfg minify minifyHTML s0 s'
    /\ outputKept cfg s s'
    /\ forall r data,
         walked cfg base (rd ++ item :: r) = true ->
         fs.find (base ++ rd ++ item :: r) (disk s0) = Some (File data) ->
         exists text,
           outputText cfg minify minifyHTML (base ++ rd ++ item :: r) data s0
           = Some text
           /\ fs.find (out ++ rd ++ item :: r) (disk s') = Some (File text).
Proof.
  intros Hok Hdepth Wrd Hapart F0 I Inv.
  unfold walkItem, path.join. rewrite <- app_assoc.
  destruct (shouldExclude cfg (base ++ rd ++ [item])) eqn:X.
  - exists s. split; [reflexivity|]. split; [exact Inv|].
    split; [intros r text F; exact F|].
    intros r data W. exfalso. rewrite walked_app in W.
    apply andb_true_iff in W. destruct W as [_ W]. simpl in W.
    rewrite <- app_assoc, X in W. discriminate.
  - destruct (In_keys_assoc _ _ I) as [x A].
    assert (fs.find (base ++ rd ++ [item]) (disk s0) = Some x) as Fx0.
    { rewrite app_assoc, find_app, F0. simpl. rewrite A. reflexivity. }
    pose proof (Hapart item I X) as D.
    assert (fs.find (base ++ rd ++ [item]) (disk s) = Some x) as Fx.
    { destruct Inv as [Hsame _]. rewrite (Hsame _ D). exact Fx0. }
    assert (walked cfg base (rd ++ [item]) = true) as W1.
    { rewrite walked_app, Wrd. simpl. rewrite <- app_assoc, X. reflexivity. }
    unfold bind, fs.statSync. rewrite Fx. rewrite relative_app.
    destruct x as [data|T2]; cbn [isDirectory].
    + destruct (file_step (rd ++ [item]) data s) as [s' [Hrun [Inv' [K C]]]];
        [destruct rd; discriminate | exact W1 | exact Fx0 | exact Fx | exact Inv |].
      exists s'. split; [exact Hrun|]. split; [exact Inv'|]. split; [exact K|].
      intros r data' W F. destruct r as [|c r]; [|exfalso].
      * assert (data' = data) as -> by congruence. exact C.
      * change (item :: c :: r) with ([item] ++ c :: r) in F.
        rewrite !app_assoc, find_app, <- app_assoc, Fx0 in F. discriminate.
    + destruct (Hok (rd ++ [item]) T2 s) as [s' [Hrun [Inv' [K C]]]].
      * apply assoc_In, depth_child in A. lia.
      * exact W1.
      * intros item2 _ _.
        pose proof (diverge_app _ _ [item2] [] D) as D2.
        rewrite app_nil_r, <- !app_assoc in D2. rewrite <- app_assoc. exact D2.
      * exact Fx.
      * exact Fx0.
      * exact Inv.
      * exists s'. split; [exact Hrun|]. split; [exact Inv'|]. split; [exact K|].
        intros r data W F. destruct r as [|c r].
        { congruence. }
        destruct (C (c :: r) data) as [text [Ht Hf]]; [discriminate | | |].
        -- rewrite <- app_assoc. exact W.
        -- rewrite <- app_assoc. exact F.
        -- exists text. rewrite <- app_assoc in Ht, Hf. auto.
Qed.

Lemma walk_items (f : nat) (rd : fpath) (T : list (jsstring * node)) :
  walkOk cfg minify minifyHTML md5 now s0 f ->
  (depth (Dir T) <= S f)%nat ->
  walked cfg base rd = true ->
  childrenApart cfg rd T ->
  fs.find (base ++ rd) (disk s0) = Some (Dir T) ->
  forall (items : list jsstring) (s : state),
    incl items (map fst T) ->
    walkInv cfg minify minifyHTML s0 s ->
    exists s',
      forEach items (walkItem cfg minify minifyHTML md5 now f (base ++ rd) base) s
      = Ok tt s'
      /\ walkInv cfg minify minifyHTML s0 s'
      /\ outputKept cfg s s'
      /\ forall item r data,
           In item items ->
           walked cfg base (rd ++ item :: r) = true ->
           fs.find (base ++ rd ++ item :: r) (disk s0) = Some (File data) ->
           exists text,
             outputText cfg minify minifyHTML (base ++ rd ++ item :: r) data s0
             = Some text
             /\ fs.find (out ++ rd ++ item :: r) (disk s') = Some (File text).
Proof.
  intros Hok Hdepth Wrd Hapart F0.
  induction items as [|a items IH]; intros s Hin Inv.
  - exists s. split; [reflexivity|]. split; [exact Inv|].
    split; [intros r text F; exact F|]. intros item r data [].
  - destruct (walk_item f rd T s a Hok Hdepth Wrd Hapart F0) as [s1 [R1 [I1 [K1 C1]]]];
      [apply Hin; left; reflexivity | exact Inv |].
    destruct (IH s1) as [s' [R2 [I2 [K2 C2]]]];
      [intros x Hx; apply Hin; right; exact Hx | exact I1 |].
    exists s'. split; [|split; [exact I2|split]].
    + cbn [forEach]. unfold bind at 1. rewrite R1. exact R2.
    + apply (outputKept_trans _ _ _ K1 K2).
    + intros item r data [<-|I] W F.
      * destruct (C1 r data W F) as [text [Ht Hf]].
        exists text. split; [exact Ht|]. apply K2, Hf.
      * apply (C2 item r data I W F).
Qed.

(** The walker, with a bound no less than the depth of the tree. *)
Lemma walk_dir (f : nat) : walkOk cfg minify minifyHTML md5 now s0 f.
Proof.
  induction f as [|f IH]; intros rd T s Hdepth Wrd Hapart Fs F0 Inv.
  - simpl in Hdepth. lia.
  - rewrite processDirectory_S. unfold bind at 1, fs.readdirSync. rewrite Fs.
    destruct (walk_items f rd T IH Hdepth Wrd Hapart F0 (map fst T) s)
      as [s' [Hrun [Inv' [K C]]]]; [apply incl_refl | exact Inv |].
    exists s'. split; [exact Hrun|]. split; [exact Inv'|]. split; [exact K|].
    intros r data NE W F. destruct r as [|item r]; [congruence|].
    apply (C item r data); [|exact W|exact F].
    rewrite app_assoc, find_app, F0 in F. simpl in F.
    destruct (assoc item T) as [x|] eqn:A; [|discriminate].
    apply assoc_In in A. apply in_map_iff. exists (item, x). auto.
Qed.

End Walker.

Section WalkerTheorems.

Variable cfg : config.t.
Variable minify : jsstring -> option jsstring.
Variable minifyHTML : jsstring -> option jsstring.
Variable md5 : jsstring -> jsstring.
Variable now : nat -> N.

Local Abbreviation base := (config.inputDir cfg).
Local Abbreviation out := (config.outputDir cfg).

Lemma walk_root (fuel : nat) (T : list (jsstring * node)) (s : state) :
  config.obfuscateFilenames cfg = false ->
  fs.find base (disk s) = Some (Dir T) ->
  fs.find out (disk s) = Some (Dir []) ->
  outputApart cfg T = true ->
  (depth (Dir T) <= fuel)%nat ->
  exists s',
    processDirectory cfg minify minifyHTML md5 now fuel base base s = Ok tt s'
    /\ walkInv cfg minify minifyHTML s s'
    /\ covered cfg minify minifyHTML s [] s'.
Proof.
  intros Hplain Hroot Hout Hapart Hdepth.
  destruct (walk_dir cfg minify minifyHTML md5 now Hplain s fuel [] T s)
    as [s' [Hrun [Inv [_ C]]]].
  - exact Hdepth.
  - reflexivity.
  - intros item I X. simpl.
    unfold outputApart in Hapart. rewrite forallb_forall in Hapart.
    apply in_map_iff in I. destruct I as [[k x] [<- I]].
    specialize (Hapart _ I). simpl in Hapart, X. rewrite X in Hapart.
    exact Hapart.
  - rewrite app_nil_r. exact Hroot.
  - rewrite app_nil_r. exact Hroot.
  - split; [apply sameOutside_refl|]. split; [exists []; exact Hout|].
    intros r n NE F. rewrite find_app, Hout in F.
    destruct r; [congruence | discriminate].
  - exists s'. rewrite app_nil_r in Hrun. auto.
Qed.

(** X12. With the names of the scripts kept, the walk of a source tree into a
    fresh output directory that lies apart from the files it visits ends
    well, given a bound no less than the depth of the tree, and every
    file that it comes to (no entry on the way to the file is excluded)
    has its output at the same relative path in the output directory:
    the transformed text for a script, a page and a style sheet, and the
    very text of the source for any other file. *)
Theorem walk_mirrors_sources (fuel : nat) (T : list (jsstring * node))
        (s : state) :
  config.obfuscateFilenames cfg = false ->
  fs.find base (disk s) = Some (Dir T) ->
  fs.find out (disk s) = Some (Dir []) ->
  outputApart cfg T = true ->
  (depth (Dir T) <= fuel)%nat ->
  exists s',
    processDirectory cfg minify minifyHTML md5 now fuel base base s = Ok tt s'
    /\ forall r data,
         r <> [] ->
         walked cfg base r = true ->
         fs.find (base ++ r) (disk s) = Some (File data) ->
         exists text,
           outputText cfg minify minifyHTML (base ++ r) data s = Some text
           /\ fs.find (out ++ r) (disk s') = Some (File text).
Proof.
  intros Hplain Hroot Hout Hapart Hdepth.
  destruct (walk_root fuel T s Hplain Hroot Hout Hapart Hdepth)
    as [s' [Hrun [_ C]]].
  exists s'. split; [exact Hrun|]. intros r data NE W F.
  apply (C r data NE W F).
Qed.

(** X13. In the same setting the walk puts nothing else in the output
    directory: a file found there after the walk stands at the relative
    path of a source file that the walk came to, and holds the output
    text of that file; so nothing of an excluded file or directory
    appears in the output. *)
Theorem walk_writes_nothing_else (fuel : nat) (T : list (jsstring * node))
        (s : state) :
  config.obfuscateFilenames cfg = false ->
  fs.find base (disk s) = Some (Dir T) ->
  fs.find out (disk s) = Some (Dir []) ->
  outputApart cfg T = true ->
  (depth (Dir T) <= fuel)%nat ->
  exists s',
    processDirectory cfg minify minifyHTML md5 now fuel base base s = Ok tt s'
    /\ forall r text,
         fs.find (out ++ r) (disk s') = Some (File text) ->
         r <> []
         /\ walked cfg base r = true
         /\ exists data,
              fs.find (base ++ r) (disk s) = Some (File data)
              /\ outputText cfg minify minifyHTML (base ++ r) data s = Some text.
Proof.
  intros Hplain Hroot Hout Hapart Hdepth.
  destruct (walk_root fuel T s Hplain Hroot Hout Hapart Hdepth)
    as [s' [Hrun [[_ [[es D] M]] _]]].
  exists s'. split; [exact Hrun|]. intros r text F.
  assert (r <> []) as NE.
  { intros ->. rewrite app_nil_r in F. congruence. }
  split; [exact NE|]. apply (M r (File text) NE F).
Qed.

End WalkerTheorems.

(** ** The filter on the paths below an excluded one (lines 51-58) *)

Lemma joinWith_app (sep : jsstring) (r q : list jsstring) :
  r <> [] -> q <> [] ->
  joinWith sep (r ++ q) = joinWith sep r ++ sep ++ joinWith sep q.
Proof.
  intros NEr NEq. induction r as [|x r IH]; [congruence|].
  destruct r as [|y r].
  - simpl. destruct q; [congruence | reflexivity].
  - change (joinWith sep ((x :: y :: r) ++ q))
      with (x ++ sep ++ joinWith sep ((y :: r) ++ q)).
    rewrite IH by discriminate.
    change (joinWith sep (x :: y :: r)) with (x ++ sep ++ joinWith sep (y :: r)).
    rewrite <- !app_assoc. reflexivity.
Qed.

(** X14. An entry that the filter excludes for its relative path, by the first
    or the second rule of line 54-55, takes all that lies below it along:
    every path below it is excluded by the second rule. *)
Theorem exclusion_by_path_inherited (cfg : config.t) (r q : fpath)
        (excluded : jsstring) :
  In excluded (config.exclude cfg) ->
  r <> [] ->
  path.text r = excluded
  \/ startsWith (excluded ++ path.sep) (path.text r) = true ->
  shouldExclude cfg (config.inputDir cfg ++ r ++ q) = true.
Proof.
  intros I NE H. unfold shouldExclude. rewrite relative_app.
  apply existsb_exists. exists excluded. split; [exact I|].
  destruct q as [|c q].
  - rewrite app_nil_r. destruct H as [<-|H].
    + rewrite jseq_refl. reflexivity.
    + rewrite H, orb_true_r. reflexivity.
  - unfold path.text in *. rewrite joinWith_app by (auto; discriminate).
    assert (startsWith (excluded ++ path.sep)
              (joinWith path.sep r ++ path.sep ++ joinWith path.sep (c :: q))
            = true) as ->; [|rewrite orb_true_r; reflexivity].
    apply startsWith_prefix. destruct H as [<-|H].
    + exists (joinWith path.sep (c :: q)). rewrite <- app_assoc. reflexivity.
    + apply startsWith_prefix in H. destruct H as [t ->].
      exists (t ++ path.sep ++ joinWith path.sep (c :: q)).
      rewrite <- !app_assoc. reflexivity.
Qed.

(** ** Pages without a script reference (lines 145-150) *)

Lemma lits_match (p : jsstring) (re : regex) :
  forall m s f,
    match_here (lits p ++ re) m s = Some f -> startsWith p s = true.
Proof.
  induction p as [|c p IH]; intros m s f H; [reflexivity|].
  change (lits (c :: p) ++ re) with (T One (N.eqb c) :: (lits p ++ re)) in H.
  rewrite one_first in H. destruct s as [|a t]; [discriminate|].
  simpl. destruct (c =? a); [|discriminate].
  simpl. apply (IH _ _ _ H).
Qed.

Lemma test_needs_literal (p : jsstring) (re : regex) (s : jsstring) :
  includes p s = false -> test (lits p ++ re) s = false.
Proof.
  induction s as [|a t IH]; intros H.
  - simpl in H. rewrite orb_false_r in H.
    simpl. unfold exec_at.
    destruct (match_here (lits p ++ re) m_init []) as [f|] eqn:E; [|reflexivity].
    apply lits_match in E. congruence.
  - cbn [includes] in H. apply orb_false_iff in H. destruct H as [H1 H2].
    cbn [test]. unfold exec_at.
    destruct (match_here (lits p ++ re) m_init (a :: t)) as [f|] eqn:E.
    + apply lits_match in E. congruence.
    + apply IH, H2.
Qed.

(** X15. The rewriting of script references leaves a page alone in which the
    text [src=] does not occur, whatever the mapping holds, as long as the
    names in the mapping make patterns within the reach of the matcher. *)
Theorem page_without_src_unchanged (mapping : list (jsstring * jsstring))
        (html : jsstring) :
  includes (str "src=") html = false ->
  (forall k v, In (k, v) mapping -> patternOfName k <> None) ->
  updateScriptSrc mapping html = Some html.
Proof.
  intros H. induction mapping as [|[k v] mapping IH]; intros Hnames;
    [reflexivity|].
  cbn [updateScriptSrc]. unfold scriptRegex.
  destruct (patternOfName k) as [nameRe|] eqn:P.
  - unfold replaceAll. rewrite replace_no_match.
    + apply IH. intros k' v' I. apply (Hnames k' v'). right; exact I.
    + apply test_needs_literal, H.
  - exfalso. apply (Hnames k v); [left; reflexivity | exact P].
Qed.

(** ** The depth of the tree after the output directory is made *)

Lemma depth_Dir_le (es : list (jsstring * node)) (n : nat) :
  (forall k x, In (k, x) es -> (depth x <= n)%nat) ->
  (depth (Dir es) <= S n)%nat.
Proof.
  intros H. simpl. apply le_n_S.
  induction es as [|[k x] es IH]; [lia|].
  apply Nat.max_lub.
  - apply (H k x). left; reflexivity.
  - apply IH. intros k' x' I. apply (H k' x'). right; exact I.
Qed.

Lemma In_assocSet {A : Type} (c k : jsstring) (x y : A)
      (es : list (jsstring * A)) :
  In (k, y) (assocSet c x es) -> In (k, y) es \/ y = x.
Proof.
  induction es as [|[k0 v0] es IH]; simpl.
  - intros [E|[]]. injection E as _ <-. auto.
  - destruct (jseq k0 c).
    + intros [E|I]; [injection E as _ <-; auto | auto].
    + intros [E|I]; [auto|]. destruct (IH I); auto.
Qed.

Lemma depth_assocSet (c : jsstring) (x : node) (es : list (jsstring * node)) :
  (depth (Dir (assocSet c x es)) <= Nat.max (depth (Dir es)) (S (depth x)))%nat.
Proof.
  assert (forall k y, In (k, y) (assocSet c x es) ->
                      (depth y <= Nat.max (pred (depth (Dir es))) (depth x))%nat) as H.
  { intros k y I. destruct (In_assocSet _ _ _ _ _ I) as [I'| ->]; [|lia].
    apply depth_child in I'. lia. }
  apply depth_Dir_le in H. simpl in *. lia.
Qed.

Lemma depth_filter (f : jsstring * node -> bool) (es : list (jsstring * node)) :
  (depth (Dir (filter f es)) <= depth (Dir es))%nat.
Proof.
  assert (forall k y, In (k, y) (filter f es) ->
                      (depth y <= pred (depth (Dir es)))%nat) as H.
  { intros k y I. apply filter_In in I. destruct I as [I _].
    apply depth_child in I. lia. }
  apply depth_Dir_le in H. simpl in *. lia.
Qed.

Lemma depth_remove (p : fpath) (n : node) :
  (depth (fs.remove p n) <= depth n)%nat.
Proof.
  revert n; induction p as [|c p IH]; intros n; [destruct n; reflexivity|].
  destruct n as [d|es]; [destruct p; reflexivity|].
  destruct p as [|c2 p].
  - apply depth_filter.
  - change (fs.remove (c :: c2 :: p) (Dir es))
      with (match assoc c es with
            | Some n' => Dir (assocSet c (fs.remove (c2 :: p) n') es)
            | None => Dir es
            end).
    destruct (assoc c es) as [m|] eqn:A; [|reflexivity].
    pose proof (depth_assocSet c (fs.remove (c2 :: p) m) es) as H.
    pose proof (IH m) as H1.
    apply assoc_In, depth_child in A. lia.
Qed.

Lemma depth_mkdirp (p : fpath) (n n' : node) :
  fs.mkdirp p n = inr n' ->
  (depth n' <= Nat.max (depth n) (S (List.length p)))%nat.
Proof.
  revert n n'; induction p as [|c p IH]; intros n n'; simpl fs.mkdirp.
  - destruct n; [discriminate|]. intros H; injection H as <-. lia.
  - destruct n as [d|es]; [discriminate|].
    destruct (fs.mkdirp p _) as [e|n''] eqn:E; [discriminate|].
    intros H; injection H as <-.
    pose proof (depth_assocSet c n'' es) as H1.
    pose proof (IH _ _ E) as H2.
    destruct (assoc c es) as [m|] eqn:A.
    + apply assoc_In, depth_child in A. simpl List.length. lia.
    + simpl depth in H2. simpl List.length. lia.
Qed.

Lemma depth_find (p : fpath) (n x : node) :
  fs.find p n = Some x -> (depth x <= depth n)%nat.
Proof.
  revert n; induction p as [|c p IH]; intros n; simpl.
  - intros H; injection H as <-. lia.
  - destruct n as [d|es]; [discriminate|].
    destruct (assoc c es) as [m|] eqn:A; [|discriminate].
    intros H. apply IH in H. apply assoc_In, depth_child in A. lia.
Qed.

(** ** Files stay files while the output is written *)

Lemma store_through_file (p t : fpath) (data x : jsstring) (n : node) :
  fs.find p n = Some (File x) -> t <> [] ->
  exists e, fs.store (p ++ t) data n = inl e.
Proof.
  revert n; induction p as [|c p IH]; intros n F NE.
  - simpl in F. injection F as ->. destruct t as [|a [|b t]]; [congruence| |];
      simpl; eauto.
  - simpl in F. destruct n as [d|es]; [discriminate|].
    destruct (assoc c es) as [m|] eqn:A; [|discriminate].
    destruct (IH m F NE) as [e He].
    change ((c :: p) ++ t) with (c :: (p ++ t)).
    destruct (p ++ t) as [|c2 r] eqn:E.
    + apply app_eq_nil in E. tauto.
    + rewrite store_cons, A, He. eauto.
Qed.

Lemma store_keeps_files (p q : fpath) (data x : jsstring) (n n' : node) :
  fs.store p data n = inr n' ->
  fs.find q n = Some (File x) ->
  exists x', fs.find q n' = Some (File x').
Proof.
  intros H F. destruct (prefixOf_dec q p) as [[t E]|NP].
  - destruct t as [|a t].
    + rewrite app_nil_r in E. subst q. exists data. apply (store_find _ _ _ _ H).
    + subst p. destruct (store_through_file q (a :: t) data x n F) as [e He];
        [discriminate | congruence].
  - exists x. rewrite (store_frame _ _ _ _ _ H NP). exact F.
Qed.

Lemma filesStay_trans (s1 s2 s3 : state) :
  filesStay s1 s2 -> filesStay s2 s3 -> filesStay s1 s3.
Proof.
  intros H1 H2 p x F. destruct (H1 p x F) as [x' F']. apply (H2 p x' F').
Qed.

Lemma copyDataDirectory_filesStay (cfg : config.t) (fuel : nat) :
  respects filesStay (copyDataDirectory cfg fuel).
Proof.
  apply respects_copyDataDirectory with (printable := fun _ => True).
  - intros s p x F. eauto.
  - apply filesStay_trans.
  - intros msg _. exact I.
  - intros msg _ s p x F. eauto.
  - intros p _ s. unfold fs.mkdirSync.
    destruct (fs.mkdirp p (disk s)) as [e|d] eqn:E; intros q x F; [eauto|].
    exists x. apply (mkdirp_keeps_files _ _ _ _ _ E F).
  - intros p data _ s. unfold fs.writeFileSync.
    destruct (fs.store p data (disk s)) as [e|d] eqn:E; intros q x F; [eauto|].
    apply (store_keeps_files _ _ _ _ _ _ E F).
Qed.

Lemma last_any_default (q : fpath) (d d' : jsstring) :
  q <> [] -> last q d = last q d'.
Proof.
  intros NE. induction q as [|a q IH]; [congruence|].
  destruct q as [|b q]; [reflexivity|]. apply IH. discriminate.
Qed.

(** ** The whole build (lines 61-64 and 248-263) *)

Section BuildRun.

Variable cfg : config.t.
Variable minify : jsstring -> option jsstring.
Variable minifyHTML : jsstring -> option jsstring.
Variable md5 : jsstring -> jsstring.
Variable now : nat -> N.
Variable cwd : fpath.

Local Abbreviation out := (config.outputDir cfg).

Hypothesis sourceHere : config.inputDir cfg = [].
Hypothesis plainNames : config.obfuscateFilenames cfg = false.

Lemma mirror_file (s6 sw : state) (r : fpath) (text : jsstring) :
  walkInv cfg minify minifyHTML s6 sw ->
  fs.find (out ++ r) (disk sw) = Some (File text) ->
  r <> []
  /\ walked cfg [] r = true
  /\ exists data,
       fs.find r (disk s6) = Some (File data)
       /\ outputText cfg minify minifyHTML r data s6 = Some text.
Proof.
  intros [_ [[es D] M]] F.
  assert (r <> []) as NE by (intros ->; rewrite app_nil_r in F; congruence).
  split; [exact NE|].
  pose proof (M r (File text) NE F) as H. rewrite sourceHere in H. exact H.
Qed.

Lemma mirror_dir (s6 sw : state) (r : fpath) (es : list (jsstring * node)) :
  walkInv cfg minify minifyHTML s6 sw ->
  r <> [] ->
  fs.find (out ++ r) (disk sw) = Some (Dir es) ->
  isDirAt r (disk s6).
Proof.
  intros [_ [_ M]] NE F.
  pose proof (M r (Dir es) NE F) as [_ H]. rewrite sourceHere in H. exact H.
Qed.

Lemma outputText_json (r q : fpath) (data : jsstring) (s : state) :
  q <> [] -> isJson (last q []) = true ->
  outputText cfg minify minifyHTML (r ++ q) data s = Some data.
Proof.
  intros NE J. unfold outputText.
  assert (toLowerCase (path.extname (r ++ q)) = str ".json") as ->;
    [|reflexivity].
  unfold isJson in J. apply jseq_eq in J. rewrite <- J.
  unfold path.extname, path.basename.
  destruct (r ++ q) as [|a t] eqn:E; [apply app_eq_nil in E; tauto|].
  rewrite <- E, (last_of_app _ _ _ NE), (last_any_default q (str ".") [] NE).
  reflexivity.
Qed.

Lemma room_after_walk (s6 sw : state) :
  walkInv cfg minify minifyHTML s6 sw ->
  forall (n : nat) (x : node) (q : fpath),
    (depth x <= n)%nat ->
    fs.find (dataLlmSrc ++ q) (disk s6) = Some x ->
    wellFormed x = true ->
    roomFor x (fs.find (dataLlmDest cfg ++ q) (disk sw)) = true.
Proof.
  intros Inv. induction n as [|n IH]; intros x q Hd Fx Hwf.
  - destruct x; [reflexivity | simpl in Hd; lia].
  - destruct x as [d|es]; [reflexivity|].
    unfold dataLlmDest, path.join in *. rewrite <- app_assoc.
    change [str "data"; str "llm"] with dataLlmSrc in *.
    cbn [roomFor].
    destruct (fs.find (out ++ dataLlmSrc ++ q) (disk sw)) as [[t|ds]|] eqn:Fd;
      [| |reflexivity].
    + destruct (mirror_file _ _ _ _ Inv Fd) as [_ [_ [data [F' _]]]]. congruence.
    + apply wellFormed_Dir in Hwf. destruct Hwf as [Hdist Hwfc].
      apply forallb_forall. intros [name y] I.
      pose proof (In_assoc _ _ _ Hdist I) as A.
      assert (fs.find (dataLlmSrc ++ q ++ [name]) (disk s6) = Some y) as Fy.
      { rewrite app_assoc, find_app, Fx. simpl. rewrite A. reflexivity. }
      assert (fs.find (out ++ dataLlmSrc ++ q ++ [name]) (disk sw)
              = assoc name ds) as Fn.
      { rewrite (app_assoc dataLlmSrc), app_assoc, find_app, Fd. simpl.
        destruct (assoc name ds); reflexivity. }
      destruct y as [data|es2].
      * destruct (assoc name ds) as [[t|ds2]|] eqn:An;
          try (rewrite orb_true_r; reflexivity).
        exfalso.
        destruct (mirror_dir _ _ (dataLlmSrc ++ q ++ [name]) ds2 Inv) as [es' D];
          [discriminate | exact Fn | congruence].
      * rewrite <- Fn, (app_assoc out). apply IH.
        -- apply depth_child in I. lia.
        -- exact Fy.
        -- apply (Hwfc name _ I).
Qed.

(** The stager, run after the walk. *)
Lemma stager_after_walk (fuel : nat) (s6 sw : state) :
  diverge [str "data"] out = true ->
  dataReady (disk s6) = true ->
  (depth (disk s6) <= fuel)%nat ->
  walkInv cfg minify minifyHTML s6 sw ->
  exists sst,
    copyDataDirectory cfg fuel sw = Ok tt sst
    /\ isDirAt out (disk sst)
    /\ (forall r text,
          fs.find (out ++ r) (disk sw) = Some (File text) ->
          fs.find (out ++ r) (disk sst) = Some (File text))
    /\ (forall q data,
          fs.find (dataLlmSrc ++ q) (disk s6) = Some (File data) ->
          isJson (last q []) = true ->
          fs.find (out ++ dataLlmSrc ++ q) (disk sst) = Some (File data))
    /\ (forall r text,
          fs.find (out ++ r) (disk sst) = Some (File text) ->
          fs.find (out ++ r) (disk sw) = Some (File text)
          \/ exists q, r = dataLlmSrc ++ q
                       /\ isJson (last q []) = true
                       /\ fs.find (dataLlmSrc ++ q) (disk s6) = Some (File text)).
Proof.
  intros Hdata Hready Hdepth Inv.
  assert (diverge dataLlmSrc out = true) as Dsrc.
  { pose proof (diverge_app _ _ [str "llm"] [] Hdata) as D.
    rewrite app_nil_r in D. exact D. }
  assert (fs.find dataLlmSrc (disk sw) = fs.find dataLlmSrc (disk s6)) as Esrc
      by (destruct Inv as [Hsame _]; apply Hsame, Dsrc).
  unfold dataReady in Hready.
  destruct (fs.find dataLlmSrc (disk s6)) as [x|] eqn:Fsrc.
  - apply andb_true_iff in Hready. destruct Hready as [Hisdir Hwf].
    destruct x as [d|Td]; [discriminate|]. clear Hisdir.
    assert (forall p' t, prefixOf p' (dataLlmDest cfg) ->
                         fs.find p' (disk sw) <> Some (File t)) as Hway.
    { intros p' t P Fp. unfold dataLlmDest, path.join in P.
      destruct (prefix_split _ _ _ P) as [[u Eu]|[r' [NE' [-> [u Eu]]]]].
      - destruct Inv as [_ [[eso Hdir] _]].
        apply (below_file p' u (disk sw) t eso Fp). rewrite <- Eu. exact Hdir.
      - destruct (mirror_file _ _ _ _ Inv Fp) as [_ [_ [data [F' _]]]].
        apply (below_file r' u (disk s6) data Td F').
        change [str "data"; str "llm"] with dataLlmSrc in Eu.
        rewrite <- Eu. exact Fsrc. }
    destruct (mkdirp_total _ _ Hway) as [d1 Hd1].
    destruct (copyDataDirectory_staged cfg fuel sw Td d1)
      as [sst [Hrun [S1 [S2 [S3 [S4 S5]]]]]].
    + rewrite Esrc. reflexivity.
    + exact Hwf.
    + apply depth_find in Fsrc. lia.
    + unfold dataLlmDest, path.join.
      pose proof (diverge_app _ _ [] [str "data"; str "llm"] Dsrc) as D.
      rewrite app_nil_r in D. exact D.
    + exact Hd1.
    + pose proof (room_after_walk s6 sw Inv _ (Dir Td) [] (le_n _)) as H.
      rewrite !app_nil_r in H. apply H; [exact Fsrc | exact Hwf].
    + assert (filesStay sw sst) as Hstay.
      { refine (respects_endsIn _ _ _ _ (copyDataDirectory_filesStay cfg fuel) _).
        rewrite Hrun. reflexivity. }
      assert (forall q, dataLlmDest cfg ++ q = out ++ dataLlmSrc ++ q) as Edest
          by (intros q; unfold dataLlmDest, path.join; rewrite <- app_assoc;
              reflexivity).
      assert (forall q, fs.find (dataLlmSrc ++ q) (disk s6) = fs.find q (Dir Td))
        as Esub by (intros q; rewrite find_app, Fsrc; reflexivity).
      exists sst. split; [exact Hrun|].
      split; [apply S2; destruct Inv as [_ [D _]]; exact D|]. split; [|split].
      * (* the output of the walk is still there *)
        intros r text F.
        destruct (prefixOf_dec (dataLlmDest cfg) (out ++ r)) as [[q Eq]|NP].
        -- destruct (Hstay _ _ F) as [x' F'].
           rewrite Eq in F'. destruct (S5 q x' F') as [Old|[J Fq]].
           ++ rewrite <- Eq in Old. rewrite Eq, F'. congruence.
           ++ rewrite Edest in Eq. apply app_inv_head in Eq. subst r.
              destruct (mirror_file _ _ _ _ Inv F) as [_ [_ [data [Fd Ht]]]].
              rewrite Esub in Fd. assert (data = x') as -> by congruence.
              assert (q <> []) as NEq by (intros ->; discriminate Fq).
              rewrite (outputText_json _ _ _ _ NEq J) in Ht.
              rewrite <- Edest, F'. congruence.
        -- rewrite S1; [exact F | | exact NP].
           intros P. apply (Hway _ _ P F).
      * (* the JSON files of the data directory are copied *)
        intros q data F J. rewrite Esub in F. rewrite <- Edest.
        apply (S4 q data F J).
      * (* nothing else is new *)
        intros r text F.
        destruct (prefixOf_dec (dataLlmDest cfg) (out ++ r)) as [[q Eq]|NP].
        -- rewrite Eq in F. destruct (S5 q text F) as [Old|[J Fq]].
           ++ left. rewrite Eq. exact Old.
           ++ right. rewrite Edest in Eq. apply app_inv_head in Eq.
              exists q. rewrite Esub. auto.
        -- left. rewrite <- F. symmetry. apply S1; [|exact NP].
           intros [u Eu].
           destruct (S3 [] Td eq_refl) as [es' D]. rewrite app_nil_r in D.
           apply (below_file _ u _ _ es' F). rewrite <- Eu. exact D.
  - exists (State (disk sw) (fileMapping sw)
                  (console sw ++ [(Log, [9888] ++ str " No data/llm directory found, skipping...")])
                  (clock sw)).
    split; [|split; [|split; [|split]]].
    + unfold copyDataDirectory, bind, fs.existsSync. rewrite Esrc. reflexivity.
    + destruct Inv as [_ [D _]]. exact D.
    + intros r text F. exact F.
    + intros q data F. rewrite find_app, Fsrc in F. discriminate.
    + intros r text F. left. exact F.
Qed.

Lemma log_step {A : Type} (msg : jsstring) (k : M A) (s : state) :
  (console_log msg ;; k) s
  = k (State (disk s) (fileMapping s) (console s ++ [(Log, msg)]) (clock s)).
Proof. reflexivity. Qed.

Lemma createOutputDirectory_depth (s s' : state) :
  createOutputDirectory cfg s = Ok tt s' ->
  (depth (disk s') <= Nat.max (depth (disk s)) (S (List.length out)))%nat.
Proof.
  unfold createOutputDirectory, bind, fs.existsSync.
  destruct (fs.find out (disk s)); cbn [when negb];
    unfold fs.rmSync, ret, fs.mkdirSync; cbn [disk fs.setDisk].
  - destruct (fs.mkdirp out (fs.remove out (disk s))) as [e|d] eqn:E;
      [discriminate|].
    intros H; injection H as <-. cbn [disk fs.setDisk].
    pose proof (depth_mkdirp _ _ _ E). pose proof (depth_remove out (disk s)). lia.
  - destruct (fs.mkdirp out (disk s)) as [e|d] eqn:E; [discriminate|].
    intros H; injection H as <-. cbn [disk fs.setDisk].
    apply (depth_mkdirp _ _ _ E).
Qed.

Lemma walked_apart (r : fpath) :
  out <> [] ->
  shouldExclude cfg (firstn 1 out) = true ->
  r <> [] -> walked cfg [] r = true -> diverge r out = true.
Proof.
  intros NEo X NE W. destruct r as [|k r]; [congruence|].
  destruct out as [|c p]; [congruence|].
  - simpl in X, W. simpl. destruct (jseq k c) eqn:J; [|reflexivity].
    apply jseq_eq in J; subst k. rewrite X in W. discriminate.
Qed.

Lemma outputApart_any (T : list (jsstring * node)) :
  shouldExclude cfg (firstn 1 out) = true -> out <> [] ->
  outputApart cfg T = true.
Proof.
  intros X NE. unfold outputApart. apply forallb_forall. intros [k x] _.
  rewrite sourceHere. simpl. destruct out as [|c p]; [congruence|].
  simpl in X. simpl. destruct (jseq k c) eqn:J.
  - apply jseq_eq in J; subst k. rewrite X. reflexivity.
  - apply orb_true_r.
Qed.

(** The whole script on a source tree in the working directory. *)
Lemma build_core (fuel : nat) (s : state) :
  out <> [] ->
  isDirAt (path.dirname out) (disk s) ->
  shouldExclude cfg (firstn 1 out) = true ->
  diverge [str "data"] out = true ->
  dataReady (disk s) = true ->
  (depth (disk s) <= fuel)%nat ->
  (List.length out < fuel)%nat ->
  exists s',
    main cfg minify minifyHTML md5 now cwd fuel s = Ok tt s'
    /\ isDirAt out (disk s')
    /\ (forall r data,
          r <> [] ->
          walked cfg [] r = true ->
          fs.find r (disk s) = Some (File data) ->
          exists text,
            outputText cfg minify minifyHTML r data s = Some text
            /\ fs.find (out ++ r) (disk s') = Some (File text))
    /\ (forall q data,
          fs.find (dataLlmSrc ++ q) (disk s) = Some (File data) ->
          isJson (last q []) = true ->
          fs.find (out ++ dataLlmSrc ++ q) (disk s') = Some (File data))
    /\ (forall r text,
          fs.find (out ++ r) (disk s') = Some (File text) ->
          (r <> []
           /\ walked cfg [] r = true
           /\ exists data,
                fs.find r (disk s) = Some (File data)
                /\ outputText cfg minify minifyHTML r data s = Some text)
          \/ (exists q,
                r = dataLlmSrc ++ q
                /\ isJson (last q []) = true
                /\ fs.find (dataLlmSrc ++ q) (disk s) = Some (File text))).
Proof.
  intros NE Hparent Hexcl Hdata Hready Hdepth Hlen.
  destruct (createOutputDirectory_effect cfg s NE Hparent)
    as [d [Hcreate [Hnew Hframe]]].
  pose proof (createOutputDirectory_depth _ _ Hcreate) as Hd.
  cbn [disk fs.setDisk] in Hd.
  assert (diverge dataLlmSrc out = true) as Dsrc.
  { pose proof (diverge_app _ _ [str "llm"] [] Hdata) as D.
    rewrite app_nil_r in D. exact D. }
  unfold main. unfold bind at 1. rewrite Hcreate. unfold build.
  rewrite !log_step. cbn [disk fileMapping console clock fs.setDisk].
  match goal with
  | |- exists s', bind _ _ ?S = _ /\ _ => set (s6 := S)
  end.
  assert (disk s6 = d) as Ed by reflexivity.
  destruct d as [x|Tc]; [destruct out; [congruence | discriminate]|].
  destruct (walk_root cfg minify minifyHTML md5 now fuel Tc s6)
    as [sw [Hwalk [Inv C]]].
  { exact plainNames. }
  { rewrite sourceHere. exact (f_equal Some Ed). }
  { rewrite Ed. exact Hnew. }
  { apply outputApart_any; assumption. }
  { lia. }
  destruct (stager_after_walk fuel s6 sw Hdata) as [sst [Hstage [Dout [A [B E]]]]].
  { unfold dataReady. rewrite Ed, (Hframe _ Dsrc). exact Hready. }
  { rewrite Ed. lia. }
  { exact Inv. }
  assert (forall q, diverge q out = true ->
                    fs.find q (disk s6) = fs.find q (disk s)) as Hsrc
      by (intros q D; rewrite Ed; apply Hframe, D).
  eexists. split.
  { unfold bind at 1. rewrite Hwalk. unfold bind at 1. rewrite Hstage.
    reflexivity. }
  cbn [disk]. split; [exact Dout|]. split; [|split].
  - intros r data NEr W F.
    pose proof (walked_apart r NE Hexcl NEr W) as D.
    destruct (C r data NEr) as [text [Ht Hf]].
    + rewrite sourceHere. exact W.
    + rewrite sourceHere. cbn [app]. rewrite (Hsrc _ D). exact F.
    + rewrite sourceHere in Ht. cbn [app] in Ht, Hf.
      exists text. split; [|apply A, Hf].
      rewrite (outputText_plain cfg minify minifyHTML plainNames _ _ s s6).
      exact Ht.
  - intros q data F J. apply (B q data); [|exact J].
    rewrite Hsrc; [exact F|].
    pose proof (diverge_app _ _ q [] Dsrc) as D. rewrite app_nil_r in D. exact D.
  - intros r text F. destruct (E r text F) as [Old|[q [-> [J Fq]]]].
    + left. destruct (mirror_file _ _ _ _ Inv Old) as [NEr [W [data [Fd Ht]]]].
      split; [exact NEr|]. split; [exact W|]. exists data.
      rewrite (Hsrc _ (walked_apart r NE Hexcl NEr W)) in Fd.
      split; [exact Fd|].
      rewrite (outputText_plain cfg minify minifyHTML plainNames _ _ s s6).
      exact Ht.
    + right. exists q. split; [reflexivity|]. split; [exact J|].
      rewrite <- Hsrc; [exact Fq|].
      pose proof (diverge_app _ _ q [] Dsrc) as D. rewrite app_nil_r in D.
      exact D.
Qed.

(** X16. A build of a site in the working directory, with the names of the
    scripts kept and the output directory below an excluded entry, ends
    well, and its output is complete: every source file that the walker
    comes to has its output text at the same relative path of the output
    directory, and every JSON file of [data/llm] has its copy there,
    whether the walker comes to it or not. *)
Theorem build_output_complete (fuel : nat) (s : state) :
  out <> [] ->
  isDirAt (path.dirname out) (disk s) ->
  shouldExclude cfg (firstn 1 out) = true ->
  diverge [str "data"] out = true ->
  dataReady (disk s) = true ->
  (depth (disk s) <= fuel)%nat ->
  (List.length out < fuel)%nat ->
  exists s',
    main cfg minify minifyHTML md5 now cwd fuel s = Ok tt s'
    /\ (forall r data,
          r <> [] ->
          walked cfg [] r = true ->
          fs.find r (disk s) = Some (File data) ->
          exists text,
            outputText cfg minify minifyHTML r data s = Some text
            /\ fs.find (out ++ r) (disk s') = Some (File text))
    /\ (forall q data,
          fs.find (dataLlmSrc ++ q) (disk s) = Some (File data) ->
          isJson (last q []) = true ->
          fs.find (out ++ dataLlmSrc ++ q) (disk s') = Some (File data)).
Proof.
  intros NE Hparent Hexcl Hdata Hready Hdepth Hlen.
  destruct (build_core fuel s NE Hparent Hexcl Hdata Hready Hdepth Hlen)
    as [s' [Hrun [_ [A [B _]]]]].
  exists s'. auto.
Qed.

(** X17. The output of such a build holds nothing else: a file of the output
    directory is the output of a source file that the walker came to, at
    the same relative path, or the copy of a JSON file of [data/llm].
    Nothing is left of an earlier output, and nothing of an excluded file
    is there unless it is such a JSON file. *)
Theorem build_output_exact (fuel : nat) (s : state) :
  out <> [] ->
  isDirAt (path.dirname out) (disk s) ->
  shouldExclude cfg (firstn 1 out) = true ->
  diverge [str "data"] out = true ->
  dataReady (disk s) = true ->
  (depth (disk s) <= fuel)%nat ->
  (List.length out < fuel)%nat ->
  exists s',
    main cfg minify minifyHTML md5 now cwd fuel s = Ok tt s'
    /\ forall r text,
         fs.find (out ++ r) (disk s') = Some (File text) ->
         (r <> []
          /\ walked cfg [] r = true
          /\ exists data,
               fs.find r (disk s) = Some (File data)
               /\ outputText cfg minify minifyHTML r data s = Some text)
         \/ (exists q,
               r = dataLlmSrc ++ q
               /\ isJson (last q []) = true
               /\ fs.find (dataLlmSrc ++ q) (disk s) = Some (File text)).
Proof.
  intros NE Hparent Hexcl Hdata Hready Hdepth Hlen.
  destruct (build_core fuel s NE Hparent Hexcl Hdata Hready Hdepth Hlen)
    as [s' [Hrun [_ [_ [_ E]]]]].
  exists s'. auto.
Qed.

Lemma above_dir (p r : fpath) (n : node) (es : list (jsstring * node)) :
  fs.find (p ++ r) n = Some (Dir es) -> isDirAt p n.
Proof.
  rewrite find_app. destruct (fs.find p n) as [[d|es']|] eqn:F; try discriminate.
  - destruct r; discriminate.
  - intros _. exists es'. exact F.
Qed.

(** X18. A second build after such a build, with nothing changed in between,
    ends well and leaves the same files with the same texts in the output
    directory. *)
Theorem rebuild_same_output (fuel fuel' : nat) (s s1 : state) :
  out <> [] ->
  isDirAt (path.dirname out) (disk s) ->
  shouldExclude cfg (firstn 1 out) = true ->
  diverge [str "data"] out = true ->
  dataReady (disk s) = true ->
  (depth (disk s) <= fuel)%nat ->
  (List.length out < fuel)%nat ->
  main cfg minify minifyHTML md5 now cwd fuel s = Ok tt s1 ->
  (depth (disk s1) <= fuel')%nat ->
  (List.length out < fuel')%nat ->
  exists s2,
    main cfg minify minifyHTML md5 now cwd fuel' s1 = Ok tt s2
    /\ forall r text,
         fs.find (out ++ r) (disk s2) = Some (File text)
         <-> fs.find (out ++ r) (disk s1) = Some (File text).
Proof.
  intros NE Hparent Hexcl Hdata Hready Hdepth Hlen Hrun1 Hdepth' Hlen'.
  destruct (build_core fuel s NE Hparent Hexcl Hdata Hready Hdepth Hlen)
    as [s1' [Hrun [[eso Dout] [A [B E]]]]].
  rewrite Hrun1 in Hrun. injection Hrun as <-.
  assert (forall q, diverge q out = true ->
                    fs.find q (disk s1) = fs.find q (disk s)) as Hsrc.
  { intros q D.
    refine (respects_endsIn _ _ _ _
              (main_sameOutside cfg minify minifyHTML md5 now cwd fuel) _ q D).
    rewrite Hrun1. reflexivity. }
  assert (diverge dataLlmSrc out = true) as Dsrc.
  { pose proof (diverge_app _ _ [str "llm"] [] Hdata) as D.
    rewrite app_nil_r in D. exact D. }
  assert (forall q, diverge (dataLlmSrc ++ q) out = true) as Dq.
  { intros q. pose proof (diverge_app _ _ q [] Dsrc) as D.
    rewrite app_nil_r in D. exact D. }
  destruct (build_core fuel' s1 NE) as [s2 [Hrun2 [_ [A2 [B2 E2]]]]].
  - apply (above_dir _ [last out (str ".")] _ eso).
    unfold path.dirname. rewrite <- (app_removelast_last (str ".") NE).
    exact Dout.
  - exact Hexcl.
  - exact Hdata.
  - unfold dataReady. rewrite (Hsrc _ Dsrc). exact Hready.
  - exact Hdepth'.
  - exact Hlen'.
  - exists s2. split; [exact Hrun2|]. intros r text. split; intros F.
    + destruct (E2 r text F) as [[NEr [W [data [Fd Ht]]]]|[q [-> [J Fq]]]].
      * rewrite (Hsrc _ (walked_apart r NE Hexcl NEr W)) in Fd.
        destruct (A r data NEr W Fd) as [text' [Ht' Hf]].
        rewrite (outputText_plain cfg minify minifyHTML plainNames _ _ s1 s) in Ht.
        congruence.
      * rewrite (Hsrc _ (Dq q)) in Fq. apply (B q text Fq J).
    + destruct (E r text F) as [[NEr [W [data [Fd Ht]]]]|[q [-> [J Fq]]]].
      * rewrite <- (Hsrc _ (walked_apart r NE Hexcl NEr W)) in Fd.
        destruct (A2 r data NEr W Fd) as [text' [Ht' Hf]].
        rewrite (outputText_plain cfg minify minifyHTML plainNames _ _ s1 s) in Ht'.
        congruence.
      * rewrite <- (Hsrc _ (Dq q)) in Fq. apply (B2 q text Fq J).
Qed.

End BuildRun.

(** ** The lines of the build (lines 248-263) *)

Section BuildLog.

Variable cfg : config.t.
Variable minify : jsstring -> option jsstring.
Variable minifyHTML : jsstring -> option jsstring.
Variable md5 : jsstring -> jsstring.
Variable now : nat -> N.
Variable cwd : fpath.

Lemma progress_refl (s : state) : progress s s.
Proof. exists []. rewrite app_nil_r. auto. Qed.

Lemma progress_trans (s1 s2 s3 : state) :
  progress s1 s2 -> progress s2 s3 -> progress s1 s3.
Proof.
  intros [l1 [E1 P1]] [l2 [E2 P2]]. exists (l1 ++ l2). split.
  - rewrite E2, E1, app_assoc. reflexivity.
  - unfold progressLines in *. rewrite forallb_app, P1, P2. reflexivity.
Qed.

Lemma progress_same (s s' : state) : console s' = console s -> progress s s'.
Proof. intros E. exists []. rewrite app_nil_r. auto. Qed.

Lemma progress_line (st : stream) (msg : jsstring) (s s' : state) :
  progressText msg = true ->
  console s' = console s ++ [(st, msg)] -> progress s s'.
Proof.
  intros H E. exists [(st, msg)]. split; [exact E|].
  unfold progressLines. simpl. rewrite H. reflexivity.
Qed.

Lemma walk_progress (fuel : nat) :
  respects progress
           (processDirectory cfg minify minifyHTML md5 now fuel
                             (config.inputDir cfg) (config.inputDir cfg)).
Proof.
  apply respects_walk with (printable := fun msg => progressText msg = true).
  - apply progress_refl.
  - apply progress_trans.
  - intros msg H. exact H.
  - intros msg H s. apply (progress_line Log msg _ _ H). reflexivity.
  - intros msg H s. apply (progress_line Warn msg _ _ H). reflexivity.
  - intros p _ s. unfold fs.mkdirSync.
    destruct (fs.mkdirp p (disk s)); apply progress_same; reflexivity.
  - intros p data _ s. unfold fs.writeFileSync.
    destruct (fs.store p data (disk s)); apply progress_same; reflexivity.
  - intros _ filePath _ s. apply progress_same. reflexivity.
Qed.

Lemma stager_progress (fuel : nat) :
  respects progress (copyDataDirectory cfg fuel).
Proof.
  apply respects_copyDataDirectory
    with (printable := fun msg => progressText msg = true).
  - apply progress_refl.
  - apply progress_trans.
  - intros msg H. exact H.
  - intros msg H s. apply (progress_line Log msg _ _ H). reflexivity.
  - intros p _ s. unfold fs.mkdirSync.
    destruct (fs.mkdirp p (disk s)); apply progress_same; reflexivity.
  - intros p data _ s. unfold fs.writeFileSync.
    destruct (fs.store p data (disk s)); apply progress_same; reflexivity.
Qed.

(** [build], step by step. *)
Lemma build_run (fuel : nat) (s : state) :
  build cfg minify minifyHTML md5 now cwd fuel s
  = match processDirectory cfg minify minifyHTML md5 now fuel
            (config.inputDir cfg) (config.inputDir cfg)
            (State (disk s) (fileMapping s)
                   (console s ++ buildHeader cfg cwd) (clock s)) with
    | Ok _ sw =>
        match copyDataDirectory cfg fuel sw with
        | Ok _ sst =>
            Ok tt (State (disk sst) (fileMapping sst)
                         (console sst ++ buildFooter cfg cwd) (clock sst))
        | Throw e x => Throw e x
        | OutOfFuel => OutOfFuel
        | Unmodelled => Unmodelled
        end
    | Throw e x => Throw e x
    | OutOfFuel => OutOfFuel
    | Unmodelled => Unmodelled
    end.
Proof.
  unfold build. rewrite !log_step. cbn [disk fileMapping console clock].
  unfold buildHeader. cbn [app]. rewrite <- !app_assoc. cbn [app].
  unfold bind at 1.
  destruct (processDirectory _ _ _ _ _ _ _ _ _) as [u sw|e sw| |];
    try reflexivity.
  unfold bind at 1.
  destruct (copyDataDirectory cfg fuel sw) as [u2 sst|e sst| |];
    try reflexivity.
  unfold bind, console_log, buildFooter. cbn [disk fileMapping console clock].
  rewrite <- !app_assoc. reflexivity.
Qed.

(** X19. When [build] ends by returning or by throwing an error of the
    file system, it has first printed its six lines on the configuration
    and then lines of progress only (one for a file, a warning, or the
    line on the data directory); the two lines of completion come last when
    it returns, and are not printed when it throws.
    Runs that end otherwise are not covered: with file names obfuscated,
    a page is rewritten while the mapping holds a script name with a
    character of pattern syntax other than the dot, and line 147 builds a
    pattern that [match_here] does not cover. *)
Theorem build_log (fuel : nat) (s s' : state) :
  endsIn (build cfg minify minifyHTML md5 now cwd fuel s) s' ->
  exists mid,
    progressLines mid = true
    /\ console s'
       = console s ++ buildHeader cfg cwd ++ mid
         ++ match build cfg minify minifyHTML md5 now cwd fuel s with
            | Ok _ _ => buildFooter cfg cwd
            | _ => []
            end.
Proof.
  rewrite build_run.
  set (s6 := State (disk s) (fileMapping s)
                   (console s ++ buildHeader cfg cwd) (clock s)).
  pose proof (walk_progress fuel s6) as H1.
  destruct (processDirectory cfg minify minifyHTML md5 now fuel
                             (config.inputDir cfg) (config.inputDir cfg) s6)
    as [u sw|e sw| |]; try (intros F; exact (False_ind _ F));
    destruct H1 as [l1 [E1 P1]]; cbn [console s6] in E1.
  - pose proof (stager_progress fuel sw) as H2.
    destruct (copyDataDirectory cfg fuel sw) as [u2 sst|e sst| |];
      try (intros F; exact (False_ind _ F)); destruct H2 as [l2 [E2 P2]];
      cbn [endsIn]; intros <-; cbn [console];
      exists (l1 ++ l2);
      (split; [unfold progressLines in *; rewrite forallb_app, P1, P2;
               reflexivity|]);
      rewrite E2, E1, ?app_nil_r, <- !app_assoc; reflexivity.
  - cbn [endsIn]. intros <-. exists l1. split; [exact P1|].
    rewrite E1, app_nil_r, <- !app_assoc. reflexivity.
Qed.

End BuildLog.

(** ** Witnesses of the theorems on the rest of the script *)

Lemma run_changes_output_only_witness :
  exists s',
    main Site.cfg Sample.trimming Sample.trimming Sample.md5 Sample.now []
         3 (Sample.start Site.stale) = Ok tt s'
    /\ fs.find [str "assets"; str "app.js"] (disk s')
       = Some (File (str " run() ")).
Proof.
  assert (exists s', main Site.cfg Sample.trimming Sample.trimming Sample.md5
                          Sample.now [] 3 (Sample.start Site.stale) = Ok tt s')
    as [s' E] by (vm_compute; eexists; reflexivity).
  exists s'. split; [exact E|].
  rewrite (run_changes_output_only Site.cfg Sample.trimming Sample.trimming
             Sample.md5 Sample.now [] 3 (Sample.start Site.stale) s'
             [str "assets"; str "app.js"]).
  - reflexivity.
  - rewrite E. reflexivity.
  - reflexivity.
Defined.

Lemma plain_names_no_clock_witness :
  exists s',
    main Site.cfg Sample.trimming Sample.trimming Sample.md5 Sample.now []
         3 (Sample.start Site.stale) = Ok tt s'
    /\ fileMapping s' = [] /\ clock s' = 0%nat.
Proof.
  assert (exists s', main Site.cfg Sample.trimming Sample.trimming Sample.md5
                          Sample.now [] 3 (Sample.start Site.stale) = Ok tt s')
    as [s' E] by (vm_compute; eexists; reflexivity).
  exists s'. split; [exact E|].
  apply (plain_names_no_clock Site.cfg Sample.trimming Sample.trimming
           Sample.md5 Sample.now [] 3 (Sample.start Site.stale) s').
  - reflexivity.
  - rewrite E. reflexivity.
Defined.

Lemma stager_keeps_mapping_witness :
  exists s',
    copyDataDirectory Site.cfg 3
      (State Sample.data [(str "a.js", str "b1cd24ed.js")] [] 1) = Ok tt s'
    /\ fileMapping s' = [(str "a.js", str "b1cd24ed.js")] /\ clock s' = 1%nat.
Proof.
  assert (exists s', copyDataDirectory Site.cfg 3
                       (State Sample.data [(str "a.js", str "b1cd24ed.js")] [] 1)
                     = Ok tt s')
    as [s' E] by (vm_compute; eexists; reflexivity).
  exists s'. split; [exact E|].
  apply (stager_keeps_mapping Site.cfg 3
           (State Sample.data [(str "a.js", str "b1cd24ed.js")] [] 1) s').
  rewrite E. reflexivity.
Defined.

Lemma mapping_records_scripts_witness :
  exists s' v,
    main (Sample.cfg true false None) Sample.failing Sample.failing
         Sample.md5 Sample.now [] 3 (Sample.start Sample.flat) = Ok tt s'
    /\ assoc (str "a.js") (fileMapping s') = Some v
    /\ exists t : N,
         v = firstn 8 (Sample.md5 (str "a.js" ++ numberToString t)) ++ str ".js".
Proof.
  assert (exists s' v,
             main (Sample.cfg true false None) Sample.failing Sample.failing
                  Sample.md5 Sample.now [] 3 (Sample.start Sample.flat) = Ok tt s'
             /\ assoc (str "a.js") (fileMapping s') = Some v)
    as [s' [v [E A]]] by (vm_compute; eexists; eexists; split; reflexivity).
  exists s', v. split; [exact E|]. split; [exact A|].
  destruct (mapping_records_scripts (Sample.cfg true false None)
              Sample.failing Sample.failing Sample.md5 Sample.now [] 3
              (Sample.start Sample.flat) s' (str "a.js") v)
    as [Old|[_ New]].
  - rewrite E. reflexivity.
  - exact A.
  - discriminate Old.
  - exact New.
Defined.

Lemma output_directory_made_anew_witness :
  exists d,
    createOutputDirectory Site.cfg (Sample.start Site.stale)
    = Ok tt (fs.setDisk d (Sample.start Site.stale))
    /\ fs.find [str "dist"] d = Some (Dir [])
    /\ fs.find [str "logo.png"] d = Some (File (str "PNG")).
Proof.
  destruct (output_directory_made_anew Site.cfg (Sample.start Site.stale))
    as [d [Hrun [Hnew Hframe]]].
  - discriminate.
  - eexists. reflexivity.
  - exists d. split; [exact Hrun|]. split; [exact Hnew|].
    rewrite (Hframe [str "logo.png"]); reflexivity.
Defined.

Lemma obfuscated_name_keeps_extension_witness :
  exists hash,
    generateObfuscatedName Sample.md5 Sample.now (str "app.js")
                           (Sample.start Sample.flat)
    = Ok (hash ++ str ".js") (State Sample.flat [] [] 1)
    /\ List.length hash = 8%nat
    /\ path.extname [hash ++ str ".js"] = str ".js".
Proof.
  destruct (obfuscated_name_keeps_extension Sample.md5 Sample.now (str "app.js")
              (Sample.start Sample.flat))
    as [hash [Hrun [Hlen [_ Hext]]]].
  - vm_compute. lia.
  - vm_compute. reflexivity.
  - exists hash. split; [exact Hrun|]. split; [exact Hlen | exact Hext].
Defined.

Lemma other_file_copied_witness :
  exists s',
    processFile Site.cfg Sample.trimming Sample.trimming Sample.md5 Sample.now
                [str "logo.png"] [str "logo.png"] (Sample.start Site.tree)
    = Ok tt s'
    /\ fs.find [str "dist"; str "logo.png"] (disk s') = Some (File (str "PNG")).
Proof.
  destruct (other_file_copied Site.cfg Sample.trimming Sample.trimming
              Sample.md5 Sample.now [str "logo.png"] [str "logo.png"]
              (Sample.start Site.tree) (str "PNG"))
    as [s' [Hrun [Hfind _]]].
  - intros E. vm_compute in E. discriminate.
  - intros E. vm_compute in E. discriminate.
  - intros E. vm_compute in E. discriminate.
  - intros E. vm_compute in E. discriminate.
  - discriminate.
  - reflexivity.
  - intros p x [r E] F. destruct p as [|a [|b p]].
    + discriminate F.
    + injection E as <- _. discriminate F.
    + discriminate E.
  - intros es F. discriminate F.
  - exists s'. split; [exact Hrun | exact Hfind].
Defined.

Lemma missing_source_throws_witness :
  (exists d1,
     processFile Site.cfg Sample.trimming Sample.trimming Sample.md5 Sample.now
                 [str "pages"; str "about.html"] [str "pages"; str "about.html"]
                 (Sample.start Site.tree)
     = Throw ENOENT (fs.setDisk d1 (Sample.start Site.tree))
     /\ isDirAt [str "dist"; str "pages"] d1)
  /\ (exists d1,
        processFile Site.cfg Sample.trimming Sample.trimming Sample.md5 Sample.now
                    [str "logo.png"; str "x.html"] [str "logo.png"; str "x.html"]
                    (Sample.start Site.tree)
        = Throw ENOTDIR (fs.setDisk d1 (Sample.start Site.tree))
        /\ isDirAt [str "dist"; str "logo.png"] d1).
Proof.
  split.
  - destruct (missing_source_throws Site.cfg Sample.trimming Sample.trimming
                Sample.md5 Sample.now
                [str "pages"; str "about.html"] [str "pages"; str "about.html"]
                (Sample.start Site.tree))
      as [d1 [e [Hrun [_ [Hdir [He _]]]]]].
    + reflexivity.
    + intros [r E]. discriminate E.
    + intros p x [r E] F. destruct p as [|a [|b [|c p]]].
      * discriminate F.
      * injection E as <- _. discriminate F.
      * injection E as <- <- _. discriminate F.
      * discriminate E.
    + exists d1. split; [|exact Hdir]. rewrite <- He; [exact Hrun|].
      intros p x [r E] F. destruct p as [|a [|b [|c p]]].
      * discriminate F.
      * injection E as <- _. discriminate F.
      * injection E as <- <- _. discriminate F.
      * discriminate E.
  - destruct (missing_source_throws Site.cfg Sample.trimming Sample.trimming
                Sample.md5 Sample.now
                [str "logo.png"; str "x.html"] [str "logo.png"; str "x.html"]
                (Sample.start Site.tree))
      as [d1 [e [Hrun [_ [Hdir [_ He]]]]]].
    + reflexivity.
    + intros [r E]. discriminate E.
    + intros p x [r E] F. destruct p as [|a [|b [|c p]]].
      * discriminate F.
      * injection E as <- _. discriminate F.
      * injection E as <- <- _. discriminate F.
      * discriminate E.
    + exists d1. split; [|exact Hdir].
      rewrite <- (He [str "logo.png"] (str "PNG")); [exact Hrun | | reflexivity].
      exists [str "x.html"]. reflexivity.
Defined.

Lemma minified_css_spaces_witness :
  minifyCSS (str "  a  b { }  ") = str "a" ++ 32 :: str "b{}"
  /\ (exists x' p, str "a" = x' ++ [p]
                   /\ isWhiteSpace p = false /\ punct p = false)
  /\ (exists n y', str "b{}" = n :: y'
                   /\ isWhiteSpace n = false /\ punct n = false).
Proof.
  split; [reflexivity|].
  apply (minified_css_spaces (str "  a  b { }  ") (str "a") (str "b{}") 32);
    reflexivity.
Defined.

Lemma css_comment_shortens_witness :
  hasComment (str "a /* c */ b") = true
  /\ (List.length (minifyCSS (str "a /* c */ b")) < 11)%nat.
Proof.
  split; [reflexivity|].
  apply (css_comment_shortens (str "a /* c */ b")). reflexivity.
Defined.

Lemma walk_mirrors_sources_witness :
  exists s',
    processDirectory Site.cfg Sample.trimming Sample.trimming Sample.md5
                     Sample.now 3 [] [] (Sample.start Site.tree) = Ok tt s'
    /\ fs.find [str "dist"; str "assets"; str "style.css"] (disk s')
       = Some (File (str "a{color:red}"))
    /\ fs.find [str "dist"; str "assets"; str "app.js"] (disk s')
       = Some (File (str "run()"))
    /\ fs.find [str "dist"; str "logo.png"] (disk s') = Some (File (str "PNG")).
Proof.
  destruct (walk_mirrors_sources Site.cfg Sample.trimming Sample.trimming
              Sample.md5 Sample.now 3
              [(str "assets",
                Dir [(str "app.js", File (str " run() "));
                     (str "style.css", File (str "a { color : red }"))]);
               (str "dist", Dir []);
               (str "index.html", File (Sample.page (str "'assets/app.js'")));
               (str "logo.png", File (str "PNG"));
               (str "node_modules", Dir [(str "lib.js", File (str "lib()"))])]
              (Sample.start Site.tree))
    as [s' [Hrun C]].
  - reflexivity.
  - reflexivity.
  - reflexivity.
  - vm_compute. reflexivity.
  - vm_compute. lia.
  - exists s'. split; [exact Hrun|]. split; [|split].
    + destruct (C [str "assets"; str "style.css"] (str "a { color : red }"))
        as [text [Ht Hf]];
        [discriminate | vm_compute; reflexivity | reflexivity |].
      vm_compute in Ht. injection Ht as <-. exact Hf.
    + destruct (C [str "assets"; str "app.js"] (str " run() "))
        as [text [Ht Hf]];
        [discriminate | vm_compute; reflexivity | reflexivity |].
      vm_compute in Ht. injection Ht as <-. exact Hf.
    + destruct (C [str "logo.png"] (str "PNG"))
        as [text [Ht Hf]];
        [discriminate | vm_compute; reflexivity | reflexivity |].
      vm_compute in Ht. injection Ht as <-. exact Hf.
Defined.

Lemma walk_writes_nothing_else_witness :
  exists s',
    processDirectory Site.cfg Sample.trimming Sample.trimming Sample.md5
                     Sample.now 3 [] [] (Sample.start Site.tree) = Ok tt s'
    /\ fs.find [str "dist"; str "node_modules"; str "lib.js"] (disk s')
       <> Some (File (str "lib()")).
Proof.
  destruct (walk_writes_nothing_else Site.cfg Sample.trimming Sample.trimming
              Sample.md5 Sample.now 3
              [(str "assets",
                Dir [(str "app.js", File (str " run() "));
                     (str "style.css", File (str "a { color : red }"))]);
               (str "dist", Dir []);
               (str "index.html", File (Sample.page (str "'assets/app.js'")));
               (str "logo.png", File (str "PNG"));
               (str "node_modules", Dir [(str "lib.js", File (str "lib()"))])]
              (Sample.start Site.tree))
    as [s' [Hrun C]].
  - reflexivity.
  - reflexivity.
  - reflexivity.
  - vm_compute. reflexivity.
  - vm_compute. lia.
  - exists s'. split; [exact Hrun|]. intros F.
    destruct (C [str "node_modules"; str "lib.js"] (str "lib()") F) as [_ [W _]].
    vm_compute in W. discriminate.
Defined.

Lemma exclusion_by_path_inherited_witness :
  shouldExclude Site.cfg [str "node_modules"; str "lib"; str "index.js"] = true.
Proof.
  apply (exclusion_by_path_inherited Site.cfg [str "node_modules"]
           [str "lib"; str "index.js"] (str "node_modules")).
  - vm_compute. left. reflexivity.
  - discriminate.
  - left. reflexivity.
Defined.

Lemma page_without_src_unchanged_witness :
  updateScriptSrc [(str "a.js", str "b1cd24ed.js")] (str "<p>a.js</p>")
  = Some (str "<p>a.js</p>").
Proof.
  apply (page_without_src_unchanged [(str "a.js", str "b1cd24ed.js")]
           (str "<p>a.js</p>")).
  - reflexivity.
  - intros k v [E|[]]. injection E as <- _. discriminate.
Defined.

Lemma build_output_complete_witness :
  exists s',
    main Site.cfg Sample.trimming Sample.trimming Sample.md5 Sample.now []
         4 (Sample.start Site.full) = Ok tt s'
    /\ fs.find [str "dist"; str "assets"; str "style.css"] (disk s')
       = Some (File (str "a{color:red}"))
    /\ fs.find [str "dist"; str "data"; str "llm"; str "facts.json"] (disk s')
       = Some (File (str "{}")).
Proof.
  destruct (build_output_complete Site.cfg Sample.trimming Sample.trimming
              Sample.md5 Sample.now [] eq_refl eq_refl 4 (Sample.start Site.full))
    as [s' [Hrun [A B]]].
  - discriminate.
  - eexists. reflexivity.
  - reflexivity.
  - reflexivity.
  - reflexivity.
  - vm_compute. lia.
  - vm_compute. lia.
  - exists s'. split; [exact Hrun|]. split.
    + destruct (A [str "assets"; str "style.css"] (str "a { color : red }"))
        as [text [Ht Hf]];
        [discriminate | vm_compute; reflexivity | reflexivity |].
      vm_compute in Ht. injection Ht as <-. exact Hf.
    + apply (B [str "facts.json"] (str "{}")); reflexivity.
Defined.

Lemma build_output_exact_witness :
  exists s',
    main Site.cfg Sample.trimming Sample.trimming Sample.md5 Sample.now []
         4 (Sample.start Site.full) = Ok tt s'
    /\ fs.find [str "dist"; str "old.js"] (disk s') <> Some (File (str "old()"))
    /\ fs.find [str "dist"; str "node_modules"; str "lib.js"] (disk s')
       <> Some (File (str "lib()")).
Proof.
  destruct (build_output_exact Site.cfg Sample.trimming Sample.trimming
              Sample.md5 Sample.now [] eq_refl eq_refl 4 (Sample.start Site.full))
    as [s' [Hrun E]].
  - discriminate.
  - eexists. reflexivity.
  - reflexivity.
  - reflexivity.
  - reflexivity.
  - vm_compute. lia.
  - vm_compute. lia.
  - exists s'. split; [exact Hrun|]. split; intros F.
    + destruct (E [str "old.js"] _ F) as [[_ [_ [data [Fd _]]]]|[q [Eq _]]];
        discriminate.
    + destruct (E [str "node_modules"; str "lib.js"] _ F)
        as [[_ [W _]]|[q [Eq _]]]; [vm_compute in W|]; discriminate.
Defined.

Lemma rebuild_same_output_witness :
  exists s1 s2,
    main Site.cfg Sample.trimming Sample.trimming Sample.md5 Sample.now []
         4 (Sample.start Site.full) = Ok tt s1
    /\ main Site.cfg Sample.trimming Sample.trimming Sample.md5 Sample.now []
            5 s1 = Ok tt s2
    /\ fs.find [str "dist"; str "assets"; str "style.css"] (disk s2)
       = Some (File (str "a{color:red}")).
Proof.
  set (s1 := match main Site.cfg Sample.trimming Sample.trimming Sample.md5
                        Sample.now [] 4 (Sample.start Site.full) with
             | Ok _ x => x
             | _ => Sample.start Site.full
             end).
  assert (main Site.cfg Sample.trimming Sample.trimming Sample.md5 Sample.now []
               4 (Sample.start Site.full) = Ok tt s1) as E1
      by (vm_compute; reflexivity).
  destruct (rebuild_same_output Site.cfg Sample.trimming Sample.trimming
              Sample.md5 Sample.now [] eq_refl eq_refl 4 5
              (Sample.start Site.full) s1)
    as [s2 [E2 Same]].
  - discriminate.
  - eexists. reflexivity.
  - reflexivity.
  - reflexivity.
  - reflexivity.
  - vm_compute. lia.
  - vm_compute. lia.
  - exact E1.
  - vm_compute. lia.
  - vm_compute. lia.
  - exists s1, s2. split; [exact E1|]. split; [exact E2|].
    apply (Same [str "assets"; str "style.css"] (str "a{color:red}")).
    vm_compute. reflexivity.
Defined.

Lemma build_log_witness :
  exists s' mid,
    build Site.cfg Sample.trimming Sample.trimming Sample.md5 Sample.now []
          3 (Sample.start Site.tree) = Ok tt s'
    /\ progressLines mid = true
    /\ console s' = buildHeader Site.cfg [] ++ mid ++ buildFooter Site.cfg [].
Proof.
  assert (exists s', build Site.cfg Sample.trimming Sample.trimming Sample.md5
                           Sample.now [] 3 (Sample.start Site.tree) = Ok tt s')
    as [s' E] by (vm_compute; eexists; reflexivity).
  destruct (build_log Site.cfg Sample.trimming Sample.trimming Sample.md5
              Sample.now [] 3 (Sample.start Site.tree) s')
    as [mid [P C]].
  - rewrite E. reflexivity.
  - rewrite E in C. exists s', mid. split; [exact E|]. split; [exact P|].
    exact C.
Defined.
